(** * mtail: the log tailer ([internal/tailer/file.go]) and the filesystem
      watcher ([internal/watcher]), embedded shallowly.

    The Go code is translated function by function.  State that the Go code
    mutates through pointers ([*File], [*LogWatcher]) is passed explicitly;
    system calls go through an interface ([Sys]) so that theorems hold for
    every behaviour of the operating system, and a small in-memory
    filesystem instantiates it for concrete runs.  A Go panic is a result of
    its own ([Panic]); [glog] calls only write diagnostics and are left
    out. *)

From Stdlib Require Import ZArith Lia List Ascii String Zbitwise.
From Stdlib.Strings Require Import Byte.
From stdpp Require Import base gmap strings list.

Local Open Scope string_scope.
Local Open Scope list_scope.
Local Open Scope Z_scope.

(** ** Go values shared by both packages *)

(** Go [error] values.  [io.EOF] and the permission error are told apart by
    the code; everything else is carried as a message. *)
Inductive error : Type :=
| EOF
| ErrPermission
| ErrNotExist
| ErrBadFd
| ErrOther (msg : string)
| Errorf (msg : string)
| Wrapf (cause : error) (msg : string).

(** [os.IsPermission]. *)
Definition IsPermission (e : error) : bool :=
  match e with ErrPermission => true | _ => false end.

(** The result of a call that may panic instead of returning. *)
Inductive Outcome (A : Type) : Type :=
| Ret (a : A)
| Panic (msg : string).
Arguments Ret {A} a.
Arguments Panic {A} msg.

Definition isOk {A B : Type} (r : A + B) : bool :=
  match r with inl _ => true | inr _ => false end.

(** ** Package watcher *)

Module Watcher.

Inductive EventKind := Create | Update | Delete.

Record Event := mkEvent { Op : EventKind; Pathname : string }.

(** A channel is a reference into the store of channels made so far; the
    store keeps, per channel, the events sent on it in order. *)
Abbreviation chan := nat (only parsing).

(** [*fsnotify.Watcher]: the paths that have a native watch. *)
Record Native := mkNative { watches : list string }.

Record LogWatcher := mkLogWatcher {
  watcher : option Native;        (* nil when fsnotify is off or failed *)
  pollTicker : option Z;          (* the ticker's period, nanoseconds *)
  eventsMu : nat;                 (* read locks on [events] not yet released *)
  events : list chan;
  watched : gmap string chan;
  chans : list (list Event)       (* the channel store *)
}.

Definition set_watcher (n : option Native) (w : LogWatcher) : LogWatcher :=
  mkLogWatcher n (pollTicker w) (eventsMu w) (events w) (watched w) (chans w).
Definition set_eventsMu (k : nat) (w : LogWatcher) : LogWatcher :=
  mkLogWatcher (watcher w) (pollTicker w) k (events w) (watched w) (chans w).
Definition set_events (l : list chan) (w : LogWatcher) : LogWatcher :=
  mkLogWatcher (watcher w) (pollTicker w) (eventsMu w) l (watched w) (chans w).
Definition set_watched (m : gmap string chan) (w : LogWatcher) : LogWatcher :=
  mkLogWatcher (watcher w) (pollTicker w) (eventsMu w) (events w) m (chans w).
Definition set_chans (c : list (list Event)) (w : LogWatcher) : LogWatcher :=
  mkLogWatcher (watcher w) (pollTicker w) (eventsMu w) (events w) (watched w) c.

Definition RLock (w : LogWatcher) : LogWatcher := set_eventsMu (S (eventsMu w)) w.
Definition RUnlock (w : LogWatcher) : LogWatcher := set_eventsMu (Nat.pred (eventsMu w)) w.

Definition Millisecond : Z := 1000000.

Section WithOS.

(** What the Go libraries and the kernel answer: [filepath.Abs] (which can
    fail when the working directory cannot be read), [filepath.Dir],
    [fsnotify.NewWatcher] and the kernel's answer to adding a watch. *)
Variable Abs : string -> option string.
Variable Dir : string -> string.
Variable fsnotifyNew : option error.
Variable inotifyAdd : string -> option error.

(** [fsnotify.Watcher.Add] and [Remove] on a live watcher. *)
Definition nativeAdd (p : string) (n : Native) : option error * Native :=
  match inotifyAdd p with
  | Some e => (Some e, n)
  | None => (None, mkNative (p :: watches n))
  end.

Definition nativeRemove (p : string) (n : Native) : option error * Native :=
  if bool_decide (p ∈ watches n)
  then (None, mkNative (filter (fun q => q ≠ p) (watches n)))
  else (Some (Errorf "can't remove non-existent watch"), n).

Definition NewLogWatcher (pollInterval : Z) (enableFsnotify : bool) : LogWatcher :=
  let f := if enableFsnotify
           then match fsnotifyNew with None => Some (mkNative []) | Some _ => None end
           else None in
  let pollInterval :=
    match f with
    | None => if pollInterval =? 0 then Millisecond * 250 else pollInterval
    | Some _ => pollInterval
    end in
  mkLogWatcher f (if 0 <? pollInterval then Some pollInterval else None) 0 [] ∅ [].

(** [Events]: [Lock] waits for ever while a read lock is outstanding, which
    is the [None] result. *)
Definition Events (w : LogWatcher) : option (Z * chan * LogWatcher) :=
  match eventsMu w with
  | O =>
      let handle := Z.of_nat (length (events w)) in
      let ch := length (chans w) in
      Some (handle, ch, set_events (events w ++ [ch]) (set_chans (chans w ++ [[]]) w))
  | S _ => None
  end.

(** [c <- e] *)
Definition send (c : chan) (e : Event) (w : LogWatcher) : LogWatcher :=
  set_chans (alter (fun q => q ++ [e]) c (chans w)) w.

Definition sendEvent (e : Event) (w : LogWatcher) : LogWatcher :=
  let r := watched w !! Pathname e in
  let r := match r with
           | Some c => Some c
           | None => let d := Dir (Pathname e) in watched w !! d
           end in
  match r with
  | Some c => send c e w
  | None => w
  end.

Definition IsWatching (path : string) (w : LogWatcher) : bool :=
  match Abs path with
  | None => false
  | Some absPath =>
      match watched w !! absPath with Some _ => true | None => false end
  end.

(** [w.events[handle]] with Go's bounds check. *)
Definition index (l : list chan) (handle : Z) : option chan :=
  if handle <? 0 then None else l !! Z.to_nat handle.

Definition Add (path : string) (handle : Z) (w : LogWatcher)
  : Outcome (option error) * LogWatcher :=
  let w := RLock w in
  if Z.of_nat (length (events w)) <? handle then
    (Ret (Some (Errorf "no such event handle")), w)
  else
  let w := RUnlock w in
  if IsWatching path w then (Ret None, w) else
  match Abs path with
  | None => (Ret (Some (Wrapf (ErrOther "getwd") "Failed to lookup absolutepath")), w)
  | Some absPath =>
      let store (w : LogWatcher) :=
        let w := RLock w in
        match index (events w) handle with
        | None => (Panic "index out of range", w)
        | Some c => (Ret None, RUnlock (set_watched (<[absPath := c]> (watched w)) w))
        end in
      if bool_decide (absPath = "/dev") then store w
      else
        match watcher w with
        | None => (Panic "invalid memory address or nil pointer dereference", w)
        | Some n =>
            let (err, n) := nativeAdd absPath n in
            let w := set_watcher (Some n) w in
            match err with
            | Some err =>
                if IsPermission err then store w
                else (Ret (Some (Wrapf err "Failed to create a new watch")), w)
            | None => store w
            end
        end
  end.

Definition Remove (path : string) (w : LogWatcher) : option error * LogWatcher :=
  let w := set_watched (delete path (watched w)) w in
  match watcher w with
  | Some n =>
      let (err, n) := nativeRemove path n in
      (err, set_watcher (Some n) w)
  | None => (None, w)
  end.

End WithOS.

(** Concrete path functions for running examples.  They agree with
    [filepath.Abs] and [filepath.Dir] on paths already in clean form (no
    [.] or [..] element, no doubled or trailing slash), which is all the
    examples use. *)
Definition isAbs (p : string) : bool :=
  match p with String c _ => bool_decide (c = "/"%char) | EmptyString => false end.

Definition absIn (cwd p : string) : option string :=
  Some (if isAbs p then p else cwd +:+ "/" +:+ p).

(** The text before the last slash. *)
Fixpoint dirAcc (p : string) : option string :=
  match p with
  | EmptyString => None
  | String c p' =>
      match dirAcc p' with
      | Some d => Some (String c d)
      | None => if bool_decide (c = "/"%char) then Some EmptyString else None
      end
  end.

Definition dirOf (p : string) : string :=
  match dirAcc p with
  | None => "."
  | Some EmptyString => "/"
  | Some d => d
  end.

End Watcher.

(** ** Go's [unicode/utf8] and [bytes.Buffer.WriteRune]

    The tailer decodes every chunk it reads with [utf8.DecodeRune] and
    re-encodes the runes into its line buffer.  Both are transcribed from
    the Go library, bit operations included. *)

Module utf8.

Definition b2z (b : byte) : Z := Z.of_N (Byte.to_N b).

(** Go's conversion [byte(x)]: the low eight bits. *)
Definition z2b (z : Z) : byte :=
  match Byte.of_N (Z.to_N (z mod 256)) with
  | Some b => b
  | None => Byte.x00
  end.

(** Conversion to [int32] ([rune]) with wrap-around. *)
Definition int32 (z : Z) : Z := (z + 2 ^ 31) mod 2 ^ 32 - 2 ^ 31.
Definition uint32 (z : Z) : Z := z mod 2 ^ 32.

Definition RuneError : Z := 0xFFFD.
Definition RuneSelf : Z := 0x80.
Definition MaxRune : Z := 0x10FFFF.
Definition surrogateMin : Z := 0xD800.
Definition surrogateMax : Z := 0xDFFF.

Definition t1 : Z := 0x00.
Definition tx : Z := 0x80.
Definition t2 : Z := 0xC0.
Definition t3 : Z := 0xE0.
Definition t4 : Z := 0xF0.

Definition maskx : Z := 0x3F.
Definition mask2 : Z := 0x1F.
Definition mask3 : Z := 0x0F.
Definition mask4 : Z := 0x07.

Definition rune1Max : Z := 0x7F.
Definition rune2Max : Z := 0x7FF.
Definition rune3Max : Z := 0xFFFF.

Definition locb : Z := 0x80.
Definition hicb : Z := 0xBF.

Definition xx : Z := 0xF1.
Definition as_ : Z := 0xF0.
Definition s1 : Z := 0x02.
Definition s2 : Z := 0x13.
Definition s3 : Z := 0x03.
Definition s4 : Z := 0x23.
Definition s5 : Z := 0x34.
Definition s6 : Z := 0x04.
Definition s7 : Z := 0x44.

(** The table [first], row by row. *)
Definition first (p0 : Z) : Z :=
  if p0 <? 0x80 then as_
  else if p0 <? 0xC2 then xx
  else if p0 <? 0xE0 then s1
  else if p0 =? 0xE0 then s2
  else if p0 <? 0xED then s3
  else if p0 =? 0xED then s4
  else if p0 <? 0xF0 then s3
  else if p0 =? 0xF0 then s5
  else if p0 <? 0xF4 then s6
  else if p0 =? 0xF4 then s7
  else xx.

Definition acceptRanges (i : Z) : Z * Z :=
  if i =? 0 then (locb, hicb)
  else if i =? 1 then (0xA0, hicb)
  else if i =? 2 then (locb, 0x9F)
  else if i =? 3 then (0x90, hicb)
  else if i =? 4 then (locb, 0x8F)
  else (0, 0).

(** [utf8.DecodeRune]: the rune and its width in bytes. *)
Definition DecodeRune (p : list byte) : Z * Z :=
  let n := Z.of_nat (length p) in
  match p with
  | [] => (RuneError, 0)
  | c0 :: p1 =>
      let p0 := b2z c0 in
      let x := first p0 in
      if as_ <=? x then
        let mask := Z.shiftr (int32 (Z.shiftl x 31)) 31 in
        (Z.lor (Z.land p0 (Z.lnot mask)) (Z.land RuneError mask), 1)
      else
      let sz := Z.land x 7 in
      let accept := acceptRanges (Z.shiftr x 4) in
      if n <? sz then (RuneError, 1) else
      match p1 with
      | [] => (RuneError, 1)
      | c1 :: p2 =>
          let b1 := b2z c1 in
          if (b1 <? fst accept) || (snd accept <? b1) then (RuneError, 1) else
          if sz <=? 2 then
            (Z.lor (Z.shiftl (Z.land p0 mask2) 6) (Z.land b1 maskx), 2)
          else
          match p2 with
          | [] => (RuneError, 1)
          | c2 :: p3 =>
              let b2 := b2z c2 in
              if (b2 <? locb) || (hicb <? b2) then (RuneError, 1) else
              if sz <=? 3 then
                (Z.lor (Z.lor (Z.shiftl (Z.land p0 mask3) 12)
                              (Z.shiftl (Z.land b1 maskx) 6))
                       (Z.land b2 maskx), 3)
              else
              match p3 with
              | [] => (RuneError, 1)
              | c3 :: _ =>
                  let b3 := b2z c3 in
                  if (b3 <? locb) || (hicb <? b3) then (RuneError, 1) else
                  (Z.lor (Z.lor (Z.lor (Z.shiftl (Z.land p0 mask4) 18)
                                       (Z.shiftl (Z.land b1 maskx) 12))
                                (Z.shiftl (Z.land b2 maskx) 6))
                         (Z.land b3 maskx), 4)
              end
          end
      end
  end.

Definition encode3 (r : Z) : list byte :=
  [ z2b (Z.lor t3 (b2z (z2b (Z.shiftr r 12))));
    z2b (Z.lor tx (Z.land (b2z (z2b (Z.shiftr r 6))) maskx));
    z2b (Z.lor tx (Z.land (b2z (z2b r)) maskx)) ].

(** [utf8.EncodeRune], returning the bytes written. *)
Definition EncodeRune (r : Z) : list byte :=
  let i := uint32 r in
  if i <=? rune1Max then [ z2b r ]
  else if i <=? rune2Max then
    [ z2b (Z.lor t2 (b2z (z2b (Z.shiftr r 6))));
      z2b (Z.lor tx (Z.land (b2z (z2b r)) maskx)) ]
  else if (MaxRune <? i) || ((surrogateMin <=? i) && (i <=? surrogateMax)) then
    encode3 RuneError
  else if i <=? rune3Max then encode3 r
  else
    [ z2b (Z.lor t4 (b2z (z2b (Z.shiftr r 18))));
      z2b (Z.lor tx (Z.land (b2z (z2b (Z.shiftr r 12))) maskx));
      z2b (Z.lor tx (Z.land (b2z (z2b (Z.shiftr r 6))) maskx));
      z2b (Z.lor tx (Z.land (b2z (z2b r)) maskx)) ].

(** [bytes.Buffer.WriteRune]: the bytes appended to the buffer. *)
Definition WriteRune (r : Z) : list byte :=
  if uint32 r <? RuneSelf then [ z2b r ] else EncodeRune r.

(** A byte string is well-formed when decoding it rune by rune never
    reports an encoding error (rune [RuneError] of width 1), as
    [utf8.Valid] tests. *)
Fixpoint validFrom (fuel : nat) (p : list byte) : bool :=
  match fuel with
  | O => match p with [] => true | _ => false end
  | S k =>
      match p with
      | [] => true
      | _ =>
          let (r, w) := DecodeRune p in
          if (r =? RuneError) && (w =? 1) then false
          else validFrom k (drop (Z.to_nat w) p)
      end
  end.

Definition Valid (p : list byte) : bool := validFrom (length p) p.

(** Decoding [p] gave rune [r] of width [w] and lost nothing: writing [r]
    back gives the [w] bytes consumed, and a newline byte is consumed only
    as the rune [10]. *)
Definition good (p : list byte) (r w : Z) : Prop :=
  1 <= w /\ (Z.to_nat w <= length p)%nat /\
  WriteRune r = take (Z.to_nat w) p /\
  (r = 10 -> exists p', p = Byte.x0a :: p' /\ w = 1) /\
  (r <> 10 -> Forall (fun c => c <> Byte.x0a) (take (Z.to_nat w) p)).

End utf8.

(** ** Package tailer *)

Module Tailer.

Record LogLine := mkLogLine { Filename : string; Line : list byte }.

(** An [*os.File] is a reference to an open descriptor held by the
    operating system; [chanref] names the channel of lines. *)
Abbreviation fd := nat (only parsing).
Abbreviation chanref := nat (only parsing).

Inductive Whence := SeekStart | SeekCurrent | SeekEnd.

(** [os.FileInfo]: the device and inode that [os.SameFile] compares, the
    mode bits and the size. *)
Record FileInfo := mkFileInfo {
  st_dev : Z;
  st_ino : Z;
  st_mode : Z;
  st_size : Z
}.

(** [os.FileMode] type bits. *)
Definition ModeDir : Z := Z.shiftl 1 31.
Definition ModeSymlink : Z := Z.shiftl 1 27.
Definition ModeDevice : Z := Z.shiftl 1 26.
Definition ModeNamedPipe : Z := Z.shiftl 1 25.
Definition ModeSocket : Z := Z.shiftl 1 24.
Definition ModeCharDevice : Z := Z.shiftl 1 21.
Definition ModeIrregular : Z := Z.shiftl 1 19.
Definition ModeType : Z :=
  Z.lor ModeDir (Z.lor ModeSymlink (Z.lor ModeNamedPipe (Z.lor ModeSocket
    (Z.lor ModeDevice (Z.lor ModeCharDevice ModeIrregular))))).

Definition IsRegular (m : Z) : bool := Z.land m ModeType =? 0.

(** [os.SameFile]; a nil [FileInfo] (from a failed stat) is never the same
    file as anything. *)
Definition SameFile (fi1 fi2 : option FileInfo) : bool :=
  match fi1, fi2 with
  | Some a, Some b => (st_dev a =? st_dev b) && (st_ino a =? st_ino b)
  | _, _ => false
  end.

Definition Millisecond : Z := 1000000.
Definition Second : Z := 1000 * Millisecond.

(** The operating system, as the tailer sees it.  Every call may change
    the system's state; [sys_sleep] is where time passes and other
    processes run. *)
Class Sys (W : Type) := {
  sys_abs : string -> W -> string + error;
  sys_open : string -> W -> (fd + error) * W;
  sys_fstat : fd -> W -> (FileInfo + error) * W;
  sys_stat : string -> W -> (FileInfo + error) * W;
  sys_seek : fd -> Z -> Whence -> W -> (Z + error) * W;
  sys_read : fd -> Z -> W -> (list byte * option error) * W;
  sys_deadline : fd -> Z -> W -> option error * W;
  sys_close : fd -> W -> option error * W;
  sys_sleep : Z -> W -> W;
  sys_now : W -> Z
}.

(** What a run does to the outside, in order. *)
Inductive Effect :=
| EvOpen (path : string) (r : fd + error)
| EvFstat (f : fd) (ok : bool)
| EvStat (path : string) (ok : bool)
| EvSeek (f : fd) (off : Z) (wh : Whence) (r : Z + error)
| EvRead (f : fd) (data : list byte) (err : option error)
| EvClose (f : fd)
| EvSleep (d : Z)
| EvSend (c : chanref) (l : LogLine).

(** The process around the tailer: the system, the four [expvar] maps and
    the record of effects. *)
Record Env (W : Type) := mkEnv {
  world : W;
  trace : list Effect;
  logErrors : gmap string Z;
  logRotations : gmap string Z;
  logTruncs : gmap string Z;
  lineCount : gmap string Z
}.
Arguments mkEnv {W}.
Arguments world {W}.
Arguments trace {W}.
Arguments logErrors {W}.
Arguments logRotations {W}.
Arguments logTruncs {W}.
Arguments lineCount {W}.

Record File := mkFile {
  Name : string;
  Pathname : string;
  LastRead : Z;
  regular : bool;
  file : fd;
  partial : list byte;
  lock : bool;
  lines : chanref;
  partialLock : bool   (* used by [waitForLock] and [sendLine] *)
}.

Definition set_LastRead (t : Z) (f : File) : File :=
  mkFile (Name f) (Pathname f) t (regular f) (file f) (partial f) (lock f) (lines f) (partialLock f).
Definition set_file (d : fd) (f : File) : File :=
  mkFile (Name f) (Pathname f) (LastRead f) (regular f) d (partial f) (lock f) (lines f) (partialLock f).
Definition set_partial (p : list byte) (f : File) : File :=
  mkFile (Name f) (Pathname f) (LastRead f) (regular f) (file f) p (lock f) (lines f) (partialLock f).
Definition set_lock (b : bool) (f : File) : File :=
  mkFile (Name f) (Pathname f) (LastRead f) (regular f) (file f) (partial f) b (lines f) (partialLock f).
Definition set_partialLock (b : bool) (f : File) : File :=
  mkFile (Name f) (Pathname f) (LastRead f) (regular f) (file f) (partial f) (lock f) (lines f) b.

(** [expvar.Map.Add key 1] *)
Definition bump (key : string) (m : gmap string Z) : gmap string Z :=
  <[key := default 0 (m !! key) + 1]> m.

(** The sent lines of a trace, in order. *)
Definition sentLines (t : list Effect) : list LogLine :=
  omap (fun ev => match ev with EvSend _ l => Some l | _ => None end) t.

Section WithSys.

Context {W : Type} {S : Sys W}.

Definition set_world (w : W) (e : Env W) : Env W :=
  mkEnv w (trace e) (logErrors e) (logRotations e) (logTruncs e) (lineCount e).
Definition emit (ev : Effect) (e : Env W) : Env W :=
  mkEnv (world e) (trace e ++ [ev]) (logErrors e) (logRotations e) (logTruncs e) (lineCount e).
Definition logErrors_Add (key : string) (e : Env W) : Env W :=
  mkEnv (world e) (trace e) (bump key (logErrors e)) (logRotations e) (logTruncs e) (lineCount e).
Definition logRotations_Add (key : string) (e : Env W) : Env W :=
  mkEnv (world e) (trace e) (logErrors e) (bump key (logRotations e)) (logTruncs e) (lineCount e).
Definition logTruncs_Add (key : string) (e : Env W) : Env W :=
  mkEnv (world e) (trace e) (logErrors e) (logRotations e) (bump key (logTruncs e)) (lineCount e).
Definition lineCount_Add (key : string) (e : Env W) : Env W :=
  mkEnv (world e) (trace e) (logErrors e) (logRotations e) (logTruncs e) (bump key (lineCount e)).

(** The system calls, each leaving its mark in the trace. *)
Definition os_OpenFile (path : string) (e : Env W) : (fd + error) * Env W :=
  let (r, w) := sys_open path (world e) in
  (r, emit (EvOpen path r) (set_world w e)).

Definition file_Stat (d : fd) (e : Env W) : (FileInfo + error) * Env W :=
  let (r, w) := sys_fstat d (world e) in
  (r, emit (EvFstat d (isOk r)) (set_world w e)).

Definition os_Stat (path : string) (e : Env W) : (FileInfo + error) * Env W :=
  let (r, w) := sys_stat path (world e) in
  (r, emit (EvStat path (isOk r)) (set_world w e)).

Definition file_Seek (d : fd) (off : Z) (wh : Whence) (e : Env W) : (Z + error) * Env W :=
  let (r, w) := sys_seek d off wh (world e) in
  (r, emit (EvSeek d off wh r) (set_world w e)).

Definition file_Read (d : fd) (cap : Z) (e : Env W) : (list byte * option error) * Env W :=
  let (r, w) := sys_read d cap (world e) in
  (r, emit (EvRead d (fst r) (snd r)) (set_world w e)).

Definition file_SetReadDeadline (d : fd) (t : Z) (e : Env W) : option error * Env W :=
  let (r, w) := sys_deadline d t (world e) in
  (r, set_world w e).

Definition file_Close (d : fd) (e : Env W) : option error * Env W :=
  let (r, w) := sys_close d (world e) in
  (r, emit (EvClose d) (set_world w e)).

Definition time_Sleep (d : Z) (e : Env W) : Env W :=
  emit (EvSleep d) (set_world (sys_sleep d (world e)) e).

Definition time_Now (e : Env W) : Z := sys_now (world e).

(** [open]: the [Retry] label is the recursive call; [retries] counts
    down from 3. *)
Fixpoint openRetry (retries : nat) (retryDelay : Z) (pathname : string)
    (seenBefore : bool) (e : Env W) : (fd + error) * Env W :=
  let shouldRetry := if negb seenBefore then false else (0 <? Z.of_nat retries) in
  let (r, e) := os_OpenFile pathname e in
  match r with
  | inr err =>
      let e := logErrors_Add pathname e in
      match shouldRetry, retries with
      | true, Datatypes.S k =>
          let e := time_Sleep retryDelay e in
          openRetry k (retryDelay + retryDelay) pathname seenBefore e
      | _, _ => (inr err, e)
      end
  | inl f => (inl f, e)
  end.

Definition open (pathname : string) (seenBefore : bool) (e : Env W)
  : (fd + error) * Env W :=
  openRetry 3 (1 * Millisecond) pathname seenBefore e.

Definition NewFile (pathname : string) (lines : chanref) (seekToStart : bool)
    (e : Env W) : (File + error) * Env W :=
  match sys_abs pathname (world e) with
  | inr err => (inr err, e)
  | inl absPath =>
      let (r, e) := open absPath false e in
      match r with
      | inr err => (inr err, e)
      | inl f =>
          let (r, e) := file_Stat f e in
          match r with
          | inr err =>
              let e := logErrors_Add absPath e in
              (inr (Wrapf err "Failed to stat"), e)
          | inl fi =>
              let m := st_mode fi in
              if IsRegular m then
                let seekWhence := if seekToStart then SeekCurrent else SeekEnd in
                let (r, e) := file_Seek f 0 seekWhence e in
                match r with
                | inr err => (inr (Wrapf err "Seek failed"), e)
                | inl _ =>
                    (* fallthrough into the empty named-pipe case *)
                    (inl (mkFile pathname absPath (time_Now e) true f [] false lines false), e)
                end
              else if Z.land m ModeType =? ModeNamedPipe then
                (inl (mkFile pathname absPath (time_Now e) false f [] false lines false), e)
              else
                (inr (Errorf "Can't open files with mode"), e)
          end
      end
  end.

Definition waitForLock (f : File) (e : Env W) : Env W :=
  if partialLock f then time_Sleep (1 * Millisecond) e else e.

Definition sendLine (f : File) (e : Env W) : File * Env W :=
  let f := set_partialLock true f in
  let e := emit (EvSend (lines f) (mkLogLine (Name f) (partial f))) e in
  let e := lineCount_Add (Name f) e in
  let f := set_partial [] f in
  let f := set_partialLock false f in
  (f, e).

Definition checkForTruncate (f : File) (e : Env W) : (bool * option error) * File * Env W :=
  let (r, e) := file_Seek (file f) 0 SeekCurrent e in
  match r with
  | inr err => ((false, Some err), f, e)
  | inl currentOffset =>
      let (r, e) := file_Stat (file f) e in
      match r with
      | inr err => ((false, Some err), f, e)
      | inl fi =>
          if (currentOffset =? 0) || (currentOffset <=? st_size fi) then
            ((false, None), f, e)
          else
            let (f, e) := if 0 <? Z.of_nat (length (partial f))
                          then sendLine f e else (f, e) in
            let (r, e) := file_Seek (file f) 0 SeekStart e in
            let serr := match r with inr err => Some err | inl _ => None end in
            let e := logTruncs_Add (Name f) e in
            ((true, serr), f, e)
      end
  end.

(** The inner loop of [Read] over one chunk: [b] is what is left of the
    chunk from index [i] on, and each turn consumes [width] bytes. *)
Fixpoint decodeRunes (fuel : nat) (b : list byte) (f : File) (e : Env W)
  : File * Env W :=
  match fuel with
  | O => (f, e)
  | Datatypes.S k =>
      match b with
      | [] => (f, e)
      | _ =>
          let (rune, width) := utf8.DecodeRune b in
          let (f, e) :=
            if negb (rune =? 10) then
              let e := waitForLock f e in
              (set_partial (partial f ++ utf8.WriteRune rune) f, e)
            else sendLine f e in
          decodeRunes k (drop (Z.to_nat width) b) f e
      end
  end.

(** [Read]: one turn of the outer [for] per unit of fuel; [None] when the
    fuel runs out before the loop returns. *)
Fixpoint ReadLoop (fuel : nat) (totalBytes : Z) (f : File) (e : Env W)
  : option (error * File * Env W) :=
  match fuel with
  | O => None
  | Datatypes.S k =>
      let f := set_lock true f in
      let (_, e) := file_SetReadDeadline (file f) (time_Now e + 5 * Second) e in
      let '((b, err), e) := file_Read (file f) 4096 e in
      let n := Z.of_nat (length b) in
      let totalBytes := totalBytes + n in
      let '((truncated, _), f, e) :=
        match err with
        | Some EOF =>
            if (totalBytes =? 0) && regular f then checkForTruncate f e
            else ((false, None), f, e)
        | _ => ((false, None), f, e)
        end in
      if truncated then ReadLoop k totalBytes f e
      else
        let (f, e) := decodeRunes (length b) b f e in
        let f := set_lock false f in
        match err with
        | Some err =>
            let f := if 0 <? totalBytes then set_LastRead (time_Now e) f else f in
            Some (err, f, e)
        | None => ReadLoop k totalBytes f e
        end
  end.

Definition Read (fuel : nat) (f : File) (e : Env W) : option (error * File * Env W) :=
  ReadLoop fuel 0 f e.

Definition doRotation (fuel : nat) (f : File) (e : Env W)
  : option (option error * File * Env W) :=
  match Read fuel f e with
  | None => None
  | Some (_, f, e) =>
      let e := logRotations_Add (Name f) e in
      let (r, e) := open (Pathname f) true e in
      match r with
      | inr err => Some (Some err, f, e)
      | inl newFile => Some (None, set_file newFile f, e)
      end
  end.

Definition Follow (fuel : nat) (f : File) (e : Env W)
  : option (option error * File * Env W) :=
  let (r1, e) := file_Stat (file f) e in
  let s1 := match r1 with inl fi => Some fi | inr _ => None end in
  let first :=
    match r1 with
    | inr _ => doRotation fuel f e
    | inl _ => Some (None, f, e)
    end in
  match first with
  | None => None
  | Some (Some err, f, e) => Some (Some err, f, e)
  | Some (None, f, e) =>
      let (r2, e) := os_Stat (Pathname f) e in
      match r2 with
      | inr _ => Some (None, f, e)
      | inl s2 =>
          let second :=
            if negb (SameFile s1 (Some s2)) then doRotation fuel f e
            else Some (None, f, e) in
          match second with
          | None => None
          | Some (Some err, f, e) => Some (Some err, f, e)
          | Some (None, f, e) =>
              if negb (lock f) then
                match Read fuel f e with
                | None => None
                | Some (err, f, e) => Some (Some err, f, e)
                end
              else Some (None, f, e)
          end
      end
  end.

Definition Stat (f : File) (e : Env W) : (FileInfo + error) * Env W :=
  file_Stat (file f) e.

Definition Close (f : File) (e : Env W) : option error * File * Env W :=
  let (f, e) := if 0 <? Z.of_nat (length (partial f)) then sendLine f e else (f, e) in
  let (r, e) := file_Close (file f) e in
  (r, f, e).

End WithSys.

(** *** Reading traces *)

(** The trace of a run of attempts to open [path] with results [rs], a
    sleep between one attempt and the next, the delay doubling. *)
Fixpoint attemptsTrace (path : string) (rs : list (fd + error)) (delay : Z)
  : list Effect :=
  match rs with
  | [] => []
  | r :: rs' =>
      match rs' with
      | [] => [EvOpen path r]
      | _ => EvOpen path r :: EvSleep delay :: attemptsTrace path rs' (delay + delay)
      end
  end.

(** Lines put back together, a newline after each. *)
Definition joinLines (ls : list (list byte)) : list byte :=
  concat (map (fun l => l ++ [Byte.x0a]) ls).

(** Bytes cut at each newline: the finished lines, and what follows the
    last newline.  [acc] is the unfinished line so far. *)
Fixpoint splitLines (acc : list byte) (bs : list byte)
  : list (list byte) * list byte :=
  match bs with
  | [] => ([], acc)
  | c :: bs' =>
      if utf8.b2z c =? 10
      then (acc :: (splitLines [] bs').1, (splitLines [] bs').2)
      else splitLines (acc ++ [c]) bs'
  end.

(** The lines [ls] of file [name] sent on channel [c], one after the
    other, each counted. *)
Fixpoint sendAll {W : Type} (name : string) (c : chanref)
    (ls : list (list byte)) (e : Env W) : Env W :=
  match ls with
  | [] => e
  | l :: ls' =>
      sendAll name c ls' (lineCount_Add name (emit (EvSend c (mkLogLine name l)) e))
  end.

(** The calls a read pass over descriptor [d] may make, for a file named
    [name] that sends on [c]; [reg] tells a regular file from a pipe. *)
Definition allowed (d : fd) (c : chanref) (name : string) (reg : bool)
    (ev : Effect) : Prop :=
  match ev with
  | EvRead d' _ _ => d' = d
  | EvSend c' l => c' = c /\ Filename l = name
  | EvSleep _ => True
  | EvSeek d' _ _ _ => reg = true /\ d' = d
  | EvFstat d' _ => reg = true /\ d' = d
  | _ => False
  end.

(** From [e] to [e']: the calls [t] were made, all satisfying [P]; every line sent was
    counted under [name]; the error and rotation counters stand. *)
Definition run {W : Type} (P : Effect -> Prop) (name : string) (e e' : Env W) : Prop :=
  exists t, trace e' = trace e ++ t /\ Forall P t /\
    lineCount e' = Nat.iter (length (sentLines t)) (bump name) (lineCount e).

(** The same file, whatever happened to its buffer, lock and time. *)
Definition sameFile (f f' : File) : Prop :=
  file f' = file f /\ lines f' = lines f /\ Name f' = Name f /\
  Pathname f' = Pathname f /\ regular f' = regular f.

(** What [Follow] may do for a file named [name] that sends on [c]:
    anything but closing a descriptor, and sends only as that file. *)
Definition followEv (c : chanref) (name : string) (ev : Effect) : Prop :=
  match ev with
  | EvSend c' l => c' = c /\ Filename l = name
  | EvClose _ => False
  | _ => True
  end.


(** The failed attempts to open among the calls [t]. *)
Fixpoint failedOpens (t : list Effect) : Z :=
  match t with
  | [] => 0
  | EvOpen _ (inr _) :: t' => 1 + failedOpens t'
  | _ :: t' => failedOpens t'
  end.

End Tailer.

(** ** An in-memory operating system

    Inodes with their bytes, a name space, a table of open descriptors and
    a clock.  Other processes act through [append], [truncate] and
    [replace], and through [arrivals]: links that appear at a given time,
    which a sleeping tailer finds on waking.  [budget] bounds the number of
    descriptor operations that still succeed, for descriptors that are
    invalidated under the tailer's feet. *)

Module MemOS.

Import Tailer.

Record Node := mkNode {
  n_dev : Z;
  n_ino : Z;
  n_mode : Z;
  n_data : list byte
}.

Record Desc := mkDesc { d_node : nat; d_pos : nat }.

Record OS := mkOS {
  cwd : string;
  nodes : list Node;
  names : gmap string nat;
  descs : list (option Desc);
  budget : option nat;
  arrivals : list (Z * string * nat);
  clock : Z
}.

Definition set_nodes (l : list Node) (w : OS) : OS :=
  mkOS (cwd w) l (names w) (descs w) (budget w) (arrivals w) (clock w).
Definition set_names (m : gmap string nat) (w : OS) : OS :=
  mkOS (cwd w) (nodes w) m (descs w) (budget w) (arrivals w) (clock w).
Definition set_descs (l : list (option Desc)) (w : OS) : OS :=
  mkOS (cwd w) (nodes w) (names w) l (budget w) (arrivals w) (clock w).
Definition set_budget (b : option nat) (w : OS) : OS :=
  mkOS (cwd w) (nodes w) (names w) (descs w) b (arrivals w) (clock w).

(** One descriptor operation against the budget. *)
Definition tick (w : OS) : option OS :=
  match budget w with
  | None => Some w
  | Some O => None
  | Some (Datatypes.S k) => Some (set_budget (Some k) w)
  end.

Definition getDesc (d : fd) (w : OS) : option (Desc * Node) :=
  match descs w !! d with
  | Some (Some ds) =>
      match nodes w !! d_node ds with
      | Some nd => Some (ds, nd)
      | None => None
      end
  | _ => None
  end.

Definition infoOf (nd : Node) : FileInfo :=
  mkFileInfo (n_dev nd) (n_ino nd) (n_mode nd) (Z.of_nat (length (n_data nd))).

Definition mem_abs (p : string) (w : OS) : string + error :=
  inl (if Watcher.isAbs p then p else cwd w +:+ "/" +:+ p).

Definition mem_open (p : string) (w : OS) : (fd + error) * OS :=
  match names w !! p with
  | Some n => (inl (length (descs w)), set_descs (descs w ++ [Some (mkDesc n 0)]) w)
  | None => (inr ErrNotExist, w)
  end.

Definition mem_fstat (d : fd) (w : OS) : (FileInfo + error) * OS :=
  match tick w with
  | None => (inr ErrBadFd, w)
  | Some w =>
      match getDesc d w with
      | Some (_, nd) => (inl (infoOf nd), w)
      | None => (inr ErrBadFd, w)
      end
  end.

Definition mem_stat (p : string) (w : OS) : (FileInfo + error) * OS :=
  match names w !! p with
  | Some n =>
      match nodes w !! n with
      | Some nd => (inl (infoOf nd), w)
      | None => (inr ErrNotExist, w)
      end
  | None => (inr ErrNotExist, w)
  end.

Definition mem_seek (d : fd) (off : Z) (wh : Whence) (w : OS) : (Z + error) * OS :=
  match tick w with
  | None => (inr ErrBadFd, w)
  | Some w =>
      match getDesc d w with
      | Some (ds, nd) =>
          if IsRegular (n_mode nd) then
            let base := match wh with
                        | SeekStart => 0
                        | SeekCurrent => Z.of_nat (d_pos ds)
                        | SeekEnd => Z.of_nat (length (n_data nd))
                        end in
            let p := base + off in
            if p <? 0 then (inr (ErrOther "invalid argument"), w)
            else (inl p, set_descs (<[d := Some (mkDesc (d_node ds) (Z.to_nat p))]> (descs w)) w)
          else (inr (ErrOther "illegal seek"), w)
      | None => (inr ErrBadFd, w)
      end
  end.

Definition mem_read (d : fd) (cap : Z) (w : OS) : (list byte * option error) * OS :=
  match tick w with
  | None => (([], Some ErrBadFd), w)
  | Some w =>
      match getDesc d w with
      | Some (ds, nd) =>
          let b := take (Z.to_nat cap) (drop (d_pos ds) (n_data nd)) in
          match b with
          | [] => (([], Some EOF), w)
          | _ =>
              ((b, None),
               set_descs (<[d := Some (mkDesc (d_node ds) (d_pos ds + length b))]> (descs w)) w)
          end
      | None => (([], Some ErrBadFd), w)
      end
  end.

(** Deadlines exist for pipes only. *)
Definition mem_deadline (d : fd) (t : Z) (w : OS) : option error * OS :=
  (match getDesc d w with
   | Some (_, nd) =>
       if Z.land (n_mode nd) ModeType =? ModeNamedPipe then None
       else Some (ErrOther "file type does not support deadline")
   | None => Some ErrBadFd
   end, w).

Definition mem_close (d : fd) (w : OS) : option error * OS :=
  match getDesc d w with
  | Some _ => (None, set_descs (<[d := None]> (descs w)) w)
  | None => (Some ErrBadFd, w)
  end.

Definition mem_sleep (d : Z) (w : OS) : OS :=
  let t := clock w + d in
  let due := filter (fun a => a.1.1 <= t) (arrivals w) in
  let later := filter (fun a => ¬ a.1.1 <= t) (arrivals w) in
  mkOS (cwd w) (nodes w)
       (foldl (fun m a => <[a.1.2 := a.2]> m) (names w) due)
       (descs w) (budget w) later t.

#[export] Instance memSys : Sys OS := {
  sys_abs := mem_abs;
  sys_open := mem_open;
  sys_fstat := mem_fstat;
  sys_stat := mem_stat;
  sys_seek := mem_seek;
  sys_read := mem_read;
  sys_deadline := mem_deadline;
  sys_close := mem_close;
  sys_sleep := mem_sleep;
  sys_now := clock
}.

(** What other processes do to the files. *)
Definition append (n : nat) (bs : list byte) (w : OS) : OS :=
  set_nodes (alter (fun nd => mkNode (n_dev nd) (n_ino nd) (n_mode nd) (n_data nd ++ bs)) n (nodes w)) w.


(** A new inode takes over the name, as log rotation does. *)
Definition replace (p : string) (nd : Node) (w : OS) : OS :=
  set_names (<[p := length (nodes w)]> (names w)) (set_nodes (nodes w ++ [nd]) w).

Definition env0 (w : OS) : Env OS := mkEnv w [] ∅ ∅ ∅ ∅.

(** The tailer at work: after each piece is appended to inode [n], one
    [Read] pass. *)
Fixpoint tailPieces (fuel : nat) (n : nat) (ps : list (list byte)) (f : File)
    (e : Env OS) : option (File * Env OS) :=
  match ps with
  | [] => Some (f, e)
  | p :: ps =>
      match Read fuel f (set_world (append n p (world e)) e) with
      | None => None
      | Some (_, f, e) => tailPieces fuel n ps f e
      end
  end.

(** The capacity of the buffer [Read] reads into. *)
Definition chunkLen : nat := Z.to_nat 4096.
Arguments chunkLen : simpl never.

(** The chunks a pass reads from [l] bytes of new content. *)
Fixpoint chunksOf (fuel : nat) (l : list byte) : list (list byte) :=
  match fuel with
  | O => []
  | Datatypes.S k =>
      match l with
      | [] => []
      | _ => take chunkLen l :: chunksOf k (drop chunkLen l)
      end
  end.

Definition readChunks (l : list byte) : list (list byte) := chunksOf (length l) l.

(** Descriptor [d] of [w] is open at offset [pos] on inode [n], a regular
    file holding [data], and no descriptor operation is set to fail. *)
Definition tailing (d : fd) (n pos : nat) (data : list byte) (w : OS) : Prop :=
  budget w = None /\
  descs w !! d = Some (Some (mkDesc n pos)) /\
  exists nd, nodes w !! n = Some nd /\ IsRegular (n_mode nd) = true /\ n_data nd = data.

(** From [w] to [w'] nothing happened but moves of descriptor [d]: the
    disk, the names and the other descriptors are as they were. *)
Definition moved (d : fd) (w w' : OS) : Prop :=
  nodes w' = nodes w /\ names w' = names w /\
  length (descs w') = length (descs w) /\
  (forall d', d' <> d -> descs w' !! d' = descs w !! d').

(** ... and no truncation was counted. *)
Definition passed (d : fd) (e e' : Env OS) : Prop :=
  moved d (world e) (world e') /\ logTruncs e' = logTruncs e.

End MemOS.

(** ** The watcher's two loops, one turn at a time *)

Module WatcherLoops.

Import Watcher.

(** [fsnotify.Op]: one bit per kind of change. *)
Definition fsCreate : Z := 1.
Definition fsWrite : Z := 2.
Definition fsRemove : Z := 4.
Definition fsRename : Z := 8.
Definition fsChmod : Z := 16.

(** [fsnotify.Event] *)
Record FsEvent := mkFsEvent { fsName : string; fsOp : Z }.

(** [e.Op&bit == bit] *)
Definition has (op bit : Z) : bool := Z.land op bit =? bit.

Section WithDir.

Variable Dir : string -> string.

(** The body of the [for e := range w.watcher.Events] loop of
    [runEvents]; [cnt] is the [expvar] map [eventCount]. *)
Definition handleEvent (e : FsEvent) (cnt : gmap string Z) (w : LogWatcher)
  : Outcome (gmap string Z * LogWatcher) :=
  let cnt := Tailer.bump (fsName e) cnt in
  if has (fsOp e) fsCreate then
    Ret (cnt, sendEvent Dir (mkEvent Create (fsName e)) w)
  else if has (fsOp e) fsWrite || has (fsOp e) fsChmod then
    Ret (cnt, sendEvent Dir (mkEvent Update (fsName e)) w)
  else if has (fsOp e) fsRemove then
    Ret (cnt, sendEvent Dir (mkEvent Delete (fsName e)) w)
  else if has (fsOp e) fsRename then
    Ret (cnt, sendEvent Dir (mkEvent Delete (fsName e)) w)
  else Panic "unknown op type".

(** [runEvents] over the events the native watcher delivers before its
    channel is closed.  The goroutine it starts to log and count what
    comes on [w.watcher.Errors] touches neither the registry nor the
    channels and is left out. *)
Fixpoint runEvents (es : list FsEvent) (cnt : gmap string Z) (w : LogWatcher)
  : Outcome (gmap string Z * LogWatcher) :=
  match es with
  | [] => Ret (cnt, w)
  | e :: es' =>
      match handleEvent e cnt w with
      | Ret (cnt, w) => runEvents es' cnt w
      | Panic msg => Panic msg
      end
  end.

End WithDir.

(** One tick of [runTicks]: an [Update] for every watched path, sent on
    the path's channel.  Go leaves the order of a [range] over a map
    open; [order] is the order taken. *)
Definition tick (order : list (string * nat)) (w : LogWatcher) : LogWatcher :=
  foldl (fun w nc => send nc.2 (mkEvent Update nc.1) w) w order.

(** The kind [runEvents] gives to an operation, if any. *)
Definition kindOf (op : Z) : option EventKind :=
  if Z.testbit op 0 then Some Create
  else if Z.testbit op 1 || Z.testbit op 4 then Some Update
  else if Z.testbit op 2 || Z.testbit op 3 then Some Delete
  else None.

End WatcherLoops.

(** ** Concrete runs used by the examples below *)

Module Examples.

Import Watcher.

(** A watcher's environment: working directory [/var/log], [fsnotify]
    available, every native watch granted. *)
Definition absLog : string -> option string := absIn "/var/log".
Definition noErr : option error := None.
Definition grant : string -> option error := fun _ => None.

(** Poll only: [NewLogWatcher(10ms, false)] and one subscription. *)
Definition pollOnly : LogWatcher :=
  match Events (NewLogWatcher noErr (10 * Millisecond) false) with
  | Some (_, _, w) => w
  | None => NewLogWatcher noErr (10 * Millisecond) false
  end.

(** Native backend on, no subscription yet. *)
Definition native0 : LogWatcher := NewLogWatcher noErr 0 true.

(** Native backend on, two subscriptions (handles 0 and 1). *)
Definition native2 : LogWatcher :=
  match Events native0 with
  | Some (_, _, w) => match Events w with Some (_, _, w) => w | None => w end
  | None => native0
  end.

(** ... and [app.log] registered under handle 0, by its relative name. *)
Definition watchingApp : LogWatcher :=
  (Add absLog grant "app.log" 0 native2).2.

(** ... and the directory [/var/log] registered under handle 1. *)
Definition watchingDir : LogWatcher :=
  (Add absLog grant "/var/log" 1 watchingApp).2.

(** *** Files *)

Import Tailer MemOS.

Definition bytes (s : string) : list byte := list_byte_of_string s.

Definition regularNode (ino : Z) (data : list byte) : Node := mkNode 1 ino 420 data.
Definition pipeNode (ino : Z) : Node := mkNode 1 ino (Z.lor ModeNamedPipe 420) [].
Definition dirNode (ino : Z) : Node := mkNode 1 ino (Z.lor ModeDir 493) [].

(** [/tmp/a.log] holds one old line; [/tmp/fifo] is a named pipe; [/tmp]
    is a directory.  Nothing is open. *)
Definition disk : OS :=
  mkOS "/tmp"
       [regularNode 100 (bytes "old" ++ [Byte.x0a]); pipeNode 101; dirNode 102]
       {[ "/tmp/a.log" := 0%nat; "/tmp/fifo" := 1%nat; "/tmp" := 2%nat ]}
       [] None [] 0.

(** A tailed file whose descriptor has been invalidated (descriptor 5 is
    not open), while the path still names the regular file. *)
Definition stale : File :=
  mkFile "a.log" "/tmp/a.log" 0 true 5%nat [] false 7%nat false.

(** [a.log] opened for tailing, at its end (offset 4). *)
Definition opened : File * Env OS :=
  match NewFile "a.log" 7%nat false (env0 disk) with
  | (inl f, e) => (f, e)
  | (inr _, e) => (stale, e)
  end.

Definition holding (p : list byte) : File := set_partial p opened.1.

(** The same disk where [/tmp/new.log] appears after three milliseconds. *)
Definition diskArriving : OS :=
  mkOS (cwd disk) (nodes disk) (names disk) (descs disk) None
       [(3 * Millisecond, "/tmp/new.log", 0%nat)] 0.

(** [/tmp/fifo] opened for tailing. *)
Definition openedPipe : File * Env OS :=
  match NewFile "fifo" 7%nat false (env0 disk) with
  | (inl f, e) => (f, e)
  | (inr _, e) => (stale, e)
  end.

(** [a.log] opened at its end, and then [bs] appended by its writer. *)
Definition appended (bs : list byte) : Env OS :=
  set_world (append 0 bs (world opened.2)) opened.2.

(** ... and then the name [/tmp/a.log] given to a new file holding [new],
    as a log rotation does. *)
Definition rotated (bs new : list byte) : Env OS :=
  set_world (replace "/tmp/a.log" (regularNode 200 new) (world (appended bs)))
            (appended bs).

(** A kernel that has no watch left to give. *)
Definition refuse : string -> option error :=
  fun _ => Some (ErrOther "no space left on device").

End Examples.

(** * Theorems about the watcher *)

Module WatcherSpec.

Import Watcher Examples.

Section Facts.

Variable Abs : string -> option string.
Variable Dir : string -> string.
Variable inotifyAdd : string -> option error.

Lemma RUnlock_RLock (w : LogWatcher) : RUnlock (RLock w) = w.
Proof. destruct w; reflexivity. Qed.

Lemma IsWatching_lookup (path : string) (w : LogWatcher) :
  IsWatching Abs path w = true <->
  exists absPath c, Abs path = Some absPath /\ watched w !! absPath = Some c.
Proof.
  unfold IsWatching. split.
  - destruct (Abs path) as [q|]; [|discriminate].
    destruct (watched w !! q) as [c|] eqn:E; [|discriminate].
    intros _. exists q, c. auto.
  - intros (q & c & -> & ->). reflexivity.
Qed.

(** What a send does to the channel store. *)
Lemma send_chans (c : chan) (e : Event) (w : LogWatcher) (q : list Event) :
  chans w !! c = Some q ->
  chans (send c e w) !! c = Some (q ++ [e]) /\
  (forall c', c' <> c -> chans (send c e w) !! c' = chans w !! c') /\
  watched (send c e w) = watched w /\ events (send c e w) = events w.
Proof.
  intros H. unfold send, set_chans. cbn [chans watched events].
  split; [|split; [|split; reflexivity]].
  - rewrite list_lookup_alter_eq, H. reflexivity.
  - intros c' Hne. apply list_lookup_alter_ne. congruence.
Qed.

(** An out-of-range handle above the length is refused with an error, and
    neither the subscriber list nor the path map changes; the read lock
    taken for the check stays held. *)
Lemma Add_handle_too_large (path : string) (handle : Z) (w : LogWatcher) :
  Z.of_nat (length (events w)) < handle ->
  Add Abs inotifyAdd path handle w
  = (Ret (Some (Errorf "no such event handle")), RLock w).
Proof.
  intros H. unfold Add.
  replace (events (RLock w)) with (events w) by (destruct w; reflexivity).
  destruct (Z.ltb_spec (Z.of_nat (length (events w))) handle); [reflexivity | lia].
Qed.

(** The handle check passes for every handle up to and including the
    length. *)
Lemma Add_check_passes (path : string) (handle : Z) (w : LogWatcher) :
  handle <= Z.of_nat (length (events w)) ->
  Add Abs inotifyAdd path handle w =
  if IsWatching Abs path w then (Ret None, w) else
  match Abs path with
  | None => (Ret (Some (Wrapf (ErrOther "getwd") "Failed to lookup absolutepath")), w)
  | Some absPath =>
      let store (w : LogWatcher) :=
        match index (events w) handle with
        | None => (Panic "index out of range", RLock w)
        | Some c => (Ret None, set_watched (<[absPath := c]> (watched w)) w)
        end in
      if bool_decide (absPath = "/dev") then store w
      else
        match watcher w with
        | None => (Panic "invalid memory address or nil pointer dereference", w)
        | Some n =>
            match inotifyAdd absPath with
            | Some err =>
                if IsPermission err then store w
                else (Ret (Some (Wrapf err "Failed to create a new watch")), w)
            | None => store (set_watcher (Some (mkNative (absPath :: watches n))) w)
            end
        end
  end.
Proof.
  intros H. unfold Add.
  replace (events (RLock w)) with (events w) by (destruct w; reflexivity).
  destruct (Z.ltb_spec (Z.of_nat (length (events w))) handle); [lia|].
  rewrite RUnlock_RLock.
  destruct (IsWatching Abs path w); [reflexivity|].
  destruct (Abs path) as [absPath|]; [|reflexivity].
  assert (St : forall w0 : LogWatcher,
    (let w1 := RLock w0 in
     match index (events w1) handle with
     | None => (Panic "index out of range", w1)
     | Some c => (Ret None, RUnlock (set_watched (<[absPath := c]> (watched w1)) w1))
     end) =
    match index (events w0) handle with
    | None => (@Panic (option error) "index out of range", RLock w0)
    | Some c => (Ret None, set_watched (<[absPath := c]> (watched w0)) w0)
    end).
  { intros [n p mu ev wa ch]. cbn. destruct (index ev handle); reflexivity. }
  cbv zeta. rewrite !St.
  destruct (bool_decide (absPath = "/dev")); [reflexivity|].
  destruct (watcher w) as [n|] eqn:Hw; [|reflexivity].
  unfold nativeAdd. destruct (inotifyAdd absPath) as [err|].
  - destruct (IsPermission err); [|rewrite <- Hw; destruct w; reflexivity].
    rewrite St. rewrite <- Hw.
    replace (set_watcher (watcher w) w) with w by (destruct w; reflexivity).
    reflexivity.
  - rewrite St. reflexivity.
Qed.

(** C4.  With the native backend inactive ([watcher] is nil), [Add] of a
    fresh resolvable path under a valid handle does not return: it calls
    [w.watcher.Add] on the nil watcher and panics, recording nothing.  Only
    the path [/dev], which skips the native watch, escapes. *)
Theorem C4_Add_without_native_backend_panics
    (path absPath : string) (handle : Z) (w : LogWatcher) :
  watcher w = None ->
  0 <= handle < Z.of_nat (length (events w)) ->
  Abs path = Some absPath ->
  watched w !! absPath = None ->
  absPath <> "/dev" ->
  Add Abs inotifyAdd path handle w
  = (Panic "invalid memory address or nil pointer dereference", w).
Proof.
  intros Hnil Hh Habs Hfresh Hdev.
  rewrite Add_check_passes by lia.
  unfold IsWatching. rewrite Habs, Hfresh.
  rewrite bool_decide_eq_false_2 by assumption.
  rewrite Hnil. reflexivity.
Qed.

(** C5.  [Remove] deletes the key it is given, [Add] stores the resolved
    path: when the two differ (a relative name, or any name [filepath.Abs]
    rewrites), the registration survives [Remove] and [IsWatching] still
    answers true. *)
Theorem C5_Remove_unresolved_name_keeps_watching
    (path absPath : string) (c : chan) (w : LogWatcher) :
  Abs path = Some absPath ->
  absPath <> path ->
  watched w !! absPath = Some c ->
  IsWatching Abs path (Remove path w).2 = true.
Proof.
  intros Habs Hne Hreg.
  apply IsWatching_lookup. exists absPath, c. split; [assumption|].
  unfold Remove.
  assert (Hw : forall w0 : LogWatcher,
            watched (set_watched (delete path (watched w)) w0)
            = delete path (watched w)) by (intros []; reflexivity).
  destruct (watcher (set_watched (delete path (watched w)) w)) as [n|].
  - destruct (nativeRemove path n) as [err n']. cbn [snd].
    replace (watched (set_watcher (Some n') (set_watched (delete path (watched w)) w)))
      with (delete path (watched w)) by (destruct w; reflexivity).
    rewrite lookup_delete_ne by congruence. assumption.
  - cbn [snd]. rewrite Hw. rewrite lookup_delete_ne by congruence. assumption.
Qed.

(** The round trip does hold when [Remove] is given the resolved path
    itself. *)
Lemma Remove_resolved_name (path : string) (w : LogWatcher) :
  Abs path = Some path ->
  IsWatching Abs path (Remove path w).2 = false.
Proof.
  intros Habs. unfold IsWatching. rewrite Habs.
  assert (H : watched (Remove path w).2 !! path = None).
  { unfold Remove.
    destruct (watcher (set_watched (delete path (watched w)) w)) as [n|] eqn:E.
    - destruct (nativeRemove path n) as [err n']. cbn [snd].
      replace (watched (set_watcher (Some n') (set_watched (delete path (watched w)) w)))
        with (delete path (watched w)) by (destruct w; reflexivity).
      apply lookup_delete_eq.
    - cbn [snd].
      replace (watched (set_watched (delete path (watched w)) w))
        with (delete path (watched w)) by (destruct w; reflexivity).
      apply lookup_delete_eq. }
  rewrite H. reflexivity.
Qed.

(** C6.  An event goes to the channel registered for its exact path when
    there is one; failing that, to the channel registered for the path's
    directory; failing both it is dropped, the watcher unchanged.  A
    delivery appends the event to the chosen channel and touches neither the
    other channels nor the registry. *)
Theorem C6_sendEvent_exact_then_directory_then_drop (e : Event) (w : LogWatcher) :
  (forall c, watched w !! Pathname e = Some c ->
     sendEvent Dir e w = send c e w) /\
  (forall c, watched w !! Pathname e = None ->
     watched w !! Dir (Pathname e) = Some c ->
     sendEvent Dir e w = send c e w) /\
  (watched w !! Pathname e = None ->
     watched w !! Dir (Pathname e) = None ->
     sendEvent Dir e w = w) /\
  (forall c q, chans w !! c = Some q ->
     chans (send c e w) !! c = Some (q ++ [e]) /\
     (forall c', c' <> c -> chans (send c e w) !! c' = chans w !! c') /\
     watched (send c e w) = watched w).
Proof.
  unfold sendEvent. repeat split.
  - intros c ->. reflexivity.
  - intros c -> ->. reflexivity.
  - intros -> ->. reflexivity.
  - apply (send_chans c e w q H).
  - apply (send_chans c e w q H).
Qed.

(** C7.  A second [Add] of a registered path under another valid handle
    returns nil and changes nothing: the registry still maps the path to
    the channel of the first handle, and events for the path are still
    delivered there. *)
Theorem C7_Add_registered_path_is_noop
    (path absPath : string) (handle : Z) (c : chan) (k : EventKind) (w : LogWatcher) :
  0 <= handle < Z.of_nat (length (events w)) ->
  Abs path = Some absPath ->
  watched w !! absPath = Some c ->
  Add Abs inotifyAdd path handle w = (Ret None, w) /\
  watched (Add Abs inotifyAdd path handle w).2 !! absPath = Some c /\
  sendEvent Dir (mkEvent k absPath) (Add Abs inotifyAdd path handle w).2
  = send c (mkEvent k absPath) w.
Proof.
  intros Hh Habs Hreg.
  assert (E : Add Abs inotifyAdd path handle w = (Ret None, w)).
  { rewrite Add_check_passes by lia.
    unfold IsWatching. rewrite Habs, Hreg. reflexivity. }
  rewrite E. cbn [snd]. repeat split; [assumption|].
  unfold sendEvent. cbn [Pathname]. rewrite Hreg. reflexivity.
Qed.

(** C10.  The handle check is [handle > len(w.events)]: the handle equal
    to the number of subscriptions, and every negative handle, pass it.
    For a fresh path whose native watch is installed (or skipped, for
    [/dev]), [Add] then indexes [w.events] out of range and panics instead
    of returning an error. *)
Theorem C10_Add_unissued_handle_panics
    (path absPath : string) (handle : Z) (w : LogWatcher) :
  handle < 0 \/ handle = Z.of_nat (length (events w)) ->
  Abs path = Some absPath ->
  watched w !! absPath = None ->
  absPath = "/dev" \/
    (exists n, watcher w = Some n /\ inotifyAdd absPath = None) ->
  (Add Abs inotifyAdd path handle w).1 = Panic "index out of range".
Proof.
  intros Hh Habs Hfresh Hnat.
  rewrite Add_check_passes by lia.
  unfold IsWatching. rewrite Habs, Hfresh.
  assert (Hidx : forall w0 : LogWatcher, events w0 = events w ->
            index (events w0) handle = None).
  { intros w0 ->. unfold index.
    destruct (Z.ltb_spec handle 0); [reflexivity|].
    apply lookup_ge_None_2. lia. }
  cbv zeta.
  destruct Hnat as [-> | (n & Hn & Hok)].
  - rewrite bool_decide_eq_true_2 by reflexivity.
    rewrite Hidx by reflexivity. reflexivity.
  - destruct (bool_decide (absPath = "/dev")).
    + rewrite Hidx by reflexivity. reflexivity.
    + rewrite Hn, Hok. rewrite Hidx by (destruct w; reflexivity). reflexivity.
Qed.

End Facts.

(** The watcher built by [NewLogWatcher(10ms, false)] with one
    subscription panics on [Add("/tmp/a.log", 0)]. *)
Lemma C4_witness :
  (watcher pollOnly = None /\
   0 <= 0 < Z.of_nat (length (events pollOnly)) /\
   absLog "/tmp/a.log" = Some "/tmp/a.log" /\
   watched pollOnly !! "/tmp/a.log" = None /\
   "/tmp/a.log" <> "/dev") /\
  Add absLog grant "/tmp/a.log" 0 pollOnly
  = (Panic "invalid memory address or nil pointer dereference", pollOnly).
Proof.
  assert (H : watcher pollOnly = None /\
   0 <= 0 < Z.of_nat (length (events pollOnly)) /\
   absLog "/tmp/a.log" = Some "/tmp/a.log" /\
   watched pollOnly !! "/tmp/a.log" = None /\
   "/tmp/a.log" <> "/dev").
  { repeat split; try reflexivity; try (vm_compute; congruence); discriminate. }
  split; [exact H|].
  destruct H as (H1 & H2 & H3 & H4 & H5).
  exact (C4_Add_without_native_backend_panics absLog grant
           "/tmp/a.log" "/tmp/a.log" 0 pollOnly H1 H2 H3 H4 H5).
Defined.

(** [app.log], added from the working directory [/var/log], is still
    watched after [Remove("app.log")]. *)
Lemma C5_witness :
  (absLog "app.log" = Some "/var/log/app.log" /\
   "/var/log/app.log" <> "app.log" /\
   watched watchingApp !! "/var/log/app.log" = Some 0%nat) /\
  IsWatching absLog "app.log" (Remove "app.log" watchingApp).2 = true.
Proof.
  assert (H : absLog "app.log" = Some "/var/log/app.log" /\
              "/var/log/app.log" <> "app.log" /\
              watched watchingApp !! "/var/log/app.log" = Some 0%nat).
  { split; [reflexivity|]. split; [discriminate|]. vm_compute. reflexivity. }
  split; [exact H|].
  destruct H as (H1 & H2 & H3).
  exact (C5_Remove_unresolved_name_keeps_watching absLog
           "app.log" "/var/log/app.log" 0%nat watchingApp H1 H2 H3).
Defined.

(** With [/var/log/app.log] on channel 0 and the directory [/var/log] on
    channel 1: an update of the file goes to channel 0, a new file in the
    directory goes to channel 1, an event elsewhere is dropped. *)
Lemma C6_witness :
  sendEvent dirOf (mkEvent Update "/var/log/app.log") watchingDir
  = send 0%nat (mkEvent Update "/var/log/app.log") watchingDir /\
  sendEvent dirOf (mkEvent Create "/var/log/new.log") watchingDir
  = send 1%nat (mkEvent Create "/var/log/new.log") watchingDir /\
  sendEvent dirOf (mkEvent Update "/tmp/x") watchingDir = watchingDir /\
  chans (send 1%nat (mkEvent Create "/var/log/new.log") watchingDir) !! 1%nat
  = Some [mkEvent Create "/var/log/new.log"].
Proof.
  split; [|split; [|split]].
  - destruct (C6_sendEvent_exact_then_directory_then_drop dirOf
                (mkEvent Update "/var/log/app.log") watchingDir) as (A & _).
    apply A. vm_compute. reflexivity.
  - destruct (C6_sendEvent_exact_then_directory_then_drop dirOf
                (mkEvent Create "/var/log/new.log") watchingDir) as (_ & B & _).
    apply B; vm_compute; reflexivity.
  - destruct (C6_sendEvent_exact_then_directory_then_drop dirOf
                (mkEvent Update "/tmp/x") watchingDir) as (_ & _ & C & _).
    apply C; vm_compute; reflexivity.
  - destruct (C6_sendEvent_exact_then_directory_then_drop dirOf
                (mkEvent Create "/var/log/new.log") watchingDir) as (_ & _ & _ & D).
    apply (D 1%nat []). vm_compute. reflexivity.
Defined.

(** [app.log] was added under handle 0; adding it again under handle 1
    changes nothing and events still reach channel 0. *)
Lemma C7_witness :
  (0 <= 1 < Z.of_nat (length (events watchingApp)) /\
   absLog "app.log" = Some "/var/log/app.log" /\
   watched watchingApp !! "/var/log/app.log" = Some 0%nat) /\
  Add absLog grant "app.log" 1 watchingApp = (Ret None, watchingApp) /\
  watched (Add absLog grant "app.log" 1 watchingApp).2 !! "/var/log/app.log"
  = Some 0%nat /\
  sendEvent dirOf (mkEvent Update "/var/log/app.log")
    (Add absLog grant "app.log" 1 watchingApp).2
  = send 0%nat (mkEvent Update "/var/log/app.log") watchingApp.
Proof.
  assert (H : 0 <= 1 < Z.of_nat (length (events watchingApp)) /\
              absLog "app.log" = Some "/var/log/app.log" /\
              watched watchingApp !! "/var/log/app.log" = Some 0%nat).
  { split; [vm_compute; split; congruence|].
    split; [reflexivity|]. vm_compute. reflexivity. }
  split; [exact H|].
  destruct H as (H1 & H2 & H3).
  exact (C7_Add_registered_path_is_noop absLog dirOf grant
           "app.log" "/var/log/app.log" 1 0%nat Update watchingApp H1 H2 H3).
Defined.

(** No subscription has been made, the native backend is live:
    [Add("/tmp/a.log", 0)] installs the watch and then panics. *)
Lemma C10_witness :
  ((0 < 0 \/ 0 = Z.of_nat (length (events native0))) /\
   absLog "/tmp/a.log" = Some "/tmp/a.log" /\
   watched native0 !! "/tmp/a.log" = None /\
   ("/tmp/a.log" = "/dev" \/
    exists n, watcher native0 = Some n /\ grant "/tmp/a.log" = None)) /\
  (Add absLog grant "/tmp/a.log" 0 native0).1 = Panic "index out of range".
Proof.
  assert (H : (0 < 0 \/ 0 = Z.of_nat (length (events native0))) /\
              absLog "/tmp/a.log" = Some "/tmp/a.log" /\
              watched native0 !! "/tmp/a.log" = None /\
              ("/tmp/a.log" = "/dev" \/
               exists n, watcher native0 = Some n /\ grant "/tmp/a.log" = None)).
  { split; [right; reflexivity|]. split; [reflexivity|].
    split; [vm_compute; reflexivity|].
    right. exists (mkNative []). split; reflexivity. }
  split; [exact H|].
  destruct H as (H1 & H2 & H3 & H4).
  exact (C10_Add_unissued_handle_panics absLog grant
           "/tmp/a.log" "/tmp/a.log" 0 native0 H1 H2 H3 H4).
Defined.

End WatcherSpec.

(** * Theorems about the tailer *)

Module TailerSpec.

Import Tailer MemOS Examples.

Section Generic.

Context {W : Type} {S : Sys W}.



(** [open] only opens and sleeps: it never seeks. *)
Lemma attemptsTrace_no_seek (path : string) (rs : list (fd + error)) (delay : Z) :
  Forall (fun ev => match ev with EvSeek _ _ _ _ => False | _ => True end)
         (attemptsTrace path rs delay).
Proof.
  revert delay. induction rs as [|r rs IH]; intros delay; cbn; [constructor|].
  destruct rs as [|r' rs'].
  - repeat constructor.
  - constructor; [exact I|]. constructor; [exact I|]. apply IH.
Qed.


(** *** What a read pass leaves alone *)

(** The file keeps its names and the rotation counter its value. *)
Definition keeps (f : File) (e : Env W) (f' : File) (e' : Env W) : Prop :=
  Name f' = Name f /\ Pathname f' = Pathname f /\
  logRotations e' = logRotations e.

Lemma keeps_refl f e : keeps f e f e.
Proof. repeat split. Qed.

Lemma keeps_trans f e f1 e1 f2 e2 :
  keeps f e f1 e1 -> keeps f1 e1 f2 e2 -> keeps f e f2 e2.
Proof.
  intros (A & B & C) (A' & B' & C'). repeat split; congruence.
Qed.

Lemma sendLine_keeps f e : keeps f e (sendLine f e).1 (sendLine f e).2.
Proof. repeat split. Qed.

Lemma file_Seek_logRotations d off wh (e : Env W) :
  logRotations (file_Seek d off wh e).2 = logRotations e.
Proof. unfold file_Seek. destruct (sys_seek d off wh (world e)). reflexivity. Qed.

Lemma file_Stat_logRotations d (e : Env W) :
  logRotations (file_Stat d e).2 = logRotations e.
Proof. unfold file_Stat. destruct (sys_fstat d (world e)). reflexivity. Qed.

Lemma decodeRunes_keeps fuel b f e :
  keeps f e (decodeRunes fuel b f e).1 (decodeRunes fuel b f e).2.
Proof.
  revert b f e. induction fuel as [|k IH]; intros b f e; [apply keeps_refl|].
  cbn [decodeRunes]. destruct b as [|c b']; [apply keeps_refl|].
  destruct (utf8.DecodeRune (c :: b')) as [rune width].
  destruct (negb (rune =? 10)).
  - eapply keeps_trans; [|apply IH].
    unfold waitForLock. destruct (partialLock f); repeat split.
  - eapply keeps_trans; [|apply IH]. apply sendLine_keeps.
Qed.

Lemma checkForTruncate_keeps f e :
  keeps f e (checkForTruncate f e).1.2 (checkForTruncate f e).2.
Proof.
  unfold checkForTruncate, keeps.
  pose proof (file_Seek_logRotations (file f) 0 SeekCurrent e) as H1.
  destruct (file_Seek (file f) 0 SeekCurrent e) as [[off|err] e1];
    cbn [fst snd] in *; [|repeat split; congruence].
  pose proof (file_Stat_logRotations (file f) e1) as H2.
  destruct (file_Stat (file f) e1) as [[fi|err] e2]; cbn [fst snd] in *;
    [|repeat split; congruence].
  destruct ((off =? 0) || (off <=? st_size fi));
    cbn [fst snd]; [repeat split; congruence|].
  destruct (0 <? Z.of_nat (length (partial f))).
  - pose proof (file_Seek_logRotations (file (sendLine f e2).1) 0 SeekStart
                  (sendLine f e2).2) as H3.
    cbn [sendLine fst snd] in *.
    match goal with |- context [file_Seek ?d 0 SeekStart ?e0] =>
      destruct (file_Seek d 0 SeekStart e0) as [r e3] end.
    cbn [fst snd] in *. repeat split. cbn in *. congruence.
  - pose proof (file_Seek_logRotations (file f) 0 SeekStart e2) as H3.
    destruct (file_Seek (file f) 0 SeekStart e2) as [r e3].
    cbn [fst snd] in *. repeat split. cbn in *. congruence.
Qed.

(** One turn of the outer loop of [Read], spelled out. *)
Definition afterRead (total : Z) (f : File) (e : Env W)
  : list byte * option error * File * Env W :=
  let w0 := (sys_deadline (file f) (time_Now e + 5 * Second) (world e)).2 in
  let rd := sys_read (file f) 4096 w0 in
  (rd.1.1, rd.1.2, set_lock true f,
   emit (EvRead (file f) rd.1.1 rd.1.2) (set_world rd.2 e)).

Definition afterCheck (total : Z) (b : list byte) (rerr : option error)
    (f0 : File) (e0 : Env W) : bool * option error * File * Env W :=
  match rerr with
  | Some EOF =>
      if (total + Z.of_nat (length b) =? 0) && regular f0
      then checkForTruncate f0 e0 else ((false, None), f0, e0)
  | _ => ((false, None), f0, e0)
  end.

Lemma ReadLoop_step (k : nat) (total : Z) (f : File) (e : Env W) :
  ReadLoop (Datatypes.S k) total f e =
  let '(b, rerr, f0, e0) := afterRead total f e in
  let total' := total + Z.of_nat (length b) in
  let '((truncated, _), f1, e1) := afterCheck total b rerr f0 e0 in
  if truncated then ReadLoop k total' f1 e1
  else
    let f2 := set_lock false (decodeRunes (length b) b f1 e1).1 in
    let e2 := (decodeRunes (length b) b f1 e1).2 in
    match rerr with
    | Some er =>
        Some (er, if 0 <? total' then set_LastRead (time_Now e2) f2 else f2, e2)
    | None => ReadLoop k total' f2 e2
    end.
Proof.
  cbn [ReadLoop]. unfold afterRead, afterCheck, file_SetReadDeadline, file_Read.
  cbn [file set_lock].
  destruct (sys_deadline (file f) (time_Now e + 5 * Second) (world e)) as [r0 w0].
  cbn [world set_world snd].
  destruct (sys_read (file f) 4096 w0) as [[b rerr] w1]. cbn [fst snd].
  destruct rerr as [er|]; [destruct er|];
    try (destruct (decodeRunes (length b) b _ _); reflexivity).
  destruct ((total + Z.of_nat (length b) =? 0) && regular (set_lock true f));
    [|destruct (decodeRunes (length b) b _ _); reflexivity].
  destruct (checkForTruncate _ _) as [[[truncated terr] f1] e1].
  destruct truncated; [reflexivity|].
  destruct (decodeRunes (length b) b _ _); reflexivity.
Qed.

Lemma afterRead_keeps total f e :
  keeps f e (afterRead total f e).1.2 (afterRead total f e).2.
Proof. repeat split. Qed.

Lemma afterCheck_keeps total b rerr f0 e0 :
  keeps f0 e0 (afterCheck total b rerr f0 e0).1.2 (afterCheck total b rerr f0 e0).2.
Proof.
  unfold afterCheck. destruct rerr as [[]|]; try apply keeps_refl.
  destruct ((total + Z.of_nat (length b) =? 0) && regular f0);
    [apply checkForTruncate_keeps | apply keeps_refl].
Qed.

Lemma ReadLoop_keeps fuel total f e err f' e' :
  ReadLoop fuel total f e = Some (err, f', e') -> keeps f e f' e'.
Proof.
  revert total f e. induction fuel as [|k IH]; intros total f e H; [discriminate|].
  rewrite ReadLoop_step in H.
  pose proof (afterRead_keeps total f e) as K0.
  destruct (afterRead total f e) as [[[b rerr] f0] e0]. cbn [fst snd] in K0.
  pose proof (afterCheck_keeps total b rerr f0 e0) as K1.
  destruct (afterCheck total b rerr f0 e0) as [[[truncated terr] f1] e1].
  cbn [fst snd] in K1.
  destruct truncated.
  - apply IH in H. eapply keeps_trans; [|exact H].
    eapply keeps_trans; eassumption.
  - pose proof (decodeRunes_keeps (length b) b f1 e1) as K2.
    cbv zeta in H.
    assert (K3 : keeps f e (set_lock false (decodeRunes (length b) b f1 e1).1)
                       (decodeRunes (length b) b f1 e1).2).
    { eapply keeps_trans; [exact K0|]. eapply keeps_trans; [exact K1|].
      destruct K2 as (A & B & C). repeat split; assumption. }
    destruct rerr as [er|].
    + injection H as <- <- <-.
      destruct (0 <? total + Z.of_nat (length b)); [|exact K3].
      destruct K3 as (A & B & C). repeat split; assumption.
    + apply IH in H. eapply keeps_trans; eassumption.
Qed.

Lemma openRetry_logRotations n delay path sb (e : Env W) :
  logRotations (openRetry n delay path sb e).2 = logRotations e.
Proof.
  revert delay e. induction n as [|n IH]; intros delay e;
    cbn [openRetry]; unfold os_OpenFile;
    destruct (sys_open path (world e)) as [[d|err] w]; try reflexivity.
  - destruct sb; reflexivity.
  - destruct sb; [|reflexivity]. cbn [negb].
    change (0 <? Z.of_nat (Datatypes.S n)) with true. cbv iota.
    rewrite IH. reflexivity.
Qed.

(** A rotation counts itself once and swaps at most the descriptor. *)
Lemma doRotation_counts fuel f e r f' e' :
  doRotation fuel f e = Some (r, f', e') ->
  Name f' = Name f /\ Pathname f' = Pathname f /\
  logRotations e' = bump (Name f) (logRotations e).
Proof.
  unfold doRotation, Read. intros H.
  destruct (ReadLoop fuel 0 f e) as [[[er f1] e1]|] eqn:HR; [|discriminate].
  apply ReadLoop_keeps in HR. destruct HR as (A & B & C).
  pose proof (openRetry_logRotations 3 (1 * Millisecond) (Pathname f1) true
                (logRotations_Add (Name f1) e1)) as HO.
  unfold open in H.
  destruct (openRetry 3 (1 * Millisecond) (Pathname f1) true
              (logRotations_Add (Name f1) e1)) as [[d|err] e2];
    injection H as <- <- <-; cbn [snd] in HO; rewrite HO;
    cbn [logRotations logRotations_Add Name Pathname set_file];
    rewrite A, C; repeat split; assumption.
Qed.

Lemma bump_twice (k : string) (m : gmap string Z) :
  bump k (bump k m) !! k = Some (default 0 (m !! k) + 2).
Proof.
  unfold bump. rewrite lookup_insert_eq. rewrite lookup_insert_eq. cbn.
  f_equal. lia.
Qed.

(** C2.  When the stat of the open descriptor fails, [Follow] rotates,
    and, that rotation having reopened the path, goes on to stat the path
    and compare it with the nil result of the failed stat; nothing is the
    same file as nil, so it rotates a second time: whenever the path can
    be stat-ed, a [Follow] that returns has counted two rotations. *)
Theorem C2_Follow_failed_descriptor_stat_rotates_twice
    (fuel : nat) (f f1 f' : File) (e e2 e' : Env W)
    (err : error) (w1 w3 : W) (s2 : FileInfo) (r : option error) :
  sys_fstat (file f) (world e) = (inr err, w1) ->
  doRotation fuel f (emit (EvFstat (file f) false) (set_world w1 e))
  = Some (None, f1, e2) ->
  sys_stat (Pathname f) (world e2) = (inl s2, w3) ->
  Follow fuel f e = Some (r, f', e') ->
  logRotations e' !! Name f = Some (default 0 (logRotations e !! Name f) + 2).
Proof.
  intros Hs Hrot Hp HF. unfold Follow in HF.
  unfold file_Stat in HF. rewrite Hs in HF. cbn [isOk] in HF.
  rewrite Hrot in HF.
  apply doRotation_counts in Hrot. destruct Hrot as (A & B & C).
  cbn [logRotations emit set_world] in C.
  unfold os_Stat in HF. rewrite B, Hp in HF. cbn [isOk SameFile negb] in HF.
  set (e3 := emit (EvStat (Pathname f) true) (set_world w3 e2)) in *.
  destruct (doRotation fuel f1 e3) as [[[r2 f2] e4]|] eqn:Hrot2; [|discriminate].
  apply doRotation_counts in Hrot2. destruct Hrot2 as (A2 & B2 & C2).
  assert (C4 : logRotations e4 !! Name f = Some (default 0 (logRotations e !! Name f) + 2)).
  { rewrite C2. subst e3. cbn [logRotations emit set_world]. rewrite C, A.
    apply bump_twice. }
  destruct r2 as [er|].
  - injection HF as <- <- <-. exact C4.
  - destruct (negb (lock f2)).
    + unfold Read in HF.
      destruct (ReadLoop fuel 0 f2 e4) as [[[er f3] e5]|] eqn:HR; [|discriminate].
      injection HF as <- <- <-.
      apply ReadLoop_keeps in HR. destruct HR as (_ & _ & C5).
      rewrite C5. exact C4.
    + injection HF as <- <- <-. exact C4.
Qed.



(** The read loop restarts exactly when the check reports truncated. *)
Lemma ReadLoop_restart (k : nat) (f : File) (e : Env W) :
  (afterRead 0 f e).1.1.2 = Some EOF ->
  (afterRead 0 f e).1.1.1 = [] ->
  regular f = true ->
  ReadLoop (Datatypes.S k) 0 f e =
  let c := checkForTruncate (set_lock true f) (afterRead 0 f e).2 in
  if c.1.1.1 then ReadLoop k 0 c.1.2 c.2
  else Some (EOF, set_lock false c.1.2, c.2).
Proof.
  intros Hr Hb Hreg. rewrite ReadLoop_step.
  assert (Hf : (afterRead 0 f e).1.2 = set_lock true f) by reflexivity.
  destruct (afterRead 0 f e) as [[[b rerr] f0] e0]. cbn [fst snd] in *.
  subst b rerr f0. unfold afterCheck.
  cbn [length Z.of_nat Z.add Z.eqb regular set_lock andb]. rewrite Hreg.
  cbv zeta.
  destruct (checkForTruncate _ e0) as [[[truncated terr] f1] e1].
  cbn [fst snd]. destruct truncated; reflexivity.
Qed.

End Generic.

(** A path that does not exist, opened after a rotation: four attempts,
    sleeps of 1ms, 2ms and 4ms, and the last error returned; opened for
    the first time: one attempt.  When the file appears after 3ms, the
    third attempt finds it. *)
Example open_missing_seenBefore :
  (open "/tmp/none" true (env0 disk)).1 = inr ErrNotExist /\
  trace (open "/tmp/none" true (env0 disk)).2
  = [EvOpen "/tmp/none" (inr ErrNotExist); EvSleep 1000000;
     EvOpen "/tmp/none" (inr ErrNotExist); EvSleep 2000000;
     EvOpen "/tmp/none" (inr ErrNotExist); EvSleep 4000000;
     EvOpen "/tmp/none" (inr ErrNotExist)] /\
  logErrors (open "/tmp/none" true (env0 disk)).2 !! "/tmp/none" = Some 4.
Proof. vm_compute. repeat split. Qed.

Example open_missing_first_time :
  (open "/tmp/none" false (env0 disk)).1 = inr ErrNotExist /\
  trace (open "/tmp/none" false (env0 disk)).2
  = [EvOpen "/tmp/none" (inr ErrNotExist)].
Proof. vm_compute. repeat split. Qed.

Example open_arriving :
  (open "/tmp/new.log" true (env0 diskArriving)).1 = inl 0%nat /\
  trace (open "/tmp/new.log" true (env0 diskArriving)).2
  = [EvOpen "/tmp/new.log" (inr ErrNotExist); EvSleep 1000000;
     EvOpen "/tmp/new.log" (inr ErrNotExist); EvSleep 2000000;
     EvOpen "/tmp/new.log" (inl 0%nat)].
Proof. vm_compute. repeat split. Qed.


(** The descriptor of [a.log] is invalid and the path names a file
    holding one line: [Follow] counts two rotations and sends that line
    twice, once from each of the two descriptors it opens. *)
Lemma C2_witness :
  exists r f' e',
    Follow 10 stale (env0 disk) = Some (r, f', e') /\
    logRotations e' !! "a.log" = Some 2 /\
    sentLines (trace e')
    = [mkLogLine "a.log" (bytes "old"); mkLogLine "a.log" (bytes "old")] /\
    trace e'
    = [EvFstat 5%nat false; EvRead 5%nat [] (Some ErrBadFd);
       EvOpen "/tmp/a.log" (inl 0%nat); EvStat "/tmp/a.log" true;
       EvRead 0%nat (bytes "old" ++ [Byte.x0a]) None;
       EvSend 7%nat (mkLogLine "a.log" (bytes "old"));
       EvRead 0%nat [] (Some EOF); EvOpen "/tmp/a.log" (inl 1%nat);
       EvRead 1%nat (bytes "old" ++ [Byte.x0a]) None;
       EvSend 7%nat (mkLogLine "a.log" (bytes "old"));
       EvRead 1%nat [] (Some EOF)].
Proof.
  destruct (Follow 10 stale (env0 disk)) as [[[r f'] e']|] eqn:HF;
    [|vm_compute in HF; discriminate].
  exists r, f', e'. split; [reflexivity|].
  split.
  - change (Some 2) with (Some (default 0 (logRotations (env0 disk) !! Name stale) + 2)).
    change "a.log" with (Name stale).
    eapply (C2_Follow_failed_descriptor_stat_rotates_twice 10 stale _ f'
              (env0 disk) _ e' ErrBadFd disk _ (infoOf (regularNode 100 (bytes "old" ++ [Byte.x0a]))) r).
    + reflexivity.
    + vm_compute. reflexivity.
    + vm_compute. reflexivity.
    + exact HF.
  - vm_compute in HF. injection HF as <- <- <-. split; reflexivity.
Defined.



End TailerSpec.

(** * UTF-8: what decoding and re-encoding keeps *)

Module utf8Spec.
Import utf8.
Lemma land_shiftl_low (hi lo k : Z) :
  0 <= k -> 0 <= lo < 2 ^ k -> Z.land (Z.shiftl hi k) lo = 0.
Proof.
  intros Hk Hlo. apply Z.bits_inj'. intros n Hn.
  rewrite Z.land_spec, Z.bits_0.
  destruct (Z.lt_ge_cases n k) as [H|H].
  - rewrite Z.shiftl_spec_low by assumption. reflexivity.
  - rewrite <- (Z.mod_small lo (2 ^ k)) by assumption.
    rewrite Z.mod_pow2_bits_high by lia. apply Bool.andb_false_r.
Qed.

Lemma lor_shiftl_add (hi lo k : Z) :
  0 <= k -> 0 <= lo < 2 ^ k -> Z.lor (Z.shiftl hi k) lo = hi * 2 ^ k + lo.
Proof.
  intros Hk Hlo.
  pose proof (Z.add_lor_land (Z.shiftl hi k) lo) as H.
  rewrite land_shiftl_low in H by assumption.
  rewrite <- (Z.shiftl_mul_pow2 hi k) by assumption. lia.
Qed.

Lemma land_mask (a k : Z) : 0 <= k -> Z.land a (Z.ones k) = a mod 2 ^ k.
Proof. intros. apply Z.land_ones. assumption. Qed.

Ltac arith :=
  repeat match goal with
  | |- context [Z.land ?a 63] => change (Z.land a 63) with (Z.land a (Z.ones 6)); rewrite (Z.land_ones a 6) by lia
  | |- context [Z.land ?a 31] => change (Z.land a 31) with (Z.land a (Z.ones 5)); rewrite (Z.land_ones a 5) by lia
  | |- context [Z.land ?a 15] => change (Z.land a 15) with (Z.land a (Z.ones 4)); rewrite (Z.land_ones a 4) by lia
  | |- context [Z.land ?a 7] => change (Z.land a 7) with (Z.land a (Z.ones 3)); rewrite (Z.land_ones a 3) by lia
  | |- context [Z.shiftr ?a ?k] => rewrite (Z.shiftr_div_pow2 a k) by lia
  end.

Lemma lor_C0 a : 0 <= a < 32 -> Z.lor 0xC0 a = 0xC0 + a.
Proof. intros. apply (lor_shiftl_add 6 a 5); [lia | change (2 ^ 5) with 32; lia]. Qed.
Lemma lor_80 a : 0 <= a < 64 -> Z.lor 0x80 a = 0x80 + a.
Proof. intros. apply (lor_shiftl_add 2 a 6); [lia | change (2 ^ 6) with 64; lia]. Qed.
Lemma lor_E0 a : 0 <= a < 16 -> Z.lor 0xE0 a = 0xE0 + a.
Proof. intros. apply (lor_shiftl_add 14 a 4); [lia | change (2 ^ 4) with 16; lia]. Qed.
Lemma lor_F0 a : 0 <= a < 8 -> Z.lor 0xF0 a = 0xF0 + a.
Proof. intros. apply (lor_shiftl_add 30 a 3); [lia | change (2 ^ 3) with 8; lia]. Qed.

Ltac dm := Z.to_euclidean_division_equations; lia.

Lemma two_bytes (p0 b1 : Z) :
  0xC2 <= p0 <= 0xDF -> 0x80 <= b1 <= 0xBF ->
  let r := Z.lor (Z.shiftl (Z.land p0 0x1F) 6) (Z.land b1 0x3F) in
  0x80 <= r <= 0x7FF /\
  Z.lor 0xC0 ((Z.shiftr r 6) mod 256) = p0 /\
  Z.lor 0x80 (Z.land (r mod 256) 0x3F) = b1.
Proof.
  intros H0 H1 r.
  assert (Er : r = (p0 mod 32) * 64 + b1 mod 64).
  { subst r. arith. rewrite lor_shiftl_add; [reflexivity | lia |].
    change (2 ^ 6) with 64. dm. }
  clearbody r. subst r. arith. change (2 ^ 6) with 64.
  rewrite lor_C0 by dm. rewrite lor_80 by dm.
  repeat split; dm.
Qed.

Lemma three_bytes (p0 b1 b2 : Z) :
  0xE0 <= p0 <= 0xEF ->
  (if p0 =? 0xE0 then 0xA0 else 0x80) <= b1 <= (if p0 =? 0xED then 0x9F else 0xBF) ->
  0x80 <= b2 <= 0xBF ->
  let r := Z.lor (Z.lor (Z.shiftl (Z.land p0 0x0F) 12) (Z.shiftl (Z.land b1 0x3F) 6))
                 (Z.land b2 0x3F) in
  0x800 <= r <= 0xFFFF /\ ~ (0xD800 <= r <= 0xDFFF) /\
  Z.lor 0xE0 ((Z.shiftr r 12) mod 256) = p0 /\
  Z.lor 0x80 (Z.land ((Z.shiftr r 6) mod 256) 0x3F) = b1 /\
  Z.lor 0x80 (Z.land (r mod 256) 0x3F) = b2.
Proof.
  intros H0 H1 H2 r.
  assert (Er : r = (p0 mod 16) * 4096 + (b1 mod 64) * 64 + b2 mod 64).
  { subst r. arith.
    rewrite (Z.shiftl_mul_pow2 (b1 mod 2 ^ 6) 6) by lia.
    replace ((b1 mod 2 ^ 6) * 2 ^ 6) with (Z.shiftl ((b1 mod 2 ^ 6) * 2 ^ 6) 0) by apply Z.shiftl_0_r.
    rewrite Z.shiftl_0_r.
    rewrite (lor_shiftl_add (p0 mod 2 ^ 4) ((b1 mod 2 ^ 6) * 2 ^ 6) 12); [| lia | change (2^6) with 64; change (2^12) with 4096; dm].
    replace ((p0 mod 2 ^ 4) * 2 ^ 12 + (b1 mod 2 ^ 6) * 2 ^ 6)
      with (Z.shiftl ((p0 mod 2 ^ 4) * 2 ^ 6 + b1 mod 2 ^ 6) 6)
      by (rewrite Z.shiftl_mul_pow2 by lia; change (2^6) with 64; change (2^12) with 4096; lia).
    rewrite lor_shiftl_add; [| lia | change (2^6) with 64; dm].
    change (2^6) with 64; change (2^4) with 16. lia. }
  clearbody r. subst r. arith. change (2 ^ 6) with 64. change (2 ^ 12) with 4096.
  destruct (Z.eqb_spec p0 0xE0), (Z.eqb_spec p0 0xED);
  rewrite lor_E0 by dm; rewrite !lor_80 by dm;
  repeat split; dm.
Qed.

Lemma four_bytes (p0 b1 b2 b3 : Z) :
  0xF0 <= p0 <= 0xF4 ->
  (if p0 =? 0xF0 then 0x90 else 0x80) <= b1 <= (if p0 =? 0xF4 then 0x8F else 0xBF) ->
  0x80 <= b2 <= 0xBF -> 0x80 <= b3 <= 0xBF ->
  let r := Z.lor (Z.lor (Z.lor (Z.shiftl (Z.land p0 0x07) 18)
                               (Z.shiftl (Z.land b1 0x3F) 12))
                        (Z.shiftl (Z.land b2 0x3F) 6))
                 (Z.land b3 0x3F) in
  0x10000 <= r <= 0x10FFFF /\
  Z.lor 0xF0 ((Z.shiftr r 18) mod 256) = p0 /\
  Z.lor 0x80 (Z.land ((Z.shiftr r 12) mod 256) 0x3F) = b1 /\
  Z.lor 0x80 (Z.land ((Z.shiftr r 6) mod 256) 0x3F) = b2 /\
  Z.lor 0x80 (Z.land (r mod 256) 0x3F) = b3.
Proof.
  intros H0 H1 H2 H3 r.
  assert (Er : r = (p0 mod 8) * 262144 + (b1 mod 64) * 4096 + (b2 mod 64) * 64 + b3 mod 64).
  { subst r. arith. change (2^6) with 64; change (2^3) with 8.
    replace (Z.shiftl (b1 mod 64) 12) with ((b1 mod 64) * 4096)
      by (rewrite Z.shiftl_mul_pow2 by lia; reflexivity).
    rewrite (lor_shiftl_add (p0 mod 8) ((b1 mod 64) * 4096) 18); [| lia | change (2^18) with 262144; dm].
    replace (Z.shiftl (b2 mod 64) 6) with ((b2 mod 64) * 64)
      by (rewrite Z.shiftl_mul_pow2 by lia; reflexivity).
    replace ((p0 mod 8) * 2 ^ 18 + (b1 mod 64) * 4096)
      with (Z.shiftl ((p0 mod 8) * 64 + b1 mod 64) 12)
      by (rewrite Z.shiftl_mul_pow2 by lia; change (2^18) with 262144; change (2^12) with 4096; lia).
    rewrite lor_shiftl_add; [| lia | change (2^12) with 4096; dm].
    replace (((p0 mod 8) * 64 + b1 mod 64) * 2 ^ 12 + (b2 mod 64) * 64)
      with (Z.shiftl (((p0 mod 8) * 64 + b1 mod 64) * 64 + b2 mod 64) 6)
      by (rewrite Z.shiftl_mul_pow2 by lia; change (2^6) with 64; change (2^12) with 4096; lia).
    rewrite lor_shiftl_add; [| lia | change (2^6) with 64; dm].
    change (2^6) with 64. lia. }
  clearbody r. subst r. arith. change (2 ^ 6) with 64. change (2 ^ 12) with 4096.
  change (2 ^ 18) with 262144.
  destruct (Z.eqb_spec p0 0xF0), (Z.eqb_spec p0 0xF4);
  rewrite lor_F0 by dm; rewrite !lor_80 by dm;
  repeat split; dm.
Qed.

Lemma b2z_range (b : byte) : 0 <= b2z b < 256.
Proof.
  unfold b2z. pose proof (Byte.to_N_bounded b). lia.
Qed.

Lemma z2b_b2z (b : byte) : z2b (b2z b) = b.
Proof.
  unfold z2b. rewrite Z.mod_small by apply b2z_range.
  unfold b2z. rewrite N2Z.id, Byte.of_to_N. reflexivity.
Qed.

Lemma b2z_z2b (z : Z) : b2z (z2b z) = z mod 256.
Proof.
  unfold z2b, b2z.
  assert (H : 0 <= z mod 256 < 256) by (apply Z.mod_pos_bound; lia).
  destruct (Byte.of_N (Z.to_N (z mod 256))) as [b|] eqn:E.
  - apply Byte.to_of_N in E. rewrite E. lia.
  - apply Byte.of_N_None_iff in E. lia.
Qed.

Lemma b2z_inj (a b : byte) : b2z a = b2z b -> a = b.
Proof. intros H. rewrite <- (z2b_b2z a), <- (z2b_b2z b), H. reflexivity. Qed.

Lemma first_cases (p0 : Z) :
  0 <= p0 < 256 ->
  (p0 < 0x80 /\ first p0 = as_) \/
  ((0x80 <= p0 < 0xC2 \/ 0xF5 <= p0) /\ first p0 = xx) \/
  (0xC2 <= p0 <= 0xDF /\ first p0 = s1) \/
  (p0 = 0xE0 /\ first p0 = s2) \/
  ((0xE1 <= p0 <= 0xEC \/ 0xEE <= p0 <= 0xEF) /\ first p0 = s3) \/
  (p0 = 0xED /\ first p0 = s4) \/
  (p0 = 0xF0 /\ first p0 = s5) \/
  (0xF1 <= p0 <= 0xF3 /\ first p0 = s6) \/
  (p0 = 0xF4 /\ first p0 = s7).
Proof.
  intros H. unfold first.
  repeat match goal with
  | |- context [?a <? ?b] => destruct (Z.ltb_spec a b)
  | |- context [?a =? ?b] => destruct (Z.eqb_spec a b)
  end; intuition lia.
Qed.

Lemma not_newline (c : byte) : b2z c <> 10 -> c <> Byte.x0a.
Proof. intros H ->. apply H. reflexivity. Qed.

Lemma decode_ascii (c0 : byte) (p1 : list byte) :
  b2z c0 < 0x80 -> first (b2z c0) = as_ ->
  DecodeRune (c0 :: p1) = (b2z c0, 1).
Proof.
  intros H Hf. unfold DecodeRune. cbv zeta. rewrite Hf.
  change (as_ <=? as_) with true. cbv iota.
  change (Z.shiftr (int32 (Z.shiftl as_ 31)) 31) with 0.
  change (Z.lnot 0) with (-1). rewrite Z.land_m1_r.
  change (Z.land RuneError 0) with 0. rewrite Z.lor_0_r. reflexivity.
Qed.

Lemma decode_xx (c0 : byte) (p1 : list byte) :
  first (b2z c0) = xx -> DecodeRune (c0 :: p1) = (RuneError, 1).
Proof.
  intros Hf. unfold DecodeRune. cbv zeta. rewrite Hf.
  change (as_ <=? xx) with true. cbv iota.
  change (Z.shiftr (int32 (Z.shiftl xx 31)) 31) with (-1).
  change (Z.lnot (-1)) with 0. rewrite Z.land_0_r.
  reflexivity.
Qed.

Lemma good_ascii (c0 : byte) (p1 : list byte) :
  b2z c0 < 0x80 -> good (c0 :: p1) (b2z c0) 1.
Proof.
  intros H. pose proof (b2z_range c0) as R. unfold good.
  split; [lia|]. split; [cbn; lia|]. split.
  - unfold WriteRune, uint32. rewrite Z.mod_small by lia.
    replace (b2z c0 <? RuneSelf) with true
      by (symmetry; apply Z.ltb_lt; exact H).
    rewrite z2b_b2z. reflexivity.
  - split.
    + intros E. exists p1. split; [|reflexivity]. f_equal.
      apply b2z_inj. rewrite E. reflexivity.
    + intros E. cbn. constructor; [|constructor]. apply not_newline. exact E.
Qed.


Lemma decode_multi (c0 : byte) (p1 : list byte) (x sz lo hi : Z) :
  first (b2z c0) = x -> (as_ <=? x) = false -> Z.land x 7 = sz ->
  acceptRanges (Z.shiftr x 4) = (lo, hi) ->
  DecodeRune (c0 :: p1) =
  let p0 := b2z c0 in
  if Z.of_nat (length (c0 :: p1)) <? sz then (RuneError, 1) else
  match p1 with
  | [] => (RuneError, 1)
  | c1 :: p2 =>
      let b1 := b2z c1 in
      if (b1 <? lo) || (hi <? b1) then (RuneError, 1) else
      if sz <=? 2 then
        (Z.lor (Z.shiftl (Z.land p0 mask2) 6) (Z.land b1 maskx), 2)
      else
      match p2 with
      | [] => (RuneError, 1)
      | c2 :: p3 =>
          let b2 := b2z c2 in
          if (b2 <? locb) || (hicb <? b2) then (RuneError, 1) else
          if sz <=? 3 then
            (Z.lor (Z.lor (Z.shiftl (Z.land p0 mask3) 12)
                          (Z.shiftl (Z.land b1 maskx) 6))
                   (Z.land b2 maskx), 3)
          else
          match p3 with
          | [] => (RuneError, 1)
          | c3 :: _ =>
              let b3 := b2z c3 in
              if (b3 <? locb) || (hicb <? b3) then (RuneError, 1) else
              (Z.lor (Z.lor (Z.lor (Z.shiftl (Z.land p0 mask4) 18)
                                   (Z.shiftl (Z.land b1 maskx) 12))
                            (Z.shiftl (Z.land b2 maskx) 6))
                     (Z.land b3 maskx), 4)
          end
      end
  end.
Proof.
  intros H1 H2 H3 H4. unfold DecodeRune. cbv zeta.
  rewrite H1, H2, H3, H4. reflexivity.
Qed.

(** Ranges out of a failed range test. *)
Lemma in_range (b lo hi : Z) : (b <? lo) || (hi <? b) = false -> lo <= b <= hi.
Proof.
  intros H. apply orb_false_iff in H. destruct H as [A B].
  apply Z.ltb_ge in A, B. lia.
Qed.

Ltac cmp :=
  repeat match goal with
  | |- context [?a <? ?b] =>
      first [ replace (a <? b) with true by (symmetry; apply Z.ltb_lt; lia)
            | replace (a <? b) with false by (symmetry; apply Z.ltb_ge; lia) ]
  | |- context [?a <=? ?b] =>
      first [ replace (a <=? b) with true by (symmetry; apply Z.leb_le; lia)
            | replace (a <=? b) with false by (symmetry; apply Z.leb_gt; lia) ]
  end.

Lemma good2 (c0 c1 : byte) (p2 : list byte) :
  0xC2 <= b2z c0 <= 0xDF -> 0x80 <= b2z c1 <= 0xBF ->
  good (c0 :: c1 :: p2)
       (Z.lor (Z.shiftl (Z.land (b2z c0) mask2) 6) (Z.land (b2z c1) maskx)) 2.
Proof.
  intros H0 H1.
  destruct (two_bytes (b2z c0) (b2z c1) H0 H1) as (R & E0 & E1).
  unfold mask2, maskx.
  set (r := Z.lor (Z.shiftl (Z.land (b2z c0) 31) 6) (Z.land (b2z c1) 63)) in *.
  unfold good. split; [lia|]. split; [cbn; lia|]. split; [|split].
  - unfold WriteRune, EncodeRune, uint32, RuneSelf, rune1Max, rune2Max.
    rewrite Z.mod_small by lia. cmp. cbv iota. unfold t2, tx, maskx.
    rewrite !b2z_z2b, E0, E1, !z2b_b2z. reflexivity.
  - intros E. lia.
  - intros _. cbn. repeat constructor; apply not_newline; lia.
Qed.

Lemma good3 (c0 c1 c2 : byte) (p3 : list byte) :
  0xE0 <= b2z c0 <= 0xEF ->
  (if b2z c0 =? 0xE0 then 0xA0 else 0x80) <= b2z c1
    <= (if b2z c0 =? 0xED then 0x9F else 0xBF) ->
  0x80 <= b2z c2 <= 0xBF ->
  good (c0 :: c1 :: c2 :: p3)
       (Z.lor (Z.lor (Z.shiftl (Z.land (b2z c0) mask3) 12)
                     (Z.shiftl (Z.land (b2z c1) maskx) 6))
              (Z.land (b2z c2) maskx)) 3.
Proof.
  intros H0 H1 H2.
  destruct (three_bytes (b2z c0) (b2z c1) (b2z c2) H0 H1 H2) as (R & S & E0 & E1 & E2).
  unfold mask3, maskx.
  set (r := Z.lor _ _) in *.
  assert (B1 : 0x80 <= b2z c1 <= 0xBF)
    by (destruct (b2z c0 =? 0xE0), (b2z c0 =? 0xED); lia).
  unfold good. split; [lia|]. split; [cbn; lia|]. split; [|split].
  - unfold WriteRune, EncodeRune, uint32, RuneSelf, rune1Max, rune2Max, rune3Max,
      MaxRune, surrogateMin, surrogateMax.
    rewrite Z.mod_small by lia.
    replace (r <? 128) with false by (symmetry; apply Z.ltb_ge; lia).
    replace (r <=? 127) with false by (symmetry; apply Z.leb_gt; lia).
    replace (r <=? 2047) with false by (symmetry; apply Z.leb_gt; lia).
    replace ((1114111 <? r) || (55296 <=? r) && (r <=? 57343)) with false.
    2:{ symmetry. apply orb_false_iff. split; [apply Z.ltb_ge; lia|].
        apply andb_false_iff.
        destruct (Z.leb_spec 55296 r); [right; apply Z.leb_gt; lia | left; reflexivity]. }
    replace (r <=? 65535) with true by (symmetry; apply Z.leb_le; lia).
    unfold encode3, t3, tx, maskx.
    rewrite !b2z_z2b, E0, E1, E2, !z2b_b2z. reflexivity.
  - intros E. lia.
  - intros _. cbn. repeat constructor; apply not_newline; lia.
Qed.

Lemma good4 (c0 c1 c2 c3 : byte) (p4 : list byte) :
  0xF0 <= b2z c0 <= 0xF4 ->
  (if b2z c0 =? 0xF0 then 0x90 else 0x80) <= b2z c1
    <= (if b2z c0 =? 0xF4 then 0x8F else 0xBF) ->
  0x80 <= b2z c2 <= 0xBF -> 0x80 <= b2z c3 <= 0xBF ->
  good (c0 :: c1 :: c2 :: c3 :: p4)
       (Z.lor (Z.lor (Z.lor (Z.shiftl (Z.land (b2z c0) mask4) 18)
                            (Z.shiftl (Z.land (b2z c1) maskx) 12))
                     (Z.shiftl (Z.land (b2z c2) maskx) 6))
              (Z.land (b2z c3) maskx)) 4.
Proof.
  intros H0 H1 H2 H3.
  destruct (four_bytes (b2z c0) (b2z c1) (b2z c2) (b2z c3) H0 H1 H2 H3)
    as (R & E0 & E1 & E2 & E3).
  unfold mask4, maskx.
  set (r := Z.lor _ _) in *.
  assert (B1 : 0x80 <= b2z c1 <= 0xBF)
    by (destruct (b2z c0 =? 0xF0), (b2z c0 =? 0xF4); lia).
  unfold good. split; [lia|]. split; [cbn; lia|]. split; [|split].
  - unfold WriteRune, EncodeRune, uint32, RuneSelf, rune1Max, rune2Max, rune3Max,
      MaxRune, surrogateMin, surrogateMax.
    rewrite Z.mod_small by lia.
    replace (r <? 128) with false by (symmetry; apply Z.ltb_ge; lia).
    replace (r <=? 127) with false by (symmetry; apply Z.leb_gt; lia).
    replace (r <=? 2047) with false by (symmetry; apply Z.leb_gt; lia).
    replace ((1114111 <? r) || (55296 <=? r) && (r <=? 57343)) with false.
    2:{ symmetry. apply orb_false_iff. split; [apply Z.ltb_ge; lia|].
        apply andb_false_iff. right. apply Z.leb_gt. lia. }
    replace (r <=? 65535) with false by (symmetry; apply Z.leb_gt; lia).
    unfold t4, tx, maskx.
    rewrite !b2z_z2b, E0, E1, E2, E3, !z2b_b2z. reflexivity.
  - intros E. lia.
  - intros _. cbn. repeat constructor; apply not_newline; lia.
Qed.


Ltac range_ifs :=
  repeat match goal with
  | |- context [?a =? ?b] => destruct (Z.eqb_spec a b)
  end; unfold locb, hicb in *; lia.

Lemma DecodeRune_good (c0 : byte) (p1 : list byte) :
  DecodeRune (c0 :: p1) = (RuneError, 1) \/
  good (c0 :: p1) (DecodeRune (c0 :: p1)).1 (DecodeRune (c0 :: p1)).2.
Proof.
  pose proof (b2z_range c0) as R0.
  destruct (first_cases (b2z c0) R0)
    as [[H F]|[[H F]|[[H F]|[[H F]|[[H F]|[[H F]|[[H F]|[[H F]|[H F]]]]]]]]].
  - right. rewrite decode_ascii by assumption. apply good_ascii. exact H.
  - left. apply decode_xx. exact F.
  - rewrite (decode_multi c0 p1 s1 2 locb hicb F) by reflexivity. cbv zeta.
    destruct (Z.of_nat (length (c0 :: p1)) <? 2); [left; reflexivity|].
    destruct p1 as [|c1 p2]; [left; reflexivity|].
    destruct ((b2z c1 <? locb) || (hicb <? b2z c1)) eqn:T1; [left; reflexivity|].
    apply in_range in T1. right. apply good2; unfold locb, hicb in *; lia.
  - rewrite (decode_multi c0 p1 s2 3 0xA0 hicb F) by reflexivity. cbv zeta.
    destruct (Z.of_nat (length (c0 :: p1)) <? 3); [left; reflexivity|].
    destruct p1 as [|c1 p2]; [left; reflexivity|].
    destruct ((b2z c1 <? 0xA0) || (hicb <? b2z c1)) eqn:T1; [left; reflexivity|].
    apply in_range in T1. change (3 <=? 2) with false. cbv iota.
    destruct p2 as [|c2 p3]; [left; reflexivity|].
    destruct ((b2z c2 <? locb) || (hicb <? b2z c2)) eqn:T2; [left; reflexivity|].
    apply in_range in T2. right. apply good3; range_ifs.
  - rewrite (decode_multi c0 p1 s3 3 locb hicb F) by reflexivity. cbv zeta.
    destruct (Z.of_nat (length (c0 :: p1)) <? 3); [left; reflexivity|].
    destruct p1 as [|c1 p2]; [left; reflexivity|].
    destruct ((b2z c1 <? locb) || (hicb <? b2z c1)) eqn:T1; [left; reflexivity|].
    apply in_range in T1. change (3 <=? 2) with false. cbv iota.
    destruct p2 as [|c2 p3]; [left; reflexivity|].
    destruct ((b2z c2 <? locb) || (hicb <? b2z c2)) eqn:T2; [left; reflexivity|].
    apply in_range in T2. right. apply good3; range_ifs.
  - rewrite (decode_multi c0 p1 s4 3 locb 0x9F F) by reflexivity. cbv zeta.
    destruct (Z.of_nat (length (c0 :: p1)) <? 3); [left; reflexivity|].
    destruct p1 as [|c1 p2]; [left; reflexivity|].
    destruct ((b2z c1 <? locb) || (0x9F <? b2z c1)) eqn:T1; [left; reflexivity|].
    apply in_range in T1. change (3 <=? 2) with false. cbv iota.
    destruct p2 as [|c2 p3]; [left; reflexivity|].
    destruct ((b2z c2 <? locb) || (hicb <? b2z c2)) eqn:T2; [left; reflexivity|].
    apply in_range in T2. right. apply good3; range_ifs.
  - rewrite (decode_multi c0 p1 s5 4 0x90 hicb F) by reflexivity. cbv zeta.
    destruct (Z.of_nat (length (c0 :: p1)) <? 4); [left; reflexivity|].
    destruct p1 as [|c1 p2]; [left; reflexivity|].
    destruct ((b2z c1 <? 0x90) || (hicb <? b2z c1)) eqn:T1; [left; reflexivity|].
    apply in_range in T1. change (4 <=? 2) with false. cbv iota.
    destruct p2 as [|c2 p3]; [left; reflexivity|].
    destruct ((b2z c2 <? locb) || (hicb <? b2z c2)) eqn:T2; [left; reflexivity|].
    apply in_range in T2. change (4 <=? 3) with false. cbv iota.
    destruct p3 as [|c3 p4]; [left; reflexivity|].
    destruct ((b2z c3 <? locb) || (hicb <? b2z c3)) eqn:T3; [left; reflexivity|].
    apply in_range in T3. right. apply good4; range_ifs.
  - rewrite (decode_multi c0 p1 s6 4 locb hicb F) by reflexivity. cbv zeta.
    destruct (Z.of_nat (length (c0 :: p1)) <? 4); [left; reflexivity|].
    destruct p1 as [|c1 p2]; [left; reflexivity|].
    destruct ((b2z c1 <? locb) || (hicb <? b2z c1)) eqn:T1; [left; reflexivity|].
    apply in_range in T1. change (4 <=? 2) with false. cbv iota.
    destruct p2 as [|c2 p3]; [left; reflexivity|].
    destruct ((b2z c2 <? locb) || (hicb <? b2z c2)) eqn:T2; [left; reflexivity|].
    apply in_range in T2. change (4 <=? 3) with false. cbv iota.
    destruct p3 as [|c3 p4]; [left; reflexivity|].
    destruct ((b2z c3 <? locb) || (hicb <? b2z c3)) eqn:T3; [left; reflexivity|].
    apply in_range in T3. right. apply good4; range_ifs.
  - rewrite (decode_multi c0 p1 s7 4 locb 0x8F F) by reflexivity. cbv zeta.
    destruct (Z.of_nat (length (c0 :: p1)) <? 4); [left; reflexivity|].
    destruct p1 as [|c1 p2]; [left; reflexivity|].
    destruct ((b2z c1 <? locb) || (0x8F <? b2z c1)) eqn:T1; [left; reflexivity|].
    apply in_range in T1. change (4 <=? 2) with false. cbv iota.
    destruct p2 as [|c2 p3]; [left; reflexivity|].
    destruct ((b2z c2 <? locb) || (hicb <? b2z c2)) eqn:T2; [left; reflexivity|].
    apply in_range in T2. change (4 <=? 3) with false. cbv iota.
    destruct p3 as [|c3 p4]; [left; reflexivity|].
    destruct ((b2z c3 <? locb) || (hicb <? b2z c3)) eqn:T3; [left; reflexivity|].
    apply in_range in T3. right. apply good4; range_ifs.
Qed.

(** Every rune has a width between 1 and the bytes at hand. *)
Lemma DecodeRune_width (c0 : byte) (p1 : list byte) :
  1 <= (DecodeRune (c0 :: p1)).2.
Proof.
  destruct (DecodeRune_good c0 p1) as [E|G].
  - rewrite E. cbn. lia.
  - apply G.
Qed.

End utf8Spec.

(** * Lines *)

Module LinesSpec.
Import utf8 utf8Spec Tailer.

Lemma newline_byte (c : byte) : b2z c = 10 -> c = Byte.x0a.
Proof. intros H. apply b2z_inj. exact H. Qed.

Lemma splitLines_join (bs acc : list byte) :
  joinLines (splitLines acc bs).1 ++ (splitLines acc bs).2 = acc ++ bs.
Proof.
  revert acc. induction bs as [|c bs IH]; intros acc; cbn [splitLines].
  - cbn. rewrite app_nil_r. reflexivity.
  - destruct (Z.eqb_spec (b2z c) 10) as [E|E].
    + apply newline_byte in E. subst c. cbn [fst snd].
      unfold joinLines in *. cbn [map concat]. rewrite <- !app_assoc.
      f_equal. cbn [app]. f_equal. apply (IH []).
    + rewrite IH. rewrite <- app_assoc. reflexivity.
Qed.

Lemma splitLines_nonl (xs bs acc : list byte) :
  Forall (fun c => c <> Byte.x0a) xs ->
  splitLines acc (xs ++ bs) = splitLines (acc ++ xs) bs.
Proof.
  revert acc. induction xs as [|c xs IH]; intros acc H.
  - rewrite app_nil_r. reflexivity.
  - inversion H as [|? ? Hc Hxs]; subst. cbn [app splitLines].
    destruct (Z.eqb_spec (b2z c) 10) as [E|E].
    + apply newline_byte in E. contradiction.
    + rewrite IH by assumption. rewrite <- app_assoc. reflexivity.
Qed.

Lemma splitLines_app (a b acc : list byte) :
  splitLines acc (a ++ b) =
  ((splitLines acc a).1 ++ (splitLines (splitLines acc a).2 b).1,
   (splitLines (splitLines acc a).2 b).2).
Proof.
  revert acc. induction a as [|c a IH]; intros acc; cbn [app splitLines].
  - cbn. destruct (splitLines acc b); reflexivity.
  - destruct (b2z c =? 10).
    + cbn [fst snd]. rewrite (IH []). reflexivity.
    + apply IH.
Qed.

Lemma splitLines_clean (bs acc : list byte) :
  Forall (fun c => c <> Byte.x0a) acc ->
  Forall (Forall (fun c => c <> Byte.x0a)) (splitLines acc bs).1 /\
  Forall (fun c => c <> Byte.x0a) (splitLines acc bs).2.
Proof.
  revert acc. induction bs as [|c bs IH]; intros acc H; cbn [splitLines].
  - split; [constructor | exact H].
  - destruct (Z.eqb_spec (b2z c) 10) as [E|E].
    + cbn [fst snd]. destruct (IH [] (Forall_nil_2 _)) as [A B].
      split; [constructor; assumption | assumption].
    + apply IH. apply Forall_app. split; [exact H|].
      constructor; [|constructor]. intros ->. apply E. reflexivity.
Qed.

Lemma sentLines_app (t u : list Effect) :
  sentLines (t ++ u) = sentLines t ++ sentLines u.
Proof. unfold sentLines. apply omap_app. Qed.

Section Generic.
Context {W : Type} {S : Sys W}.

Lemma sendAll_world name c ls (e : Env W) : world (sendAll name c ls e) = world e.
Proof. revert e. induction ls as [|l ls IH]; intros e; cbn; [reflexivity|]. rewrite IH. reflexivity. Qed.

Lemma sendAll_sent name c ls (e : Env W) :
  sentLines (trace (sendAll name c ls e)) = sentLines (trace e) ++ map (mkLogLine name) ls.
Proof.
  revert e. induction ls as [|l ls IH]; intros e; cbn [sendAll map].
  - rewrite app_nil_r. reflexivity.
  - rewrite IH. cbn [trace lineCount_Add emit]. rewrite sentLines_app.
    rewrite <- app_assoc. reflexivity.
Qed.

Lemma sendAll_app name c ls ls' (e : Env W) :
  sendAll name c (ls ++ ls') e = sendAll name c ls' (sendAll name c ls e).
Proof. revert e. induction ls as [|l ls IH]; intros e; cbn; [reflexivity|]. apply IH. Qed.

Lemma set_partial_id (f : File) : set_partial (partial f) f = f.
Proof. destruct f; reflexivity. Qed.

Lemma decodeRunes_valid (n : nat) (b : list byte) (f : File) (e : Env W) :
  (length b <= n)%nat -> validFrom n b = true -> partialLock f = false ->
  decodeRunes n b f e =
  (set_partial (splitLines (partial f) b).2 f,
   sendAll (Name f) (lines f) (splitLines (partial f) b).1 e).
Proof.
  revert b f e. induction n as [|k IH]; intros b f e Hlen Hv Hl.
  - destruct b; [|cbn in Hlen; lia]. cbn. rewrite set_partial_id. reflexivity.
  - destruct b as [|c0 p1]; [cbn; rewrite set_partial_id; reflexivity|].
    cbn [decodeRunes validFrom] in *.
    destruct (DecodeRune_good c0 p1) as [E|G].
    { rewrite E in Hv. cbn in Hv. discriminate. }
    destruct (DecodeRune (c0 :: p1)) as [r w]. cbn [fst snd] in G.
    destruct G as (Hw1 & Hwl & HW & H10 & Hn10).
    destruct ((r =? RuneError) && (w =? 1)); [discriminate|].
    assert (Hlen' : (length (drop (Z.to_nat w) (c0 :: p1)) <= k)%nat).
    { rewrite length_drop. cbn [length] in *. lia. }
    destruct (Z.eqb_spec r 10) as [E|E]; cbn [negb].
    + destruct (H10 E) as (p' & Hp & ->). injection Hp as -> ->.
      cbn [sendLine]. rewrite IH; [|exact Hlen'|exact Hv|reflexivity].
      change (Z.to_nat 1) with 1%nat. cbn [drop splitLines].
      change (b2z Byte.x0a =? 10) with true. cbv iota. cbn [fst snd sendAll].
      destruct f; cbn in *; subst; reflexivity.
    + unfold waitForLock. rewrite Hl.
      rewrite IH; [|exact Hlen'|exact Hv|exact Hl].
      assert (Hs : splitLines (partial f) (c0 :: p1) =
                   splitLines (partial f ++ WriteRune r) (drop (Z.to_nat w) (c0 :: p1))).
      { rewrite <- (take_drop (Z.to_nat w) (c0 :: p1)) at 1.
        rewrite (splitLines_nonl _ _ _ (Hn10 E)). rewrite HW. reflexivity. }
      rewrite Hs. destruct f; reflexivity.
Qed.

End Generic.
End LinesSpec.

(** * One chunk at a time *)

Module ChunkSpec.
Import utf8 utf8Spec Tailer LinesSpec.

Section Generic.
Context {W : Type} {S : Sys W}.

Lemma sendAll_trace name c ls (e : Env W) :
  trace (sendAll name c ls e) =
  trace e ++ map (fun l => EvSend c (mkLogLine name l)) ls.
Proof.
  revert e. induction ls as [|l ls IH]; intros e; cbn [sendAll map].
  - rewrite app_nil_r. reflexivity.
  - rewrite IH. cbn [trace lineCount_Add emit]. rewrite <- app_assoc. reflexivity.
Qed.

(** X10.  The inner loop of [Read] over a chunk of well-formed UTF-8 alters
    no byte: the lines it sends, each followed by a newline, and then the
    buffer it leaves, are the buffer it found followed by the chunk.  It
    sends on the file's channel under the file's name, in order, and makes
    no other call. *)
Theorem X10_Read_chunk_wellformed_keeps_bytes (b : list byte) (f : File) (e : Env W) :
  Valid b = true -> partialLock f = false ->
  exists (ls : list (list byte)) (rem : list byte),
    joinLines ls ++ rem = partial f ++ b /\
    (Forall (fun c => c <> Byte.x0a) (partial f) ->
     Forall (Forall (fun c => c <> Byte.x0a)) ls /\ Forall (fun c => c <> Byte.x0a) rem) /\
    (decodeRunes (length b) b f e).1 = set_partial rem f /\
    trace (decodeRunes (length b) b f e).2
      = trace e ++ map (fun l => EvSend (lines f) (mkLogLine (Name f) l)) ls /\
    world (decodeRunes (length b) b f e).2 = world e.
Proof.
  intros Hv Hl. unfold Valid in Hv.
  rewrite (decodeRunes_valid (length b) b f e (le_n _) Hv Hl). cbn [fst snd].
  exists (splitLines (partial f) b).1, (splitLines (partial f) b).2.
  split; [apply splitLines_join|]. split; [apply splitLines_clean|].
  split; [reflexivity|]. split; [apply sendAll_trace|apply sendAll_world].
Qed.

Lemma WriteRune_RuneError : WriteRune RuneError = [Byte.xef; Byte.xbf; Byte.xbd].
Proof. vm_compute. reflexivity. Qed.

Lemma decode_lone (c : byte) : 0x80 <= b2z c -> DecodeRune [c] = (RuneError, 1).
Proof.
  intros H. pose proof (b2z_range c) as R.
  destruct (first_cases (b2z c) R)
    as [[H0 F]|[[H0 F]|[[H0 F]|[[H0 F]|[[H0 F]|[[H0 F]|[[H0 F]|[[H0 F]|[H0 F]]]]]]]]].
  - lia.
  - apply decode_xx. exact F.
  - rewrite (decode_multi c [] s1 2 locb hicb F) by reflexivity. reflexivity.
  - rewrite (decode_multi c [] s2 3 0xA0 hicb F) by reflexivity. reflexivity.
  - rewrite (decode_multi c [] s3 3 locb hicb F) by reflexivity. reflexivity.
  - rewrite (decode_multi c [] s4 3 locb 0x9F F) by reflexivity. reflexivity.
  - rewrite (decode_multi c [] s5 4 0x90 hicb F) by reflexivity. reflexivity.
  - rewrite (decode_multi c [] s6 4 locb hicb F) by reflexivity. reflexivity.
  - rewrite (decode_multi c [] s7 4 locb 0x8F F) by reflexivity. reflexivity.
Qed.

Lemma decodeRunes_lone (c : byte) (f : File) (e : Env W) :
  0x80 <= b2z c -> partialLock f = false ->
  decodeRunes 1 [c] f e
  = (set_partial (partial f ++ [Byte.xef; Byte.xbf; Byte.xbd]) f, e).
Proof.
  intros H Hl. cbn [decodeRunes]. rewrite (decode_lone c H).
  change (negb (RuneError =? 10)) with true. cbv iota.
  unfold waitForLock. rewrite Hl. rewrite WriteRune_RuneError.
  change (Z.to_nat 1) with 1%nat. reflexivity.
Qed.

(** X11.  Each chunk is decoded on its own.  A byte that is not ASCII and
    makes up a chunk by itself is stored as the three bytes of U+FFFD; so
    the two bytes of a two-byte character, which read in one chunk reach
    the buffer unchanged, reach it as two replacement characters when a
    chunk ends between them. *)
Theorem X11_chunk_boundary_inside_character (c0 c1 : byte) (f : File) (e : Env W) :
  0xC2 <= b2z c0 <= 0xDF -> 0x80 <= b2z c1 <= 0xBF -> partialLock f = false ->
  decodeRunes 2 [c0; c1] f e = (set_partial (partial f ++ [c0; c1]) f, e) /\
  decodeRunes 1 [c0] f e
    = (set_partial (partial f ++ [Byte.xef; Byte.xbf; Byte.xbd]) f, e) /\
  decodeRunes 1 [c1] (decodeRunes 1 [c0] f e).1 (decodeRunes 1 [c0] f e).2
    = (set_partial (partial f ++ [Byte.xef; Byte.xbf; Byte.xbd;
                                  Byte.xef; Byte.xbf; Byte.xbd]) f, e).
Proof.
  intros H0 H1 Hl. split; [|split].
  - assert (F : first (b2z c0) = s1).
    { pose proof (b2z_range c0) as R.
      destruct (first_cases (b2z c0) R)
        as [[A F]|[[A F]|[[A F]|[[A F]|[[A F]|[[A F]|[[A F]|[[A F]|[A F]]]]]]]]];
        try lia; exact F. }
    assert (D : (DecodeRune [c0; c1]).2 = 2 /\ (DecodeRune [c0; c1]).1 <> 10).
    { destruct (DecodeRune_good c0 [c1]) as [E|G].
      - exfalso. revert E.
        rewrite (decode_multi c0 [c1] s1 2 locb hicb F) by reflexivity. cbv zeta.
        change (Z.of_nat (length [c0; c1]) <? 2) with false. cbv iota.
        replace ((b2z c1 <? locb) || (hicb <? b2z c1)) with false.
        2:{ symmetry. apply orb_false_iff. unfold locb, hicb.
            split; [apply Z.ltb_ge|apply Z.ltb_ge]; lia. }
        discriminate.
      - revert G. rewrite (decode_multi c0 [c1] s1 2 locb hicb F) by reflexivity.
        cbv zeta. change (Z.of_nat (length [c0; c1]) <? 2) with false. cbv iota.
        replace ((b2z c1 <? locb) || (hicb <? b2z c1)) with false.
        2:{ symmetry. apply orb_false_iff. unfold locb, hicb.
            split; [apply Z.ltb_ge|apply Z.ltb_ge]; lia. }
        change (2 <=? 2) with true. cbv iota. cbn [fst snd].
        intros (_ & _ & _ & G10 & _). split; [reflexivity|].
        intros E. destruct (G10 E) as (p' & Hp & _). injection Hp as -> _.
        change (b2z Byte.x0a) with 10 in H0. lia. }
    assert (V : validFrom 2 [c0; c1] = true).
    { cbn [validFrom]. destruct (DecodeRune [c0; c1]) as [r w]. cbn [fst snd] in D.
      destruct D as [-> _]. change (2 =? 1) with false. rewrite andb_false_r.
      reflexivity. }
    rewrite (decodeRunes_valid 2 [c0; c1] f e (le_n _) V Hl).
    cbn [splitLines].
    replace (b2z c0 =? 10) with false by (symmetry; apply Z.eqb_neq; lia).
    replace (b2z c1 =? 10) with false by (symmetry; apply Z.eqb_neq; lia).
    cbn [fst snd sendAll splitLines]. rewrite <- app_assoc. reflexivity.
  - apply decodeRunes_lone; [lia|exact Hl].
  - rewrite (decodeRunes_lone c0 f e) by (lia || exact Hl). cbn [fst snd].
    rewrite decodeRunes_lone by (lia || (destruct f; exact Hl)).
    destruct f; cbn. rewrite <- app_assoc. reflexivity.
Qed.

End Generic.
(** ** Runs *)

Import MemOS Examples.

(** The chunk [ab], a newline, [c] on top of the buffer [x]. *)
Lemma X10_witness :
  (decodeRunes 4 (bytes "ab" ++ [Byte.x0a] ++ bytes "c") (holding (bytes "x")) opened.2).1
    = set_partial (bytes "c") (holding (bytes "x")) /\
  trace (decodeRunes 4 (bytes "ab" ++ [Byte.x0a] ++ bytes "c") (holding (bytes "x")) opened.2).2
    = trace opened.2 ++ [EvSend 7%nat (mkLogLine "a.log" (bytes "xab"))].
Proof.
  destruct (X10_Read_chunk_wellformed_keeps_bytes
              (bytes "ab" ++ [Byte.x0a] ++ bytes "c") (holding (bytes "x")) opened.2)
    as (ls & rem & _).
  - vm_compute. reflexivity.
  - reflexivity.
  - split; vm_compute; reflexivity.
Defined.

(** The two bytes of U+00E9. *)
Lemma X11_witness :
  decodeRunes 2 [Byte.xc3; Byte.xa9] opened.1 opened.2
    = (set_partial [Byte.xc3; Byte.xa9] opened.1, opened.2) /\
  decodeRunes 1 [Byte.xa9] (decodeRunes 1 [Byte.xc3] opened.1 opened.2).1
                           (decodeRunes 1 [Byte.xc3] opened.1 opened.2).2
    = (set_partial [Byte.xef; Byte.xbf; Byte.xbd; Byte.xef; Byte.xbf; Byte.xbd] opened.1,
       opened.2).
Proof.
  destruct (X11_chunk_boundary_inside_character Byte.xc3 Byte.xa9 opened.1 opened.2)
    as (A & _ & B).
  - vm_compute. split; discriminate.
  - vm_compute. split; discriminate.
  - reflexivity.
  - split; [exact A|exact B].
Defined.

End ChunkSpec.

(** * What the tailer does and what it never does *)

Module TraceSpec.
Import Tailer LinesSpec TailerSpec.

Section Generic.
Context {W : Type} {S : Sys W}.

Lemma run_refl P name (e : Env W) : run P name e e.
Proof. exists []. rewrite app_nil_r. repeat split. constructor. Qed.

Lemma run_trans P name (e e1 e2 : Env W) :
  run P name e e1 -> run P name e1 e2 -> run P name e e2.
Proof.
  intros (t1 & T1 & F1 & C1) (t2 & T2 & F2 & C2). exists (t1 ++ t2).
  split; [rewrite T2, T1, app_assoc; reflexivity|].
  split; [apply Forall_app; auto|].
  rewrite C2, C1, sentLines_app, length_app, Nat.add_comm, Nat.iter_add. reflexivity.
Qed.

Lemma run_impl (P Q : Effect -> Prop) name (e e' : Env W) :
  (forall ev, P ev -> Q ev) -> run P name e e' -> run Q name e e'.
Proof.
  intros H (t & T & F & C). exists t. repeat split; auto.
  eapply Forall_impl; eauto.
Qed.

(** A call that is not a send. *)
Lemma run_call P name (e e' : Env W) (ev : Effect) :
  trace e' = trace e ++ [ev] -> lineCount e' = lineCount e ->
  P ev -> (forall c l, ev <> EvSend c l) ->
  run P name e e'.
Proof.
  intros T C HP Hns. exists [ev]. split; [exact T|]. split; [repeat constructor; exact HP|].
  destruct ev; try (cbn; exact C). exfalso. eapply Hns. reflexivity.
Qed.

Lemma sameFile_refl f : sameFile f f.
Proof. repeat split. Qed.

Lemma sameFile_trans f f1 f2 : sameFile f f1 -> sameFile f1 f2 -> sameFile f f2.
Proof. unfold sameFile. intuition congruence. Qed.

Lemma sendLine_run P (f : File) (e : Env W) :
  P (EvSend (lines f) (mkLogLine (Name f) (partial f))) ->
  run P (Name f) e (sendLine f e).2 /\ sameFile f (sendLine f e).1.
Proof.
  intros HP. split; [|repeat split].
  exists [EvSend (lines f) (mkLogLine (Name f) (partial f))].
  cbn. repeat split. repeat constructor. exact HP.
Qed.

Section WithP.
Variable P : Effect -> Prop.
Variable d : fd.
Variable c : chanref.
Variable name : string.
Hypothesis Psend : forall l, P (EvSend c (mkLogLine name l)).
Hypothesis Psleep : forall t, P (EvSleep t).

Lemma decodeRunes_run fuel b (f : File) (e : Env W) :
  lines f = c -> Name f = name ->
  run P name e (decodeRunes fuel b f e).2 /\ sameFile f (decodeRunes fuel b f e).1.
Proof.
  revert b f e. induction fuel as [|k IH]; intros b f e Hc Hn;
    [split; [apply run_refl|apply sameFile_refl]|].
  cbn [decodeRunes]. destruct b as [|c0 p1]; [split; [apply run_refl|apply sameFile_refl]|].
  destruct (utf8.DecodeRune (c0 :: p1)) as [r w].
  destruct (negb (r =? 10)).
  - match goal with |- context [decodeRunes k ?b' ?f' ?e'] =>
      destruct (IH b' f' e') as [A B]; [destruct f; exact Hc|destruct f; exact Hn|] end.
    split.
    + eapply run_trans; [|exact A]. unfold waitForLock.
      destruct (partialLock f); [|apply run_refl].
      eapply run_call; [reflexivity|reflexivity|apply Psleep|discriminate].
    + eapply sameFile_trans; [|exact B]. destruct f; repeat split.
  - destruct (sendLine_run P f e) as [A0 B0]; [rewrite Hc, Hn; apply Psend|].
    destruct (sendLine f e) as [f1 e1] eqn:Es. cbn [fst snd] in *.
    destruct B0 as (B1 & B2 & B3 & B4 & B5).
    destruct (IH (drop (Z.to_nat w) (c0 :: p1)) f1 e1) as [A B]; [congruence..|].
    split.
    + eapply run_trans; [|exact A]. rewrite <- Hn. exact A0.
    + eapply sameFile_trans; [|exact B]. repeat split; assumption.
Qed.

Hypothesis Pread : forall b er, P (EvRead d b er).

Section Regular.
(** Seeks and stats are made on regular files only. *)
Variable reg : bool.
Hypothesis Pseek : reg = true -> forall off wh r, P (EvSeek d off wh r).
Hypothesis Pfstat : reg = true -> forall ok, P (EvFstat d ok).

Lemma checkForTruncate_run (f : File) (e : Env W) :
  file f = d -> lines f = c -> Name f = name -> reg = true ->
  run P name e (checkForTruncate f e).2 /\ sameFile f (checkForTruncate f e).1.2.
Proof.
  intros Hd Hc Hn Hreg. unfold checkForTruncate, file_Seek, file_Stat. rewrite Hd.
  destruct (sys_seek d 0 SeekCurrent (world e)) as [r1 w1]. cbn [world emit set_world].
  assert (R1 : run P name e (emit (EvSeek d 0 SeekCurrent r1) (set_world w1 e))).
  { eapply run_call; [reflexivity|reflexivity|apply Pseek; exact Hreg|discriminate]. }
  destruct r1 as [off|err]; [|split; [exact R1|apply sameFile_refl]].
  destruct (sys_fstat d w1) as [r2 w2].
  set (e1 := emit (EvSeek d 0 SeekCurrent (inl off)) (set_world w1 e)) in *.
  assert (R2 : run P name e (emit (EvFstat d (isOk r2)) (set_world w2 e1))).
  { eapply run_trans; [exact R1|].
    eapply run_call; [reflexivity|reflexivity|apply Pfstat; exact Hreg|discriminate]. }
  destruct r2 as [fi|err]; [|split; [exact R2|apply sameFile_refl]].
  set (e2 := emit (EvFstat d (isOk (inl fi))) (set_world w2 e1)) in *.
  destruct ((off =? 0) || (off <=? st_size fi)); [split; [exact R2|apply sameFile_refl]|].
  assert (R3 : exists f3 e3,
    (if 0 <? Z.of_nat (length (partial f)) then sendLine f e2 else (f, e2)) = (f3, e3) /\
    run P name e e3 /\ sameFile f f3).
  { destruct (0 <? Z.of_nat (length (partial f))).
    - destruct (sendLine_run P f e2) as [A B]; [rewrite Hc, Hn; apply Psend|].
      eexists _, _. split; [reflexivity|]. split; [|exact B].
      eapply run_trans; [exact R2|]. rewrite <- Hn. exact A.
    - exists f, e2. split; [reflexivity|]. split; [exact R2|apply sameFile_refl]. }
  destruct R3 as (f3 & e3 & -> & R3 & S3).
  destruct S3 as (S1 & S2 & S3 & S4 & S5). rewrite S1, Hd.
  destruct (sys_seek d 0 SeekStart (world e3)) as [r4 w4]. cbn [fst snd].
  split; [|repeat split; assumption].
  eapply run_trans; [exact R3|].
  exists [EvSeek d 0 SeekStart r4]. cbn. repeat split.
  repeat constructor. apply Pseek. exact Hreg.
Qed.

Lemma ReadLoop_run fuel : forall total (f : File) (e : Env W) err f' e',
  file f = d -> lines f = c -> Name f = name -> regular f = reg ->
  ReadLoop fuel total f e = Some (err, f', e') ->
  run P name e e' /\ sameFile f f' /\ lock f' = false.
Proof.
  induction fuel as [|k IH]; intros total f e err f' e' Hd Hc Hn Hreg H; [discriminate|].
  rewrite ReadLoop_step in H. unfold afterRead in H. rewrite Hd in H.
  destruct (sys_read d 4096 _) as [[b rerr] w1]. cbn [fst snd] in H.
  set (e0 := emit (EvRead d b rerr) (set_world w1 e)) in *.
  assert (R0 : run P name e e0).
  { eapply run_call; [reflexivity|reflexivity|apply Pread|discriminate]. }
  assert (S0 : sameFile f (set_lock true f)) by (destruct f; repeat split).
  assert (C : exists tr terr f1 e1,
     afterCheck total b rerr (set_lock true f) e0 = ((tr, terr), f1, e1) /\
     run P name e e1 /\ sameFile f f1).
  { unfold afterCheck.
    assert (Z : exists tr terr, ((false, @None error), set_lock true f, e0)
                = ((tr, terr), set_lock true f, e0)) by (eexists _, _; reflexivity).
    destruct rerr as [[]|];
      try (exists false, None, (set_lock true f), e0; split; [reflexivity|]; split; assumption).
    destruct ((total + Z.of_nat (length b) =? 0) && regular (set_lock true f)) eqn:Ec;
      [|exists false, None, (set_lock true f), e0; split; [reflexivity|]; split; assumption].
    apply andb_true_iff in Ec as [_ Er].
    destruct (checkForTruncate_run (set_lock true f) e0) as [A B];
      [destruct f; assumption..| destruct f; cbn in *; congruence |].
    destruct (checkForTruncate (set_lock true f) e0) as [[[tr terr] f1] e1].
    exists tr, terr, f1, e1. split; [reflexivity|]. cbn [fst snd] in *.
    split; [exact (run_trans _ _ _ _ _ R0 A)|exact (sameFile_trans _ _ _ S0 B)]. }
  destruct C as (tr & terr & f1 & e1 & EC & R1 & S1). rewrite EC in H.
  pose proof S1 as (S11 & S12 & S13 & S14 & S15).
  destruct tr.
  - assert (A1 : file f1 = d) by congruence. assert (A2 : lines f1 = c) by congruence.
    assert (A3 : Name f1 = name) by congruence. assert (A4 : regular f1 = reg) by congruence.
    destruct (IH _ _ _ _ _ _ A1 A2 A3 A4 H) as (A & B & L).
    split; [exact (run_trans _ _ _ _ _ R1 A)|].
    split; [exact (sameFile_trans _ _ _ S1 B)|exact L].
  - destruct (decodeRunes_run (length b) b f1 e1) as [A B]; [congruence..|].
    destruct (decodeRunes (length b) b f1 e1) as [f2 e2]. cbn [fst snd] in *.
    assert (R2 : run P name e e2) by exact (run_trans _ _ _ _ _ R1 A).
    assert (S2 : sameFile f (set_lock false f2)).
    { eapply sameFile_trans; [exact S1|]. eapply sameFile_trans; [exact B|].
      destruct f2; repeat split. }
    destruct rerr as [er|].
    + injection H as <- <- <-. split; [exact R2|].
      destruct (0 <? total + Z.of_nat (length b)); destruct f2; cbn in *; auto.
    + pose proof S2 as (S21 & S22 & S23 & S24 & S25).
      assert (A1 : file (set_lock false f2) = d) by congruence.
      assert (A2 : lines (set_lock false f2) = c) by congruence.
      assert (A3 : Name (set_lock false f2) = name) by congruence.
      assert (A4 : regular (set_lock false f2) = reg) by congruence.
      destruct (IH _ _ _ _ _ _ A1 A2 A3 A4 H) as (A' & B' & L).
      split; [exact (run_trans _ _ _ _ _ R2 A')|].
      split; [exact (sameFile_trans _ _ _ S2 B')|exact L].
Qed.

End Regular.
End WithP.


Lemma iter_bump (n : nat) (k : string) (m : gmap string Z) :
  default 0 (Nat.iter n (bump k) m !! k) = default 0 (m !! k) + Z.of_nat n /\
  (forall k', k' <> k -> Nat.iter n (bump k) m !! k' = m !! k').
Proof.
  induction n as [|n [IH1 IH2]].
  { cbn [Nat.iter nat_rect]. split; [change (Z.of_nat 0) with 0; lia|auto]. }
  rewrite Nat.iter_succ. unfold bump at 1 3. split.
  - rewrite lookup_insert_eq. cbn [default id]. rewrite IH1. lia.
  - intros k' Hne. rewrite lookup_insert_ne by congruence. auto.
Qed.

(** X8.  On a named pipe [Read] only reads the descriptor, sends on the
    file's channel and sleeps: it never seeks and never stats, whatever
    the reads return. *)
Theorem X8_Read_on_pipe_never_seeks
    (fuel : nat) (f f' : File) (e e' : Env W) (err : error) :
  regular f = false ->
  Read fuel f e = Some (err, f', e') ->
  exists t, trace e' = trace e ++ t /\
    Forall (fun ev => match ev with
                      | EvRead d _ _ => d = file f
                      | EvSend c l => c = lines f /\ Filename l = Name f
                      | EvSleep _ => True
                      | _ => False
                      end) t.
Proof.
  intros Hreg H. unfold Read in H.
  set (P := allowed (file f) (lines f) (Name f) false).
  assert (Ps : forall l, P (EvSend (lines f) (mkLogLine (Name f) l))) by (intros; cbn; auto).
  assert (Pz : forall t, P (EvSleep t)) by (intros; exact I).
  assert (Pr : forall b er, P (EvRead (file f) b er)) by (intros; reflexivity).
  assert (Pk : false = true -> forall off wh r, P (EvSeek (file f) off wh r)) by discriminate.
  assert (Pf : false = true -> forall ok, P (EvFstat (file f) ok)) by discriminate.
  destruct (ReadLoop_run P (file f) (lines f) (Name f) Ps Pz Pr false Pk Pf
              fuel 0 f e err f' e' eq_refl eq_refl eq_refl Hreg H)
    as ((t & T & F & _) & _).
  exists t. split; [exact T|]. eapply Forall_impl; [exact F|].
  intros [] Ha; cbn in *; auto; destruct Ha; discriminate.
Qed.

(** X9.  Whenever [Read] returns, after any number of chunks and restarts,
    it has released the lock, the file has the descriptor, the channel and
    the names it had, every line sent went to that channel under the
    file's name, and [log_lines_total] for the name has grown by exactly
    the number of lines sent, the other names' counts standing. *)
Theorem X9_Read_counts_lines_and_releases_lock
    (fuel : nat) (f f' : File) (e e' : Env W) (err : error) :
  Read fuel f e = Some (err, f', e') ->
  lock f' = false /\ sameFile f f' /\
  exists t, trace e' = trace e ++ t /\
    Forall (fun l => Filename l = Name f) (sentLines t) /\
    Forall (fun ev => match ev with EvSend c _ => c = lines f | _ => True end) t /\
    default 0 (lineCount e' !! Name f)
      = default 0 (lineCount e !! Name f) + Z.of_nat (length (sentLines t)) /\
    (forall k, k <> Name f -> lineCount e' !! k = lineCount e !! k).
Proof.
  intros H. unfold Read in H.
  set (P := allowed (file f) (lines f) (Name f) (regular f)).
  assert (Ps : forall l, P (EvSend (lines f) (mkLogLine (Name f) l))) by (intros; cbn; auto).
  assert (Pz : forall t, P (EvSleep t)) by (intros; exact I).
  assert (Pr : forall b er, P (EvRead (file f) b er)) by (intros; reflexivity).
  assert (Pk : regular f = true -> forall off wh r, P (EvSeek (file f) off wh r))
    by (intros; cbn; auto).
  assert (Pf : regular f = true -> forall ok, P (EvFstat (file f) ok))
    by (intros; cbn; auto).
  destruct (ReadLoop_run P (file f) (lines f) (Name f) Ps Pz Pr (regular f) Pk Pf
              fuel 0 f e err f' e' eq_refl eq_refl eq_refl eq_refl H)
    as ((t & T & F & C) & SF & L).
  split; [exact L|]. split; [exact SF|]. exists t. split; [exact T|].
  destruct (iter_bump (length (sentLines t)) (Name f) (lineCount e)) as [I1 I2].
  rewrite C. repeat split; auto.
  - clear T C I1 I2. induction F as [|ev t Hev F IH]; [constructor|].
    destruct ev; cbn in *; auto. constructor; [apply Hev|exact IH].
  - eapply Forall_impl; [exact F|]. intros [] Ha; cbn in *; auto. apply Ha.
Qed.


Section Following.
Variable c : chanref.
Variable name : string.

Lemma openRetry_run (n : nat) (delay : Z) (path : string) (sb : bool) (e : Env W) :
  run (followEv c name) name e (openRetry n delay path sb e).2.
Proof.
  revert delay e. induction n as [|n IH]; intros delay e; cbn [openRetry];
    unfold os_OpenFile; destruct (sys_open path (world e)) as [r w];
    (assert (R0 : run (followEv c name) name e (emit (EvOpen path r) (set_world w e)))
       by (eapply run_call; [reflexivity|reflexivity|exact I|discriminate])).
  - destruct r as [d|err]; [exact R0|].
    destruct (if negb sb then false else 0 <? Z.of_nat 0); exact R0.
  - destruct r as [d|err]; [exact R0|].
    destruct (if negb sb then false else 0 <? Z.of_nat (Datatypes.S n)); [|exact R0].
    eapply run_trans; [|apply IH]. eapply run_trans; [exact R0|].
    eapply run_call; [reflexivity|reflexivity|exact I|discriminate].
Qed.

Lemma Read_run (fuel : nat) (f f' : File) (e e' : Env W) (err : error) :
  lines f = c -> Name f = name ->
  Read fuel f e = Some (err, f', e') ->
  run (followEv c name) name e e' /\ sameFile f f' /\ lock f' = false.
Proof.
  intros Hc Hn H. unfold Read in H.
  assert (Ps : forall l, followEv c name (EvSend c (mkLogLine name l)))
    by (intros; cbn; auto).
  assert (Pz : forall t, followEv c name (EvSleep t)) by (intros; exact I).
  assert (Pr : forall b er, followEv c name (EvRead (file f) b er)) by (intros; exact I).
  assert (Pk : regular f = true -> forall off wh r,
                followEv c name (EvSeek (file f) off wh r)) by (intros; exact I).
  assert (Pf : regular f = true -> forall ok, followEv c name (EvFstat (file f) ok))
    by (intros; exact I).
  exact (ReadLoop_run _ (file f) c name Ps Pz Pr (regular f) Pk Pf
           fuel 0 f e err f' e' eq_refl Hc Hn eq_refl H).
Qed.

Lemma doRotation_run (fuel : nat) (f f' : File) (e e' : Env W) (r : option error) :
  lines f = c -> Name f = name ->
  doRotation fuel f e = Some (r, f', e') ->
  run (followEv c name) name e e' /\ lines f' = c /\ Name f' = name /\
  Pathname f' = Pathname f.
Proof.
  intros Hc Hn H. unfold doRotation in H.
  destruct (Read fuel f e) as [[[er f1] e1]|] eqn:HR; [|discriminate].
  destruct (Read_run _ _ _ _ _ _ Hc Hn HR) as (R1 & (S1 & S2 & S3 & S4 & S5) & _).
  unfold open in H.
  pose proof (openRetry_run 3 (1 * Millisecond) (Pathname f1) true
                (logRotations_Add (Name f1) e1)) as R2.
  destruct (openRetry 3 (1 * Millisecond) (Pathname f1) true
              (logRotations_Add (Name f1) e1)) as [ro e2].
  cbn [snd] in R2.
  assert (R : run (followEv c name) name e e2).
  { eapply run_trans; [exact R1|]. destruct R2 as (t & T & F & C). exists t. auto. }
  destruct ro as [nf|er']; injection H as <- <- <-;
    (split; [exact R|]); destruct f1; cbn in *; repeat split; congruence.
Qed.

Lemma Follow_run (fuel : nat) (f f' : File) (e e' : Env W) (r : option error) :
  lines f = c -> Name f = name ->
  Follow fuel f e = Some (r, f', e') ->
  run (followEv c name) name e e'.
Proof.
  intros Hc Hn H. unfold Follow, file_Stat, os_Stat in H.
  destruct (sys_fstat (file f) (world e)) as [r1 w1].
  set (e1 := emit (EvFstat (file f) (isOk r1)) (set_world w1 e)) in *.
  assert (R1 : run (followEv c name) name e e1)
    by (eapply run_call; [reflexivity|reflexivity|exact I|discriminate]).
  assert (First : exists ra fa ea,
    match r1 with inl _ => Some (None, f, e1) | inr _ => doRotation fuel f e1 end
      = Some (ra, fa, ea) /\
    run (followEv c name) name e ea /\ lines fa = c /\ Name fa = name).
  { destruct r1 as [fi|er].
    - exists None, f, e1. auto.
    - destruct (doRotation fuel f e1) as [[[ra fa] ea]|] eqn:HD; [|discriminate].
      destruct (doRotation_run _ _ _ _ _ _ Hc Hn HD) as (A & B & C & _).
      exists ra, fa, ea. split; [reflexivity|]. split; [|auto].
      eapply run_trans; [exact R1|exact A]. }
  destruct First as (ra & fa & ea & E1 & Ra & Hca & Hna). rewrite E1 in H.
  destruct ra as [er|]; [injection H as <- <- <-; exact Ra|].
  destruct (sys_stat (Pathname fa) (world ea)) as [r2 w2].
  set (e2 := emit (EvStat (Pathname fa) (isOk r2)) (set_world w2 ea)) in *.
  assert (R2 : run (followEv c name) name e e2).
  { eapply run_trans; [exact Ra|].
    eapply run_call; [reflexivity|reflexivity|exact I|discriminate]. }
  destruct r2 as [s2|er]; [|injection H as <- <- <-; exact R2].
  assert (Second : exists rb fb eb,
    (if negb (SameFile match r1 with inl fi => Some fi | inr _ => None end (Some s2))
     then doRotation fuel fa e2 else Some (None, fa, e2)) = Some (rb, fb, eb) /\
    run (followEv c name) name e eb /\ lines fb = c /\ Name fb = name).
  { destruct (negb _).
    - destruct (doRotation fuel fa e2) as [[[rb fb] eb]|] eqn:HD; [|discriminate].
      destruct (doRotation_run _ _ _ _ _ _ Hca Hna HD) as (A & B & C & _).
      exists rb, fb, eb. split; [reflexivity|]. split; [|auto].
      eapply run_trans; [exact R2|exact A].
    - exists None, fa, e2. auto. }
  destruct Second as (rb & fb & eb & E2 & Rb & Hcb & Hnb). rewrite E2 in H.
  destruct rb as [er|]; [injection H as <- <- <-; exact Rb|].
  destruct (negb (lock fb)); [|injection H as <- <- <-; exact Rb].
  destruct (Read fuel fb eb) as [[[er f3] e3]|] eqn:HR; [|discriminate].
  injection H as <- <- <-.
  destruct (Read_run _ _ _ _ _ _ Hcb Hnb HR) as (A & _).
  eapply run_trans; [exact Rb|exact A].
Qed.

End Following.

(** X3.  [Follow] never closes a descriptor: neither on the plain read
    path nor when it rotates, where [doRotation] puts the newly opened
    descriptor in place of the old one and the old one stays open. *)
Theorem X3_Follow_never_closes
    (fuel : nat) (f f' : File) (e e' : Env W) (r : option error) :
  Follow fuel f e = Some (r, f', e') ->
  exists t, trace e' = trace e ++ t /\
    Forall (fun ev => match ev with EvClose _ => False | _ => True end) t.
Proof.
  intros H.
  destruct (Follow_run (lines f) (Name f) fuel f f' e e' r eq_refl eq_refl H)
    as (t & T & F & _).
  exists t. split; [exact T|]. eapply Forall_impl; [exact F|].
  intros [] Ha; cbn in *; auto.
Qed.

(** X4.  Through a whole [Follow], rotations and reopenings included, the
    lines sent all go to the file's channel under the file's name, and
    [log_lines_total] for that name grows by exactly their number while
    the counts of other names stand. *)
Theorem X4_Follow_counts_every_line_sent
    (fuel : nat) (f f' : File) (e e' : Env W) (r : option error) :
  Follow fuel f e = Some (r, f', e') ->
  exists t, trace e' = trace e ++ t /\
    Forall (fun l => Filename l = Name f) (sentLines t) /\
    Forall (fun ev => match ev with EvSend c _ => c = lines f | _ => True end) t /\
    default 0 (lineCount e' !! Name f)
      = default 0 (lineCount e !! Name f) + Z.of_nat (length (sentLines t)) /\
    (forall k, k <> Name f -> lineCount e' !! k = lineCount e !! k).
Proof.
  intros H.
  destruct (Follow_run (lines f) (Name f) fuel f f' e e' r eq_refl eq_refl H)
    as (t & T & F & C).
  exists t. split; [exact T|].
  destruct (iter_bump (length (sentLines t)) (Name f) (lineCount e)) as [I1 I2].
  rewrite C. repeat split; auto.
  - clear T C I1 I2. induction F as [|ev t Hev F IH]; [constructor|].
    destruct ev; cbn in *; auto. constructor; [apply Hev|exact IH].
  - eapply Forall_impl; [exact F|]. intros [] Ha; cbn in *; auto. apply Ha.
Qed.


Lemma failedOpens_app (t u : list Effect) :
  failedOpens (t ++ u) = failedOpens t + failedOpens u.
Proof.
  induction t as [|ev t IH]; [reflexivity|].
  cbn [app failedOpens]. destruct ev as [p [d|er]| | | | | | |]; rewrite ?IH; lia.
Qed.

Lemma openRetry_counts (n : nat) (delay : Z) (path : string) (sb : bool) (e : Env W) :
  exists t,
    trace (openRetry n delay path sb e).2 = trace e ++ t /\
    default 0 (logErrors (openRetry n delay path sb e).2 !! path)
      = default 0 (logErrors e !! path) + failedOpens t /\
    (forall k, k <> path ->
       logErrors (openRetry n delay path sb e).2 !! k = logErrors e !! k) /\
    (isOk (openRetry n delay path sb e).1 = true -> 0 <= failedOpens t <= Z.of_nat n) /\
    (isOk (openRetry n delay path sb e).1 = false ->
       failedOpens t = if sb then 1 + Z.of_nat n else 1) /\
    (sb = false -> 0 <= failedOpens t <= 1).
Proof.
  revert delay e. induction n as [|n IH]; intros delay e; cbn [openRetry];
    unfold os_OpenFile; destruct (sys_open path (world e)) as [r w].
  - exists [EvOpen path r]. destruct r as [d|er].
    + cbn. rewrite Z.add_0_r. repeat split; auto; try lia; try discriminate.
    + replace (if negb sb then false else 0 <? Z.of_nat 0) with false
        by (destruct sb; reflexivity).
      cbn [fst snd trace emit set_world logErrors logErrors_Add isOk failedOpens].
      unfold bump. rewrite lookup_insert_eq. cbn [default id].
      repeat split; try lia; try discriminate.
      * intros k Hk. apply lookup_insert_ne. congruence.
      * destruct sb; reflexivity.
  - destruct r as [d|er].
    + exists [EvOpen path (inl d)]. cbn. rewrite Z.add_0_r.
      repeat split; auto; try lia; try discriminate.
    + destruct sb.
      * cbn [negb]. replace (0 <? Z.of_nat (Datatypes.S n)) with true
          by (symmetry; apply Z.ltb_lt; lia).
        match goal with |- context [openRetry n ?dl path true ?e0] =>
          destruct (IH dl e0) as (t & T & C & O & A & B & _);
          destruct (openRetry n dl path true e0) as [r' e'] end.
        cbn [fst snd] in *.
        exists (EvOpen path (inr er) :: EvSleep delay :: t).
        cbn [trace emit set_world time_Sleep logErrors_Add world logErrors] in *.
        split; [rewrite T, <- !app_assoc; reflexivity|].
        unfold bump in C, O. rewrite lookup_insert_eq in C. cbn [default id] in C.
        split; [rewrite C; cbn [failedOpens]; lia|].
        split; [intros k Hk; rewrite O by exact Hk; apply lookup_insert_ne; congruence|].
        cbn [failedOpens].
        split; [intros Hok; specialize (A Hok); lia|].
        split; [intros Hok; specialize (B Hok); cbv iota in *; lia|]. discriminate.
      * cbn [negb]. exists [EvOpen path (inr er)].
        cbn [fst snd trace emit set_world logErrors logErrors_Add isOk failedOpens].
        unfold bump. rewrite lookup_insert_eq. cbn [default id].
        repeat split; try lia; try discriminate.
        intros k Hk. apply lookup_insert_ne. congruence.
Qed.

(** X2.  [open] counts every failed attempt under the path in
    [log_errors_total] and touches no other name's count: nothing for an
    open that succeeds at once, one for a first open that fails, four
    for a reopen after rotation that fails to the end, and at most three
    for a reopen that succeeds. *)
Theorem X2_open_counts_failed_attempts (path : string) (seenBefore : bool) (e : Env W) :
  exists t,
    trace (open path seenBefore e).2 = trace e ++ t /\
    default 0 (logErrors (open path seenBefore e).2 !! path)
      = default 0 (logErrors e !! path) + failedOpens t /\
    (forall k, k <> path ->
       logErrors (open path seenBefore e).2 !! k = logErrors e !! k) /\
    (isOk (open path seenBefore e).1 = true -> 0 <= failedOpens t <= 3) /\
    (isOk (open path seenBefore e).1 = false ->
       failedOpens t = if seenBefore then 4 else 1) /\
    (seenBefore = false -> 0 <= failedOpens t <= 1).
Proof. unfold open. exact (openRetry_counts 3 _ path seenBefore e). Qed.

(** X1.  When [NewFile] fails after its open has succeeded (the stat fails,
    the seek fails, or the mode is neither regular nor a named pipe) it
    returns the error with the descriptor still open: after the open it
    has made only the stat and at most one seek on that descriptor, no
    close. *)
Theorem X1_NewFile_failure_leaves_descriptor_open
    (pathname absPath : string) (lines : chanref) (seekToStart : bool)
    (e e1 e' : Env W) (d : fd) (err : error) :
  sys_abs pathname (world e) = inl absPath ->
  open absPath false e = (inl d, e1) ->
  NewFile pathname lines seekToStart e = (inr err, e') ->
  trace e1 = trace e ++ [EvOpen absPath (inl d)] /\
  exists t, trace e' = trace e1 ++ t /\
    (1 <= length t <= 2)%nat /\
    Forall (fun ev => match ev with
                      | EvFstat d' _ => d' = d
                      | EvSeek d' _ _ _ => d' = d
                      | _ => False
                      end) t.
Proof.
  intros Ha Ho H. split.
  - revert Ho. unfold open. cbn [openRetry negb]. unfold os_OpenFile.
    destruct (sys_open absPath (world e)) as [[d0|er] w]; [|discriminate].
    intros E. injection E as <- <-. reflexivity.
  - unfold NewFile in H. rewrite Ha, Ho in H. unfold file_Stat, file_Seek in H.
    destruct (sys_fstat d (world e1)) as [[fi|er] w2].
    + cbn [world emit set_world isOk] in H.
      destruct (IsRegular (st_mode fi)).
      * destruct (sys_seek d 0 _ w2) as [[p|er] w3]; [discriminate|].
        injection H as <- <-. eexists [_; _]. split; [cbn; rewrite <- app_assoc; reflexivity|].
        split; [cbn; lia|]. repeat constructor.
      * destruct (Z.land (st_mode fi) ModeType =? ModeNamedPipe); [discriminate|].
        injection H as <- <-. eexists [_]. split; [reflexivity|].
        split; [cbn; lia|]. repeat constructor.
    + injection H as <- <-. eexists [_]. split; [reflexivity|].
      split; [cbn; lia|]. repeat constructor.
Qed.

End Generic.
(** ** Runs *)

Import MemOS Examples.

(** [NewFile("/tmp")]: the directory opens, and is refused for its mode
    with descriptor 0 left open. *)
Lemma X1_witness :
  exists (d : fd) (e1 e' : Env OS) (err : error),
    open "/tmp" false (env0 disk) = (inl d, e1) /\
    NewFile "/tmp" 7%nat false (env0 disk) = (inr err, e') /\
    trace e1 = trace (env0 disk) ++ [EvOpen "/tmp" (inl d)] /\
    exists t, trace e' = trace e1 ++ t /\
      (1 <= length t <= 2)%nat /\
      Forall (fun ev => match ev with
                        | EvFstat d' _ => d' = d
                        | EvSeek d' _ _ _ => d' = d
                        | _ => False
                        end) t.
Proof.
  destruct (open "/tmp" false (env0 disk)) as [[d|er] e1] eqn:Ho;
    [|vm_compute in Ho; discriminate].
  destruct (NewFile "/tmp" 7%nat false (env0 disk)) as [[f|err] e'] eqn:Hn;
    [vm_compute in Hn; discriminate|].
  exists d, e1, e', err. split; [reflexivity|]. split; [reflexivity|].
  exact (X1_NewFile_failure_leaves_descriptor_open "/tmp" "/tmp" 7%nat false
           (env0 disk) e1 e' d err eq_refl Ho Hn).
Defined.

(** A pass over the pipe, which has nothing to give. *)
Lemma X8_witness :
  regular openedPipe.1 = false /\
  exists err f' e',
    Read 3 openedPipe.1 openedPipe.2 = Some (err, f', e') /\
    exists t, trace e' = trace openedPipe.2 ++ t /\
      Forall (fun ev => match ev with
                        | EvRead d _ _ => d = file openedPipe.1
                        | EvSend c l => c = lines openedPipe.1 /\ Filename l = Name openedPipe.1
                        | EvSleep _ => True
                        | _ => False
                        end) t.
Proof.
  assert (H : regular openedPipe.1 = false) by reflexivity.
  split; [exact H|].
  destruct (Read 3 openedPipe.1 openedPipe.2) as [[[err f'] e']|] eqn:HR;
    [|vm_compute in HR; discriminate].
  exists err, f', e'. split; [reflexivity|].
  exact (X8_Read_on_pipe_never_seeks 3 openedPipe.1 f' openedPipe.2 e' err H HR).
Defined.

(** Two lines and a half appended to [a.log], then a pass. *)
Lemma X9_witness :
  exists err f' e',
    Read 3 opened.1 (appended (bytes "one" ++ [Byte.x0a] ++ bytes "two" ++ [Byte.x0a] ++ bytes "thr"))
      = Some (err, f', e') /\
    lock f' = false /\ sameFile opened.1 f' /\
    length (sentLines (trace e')) = 2%nat /\
    lineCount e' !! "a.log" = Some 2.
Proof.
  set (e := appended _).
  destruct (Read 3 opened.1 e) as [[[err f'] e']|] eqn:HR;
    [|vm_compute in HR; discriminate].
  exists err, f', e'. split; [reflexivity|].
  destruct (X9_Read_counts_lines_and_releases_lock 3 opened.1 f' e e' err HR)
    as (L & SF & _).
  split; [exact L|]. split; [exact SF|].
  vm_compute in HR. injection HR as <- <- <-. split; reflexivity.
Defined.


(** The stale descriptor of [C2]: [Follow] rotates and reads, and closes
    nothing. *)
Lemma X3_witness :
  exists r f' e',
    Follow 10 stale (env0 disk) = Some (r, f', e') /\
    exists t, trace e' = trace (env0 disk) ++ t /\
      Forall (fun ev => match ev with EvClose _ => False | _ => True end) t.
Proof.
  destruct (Follow 10 stale (env0 disk)) as [[[r f'] e']|] eqn:HF;
    [|vm_compute in HF; discriminate].
  exists r, f', e'. split; [reflexivity|].
  exact (X3_Follow_never_closes 10 stale f' (env0 disk) e' r HF).
Defined.

Lemma X4_witness :
  exists r f' e',
    Follow 10 opened.1 (rotated (bytes "ta") (bytes "il" ++ [Byte.x0a] ++ bytes "new" ++ [Byte.x0a]))
      = Some (r, f', e') /\
    exists t, trace e' = trace opened.2 ++ t /\
      Forall (fun l => Filename l = "a.log") (sentLines t) /\
      Forall (fun ev => match ev with EvSend c _ => c = 7%nat | _ => True end) t /\
      default 0 (lineCount e' !! "a.log")
        = 0 + Z.of_nat (length (sentLines t)) /\
      (forall k, k <> "a.log" -> lineCount e' !! k = None).
Proof.
  set (e := rotated _ _).
  destruct (Follow 10 opened.1 e) as [[[r f'] e']|] eqn:HF;
    [|vm_compute in HF; discriminate].
  exists r, f', e'. split; [reflexivity|].
  exact (X4_Follow_counts_every_line_sent 10 opened.1 f' e e' r HF).
Defined.

End TraceSpec.

(** * Read passes over the in-memory file system *)

Module ReadSpec.
Import utf8 utf8Spec Tailer MemOS LinesSpec TailerSpec.

Lemma tailing_tick d n pos data w : tailing d n pos data w -> tick w = Some w.
Proof. intros (B & _). unfold tick. rewrite B. reflexivity. Qed.

Lemma tailing_getDesc d n pos data w :
  tailing d n pos data w ->
  exists nd, getDesc d w = Some (mkDesc n pos, nd) /\
             IsRegular (n_mode nd) = true /\ n_data nd = data.
Proof.
  intros (_ & D & nd & N & R & E). exists nd. unfold getDesc. rewrite D. cbn [d_node].
  rewrite N. auto.
Qed.

Lemma tailing_move d n pos pos' data w :
  tailing d n pos data w ->
  tailing d n pos' data (set_descs (<[d := Some (mkDesc n pos')]> (descs w)) w).
Proof.
  intros (B & D & nd & N & R & E). split; [exact B|]. split.
  - cbn [descs set_descs]. apply list_lookup_insert_eq. eapply lookup_lt_Some. exact D.
  - exists nd. auto.
Qed.

Lemma moved_refl d w : moved d w w.
Proof. repeat split. Qed.

Lemma moved_trans d w w1 w2 : moved d w w1 -> moved d w1 w2 -> moved d w w2.
Proof.
  intros (A1 & A2 & A3 & A4) (B1 & B2 & B3 & B4).
  repeat split; try congruence. intros d' Hd. rewrite B4, A4 by exact Hd. reflexivity.
Qed.

Lemma moved_insert d x w : moved d w (set_descs (<[d := x]> (descs w)) w).
Proof.
  repeat split; cbn [descs set_descs].
  - apply length_insert.
  - intros d' Hd. apply list_lookup_insert_ne. congruence.
Qed.

Lemma passed_refl d (e : Env OS) : passed d e e.
Proof. split; [apply moved_refl|reflexivity]. Qed.

Lemma passed_trans d (e e1 e2 : Env OS) : passed d e e1 -> passed d e1 e2 -> passed d e e2.
Proof.
  intros [A1 A2] [B1 B2]. split; [eapply moved_trans; eassumption|congruence].
Qed.

Lemma sendAll_logTruncs name c ls (e : Env OS) :
  logTruncs (sendAll name c ls e) = logTruncs e.
Proof.
  revert e. induction ls as [|l ls IH]; intros e; cbn; [reflexivity|]. rewrite IH. reflexivity.
Qed.

Lemma drop_take_length {A} (k : nat) (l : list A) :
  drop (length (take k l)) l = drop k l.
Proof.
  rewrite length_take. destruct (Nat.le_gt_cases k (length l)).
  - rewrite Nat.min_l by lia. reflexivity.
  - rewrite Nat.min_r by lia. rewrite !drop_ge by lia. reflexivity.
Qed.

Lemma chunkLen_pos : (0 < chunkLen)%nat.
Proof. unfold chunkLen. lia. Qed.

Lemma take_chunk_cons {A} (c : A) (l : list A) :
  take chunkLen (c :: l) = c :: take (Nat.pred chunkLen) l.
Proof. pose proof chunkLen_pos. destruct chunkLen; [lia|reflexivity]. Qed.

Lemma mem_read_tailing d n pos data w :
  tailing d n pos data w ->
  exists w',
    mem_read d 4096 w =
      ((take chunkLen (drop pos data),
        match take chunkLen (drop pos data) with [] => Some EOF | _ => None end), w') /\
    tailing d n (pos + length (take chunkLen (drop pos data))) data w' /\
    moved d w w'.
Proof.
  intros T. destruct (tailing_getDesc _ _ _ _ _ T) as (nd & G & R & E).
  unfold mem_read. rewrite (tailing_tick _ _ _ _ _ T), G. cbn [d_pos d_node].
  rewrite E. change (Z.to_nat 4096) with chunkLen.
  destruct (take chunkLen (drop pos data)) as [|c b] eqn:Hb.
  - exists w. split; [reflexivity|]. cbn [length]. rewrite Nat.add_0_r.
    split; [exact T|apply moved_refl].
  - eexists. split; [reflexivity|].
    split; [apply (tailing_move _ _ pos); exact T|apply moved_insert].
Qed.

Lemma checkForTruncate_tailing (f : File) (e : Env OS) n pos data :
  tailing (file f) n pos data (world e) -> (pos <= length data)%nat ->
  exists e',
    checkForTruncate f e = ((false, None), f, e') /\
    tailing (file f) n pos data (world e') /\
    sentLines (trace e') = sentLines (trace e) /\
    passed (file f) e e'.
Proof.
  intros T Hpos. destruct (tailing_getDesc _ _ _ _ _ T) as (nd & G & R & E).
  unfold checkForTruncate, file_Seek. cbn [sys_seek memSys]. unfold mem_seek.
  rewrite (tailing_tick _ _ _ _ _ T), G, R. cbn [d_pos d_node].
  destruct (Z.ltb_spec (Z.of_nat pos + 0) 0) as [?|_]; [lia|].
  replace (Z.to_nat (Z.of_nat pos + 0)) with pos by lia.
  pose proof (tailing_move _ _ _ pos _ _ T) as T'.
  destruct (tailing_getDesc _ _ _ _ _ T') as (nd' & G' & R' & E').
  unfold file_Stat. cbn [sys_fstat memSys world set_world emit]. unfold mem_fstat.
  rewrite (tailing_tick _ _ _ _ _ T'), G'.
  cbn [st_size infoOf]. rewrite E'.
  replace ((Z.of_nat pos + 0 =? 0) || (Z.of_nat pos + 0 <=? Z.of_nat (length data)))
    with true.
  2:{ symmetry. apply orb_true_iff. right. apply Z.leb_le. lia. }
  eexists. split; [reflexivity|]. split; [exact T'|]. split.
  - cbn [trace emit set_world]. rewrite !sentLines_app. cbn. rewrite !app_nil_r.
    reflexivity.
  - split; [|reflexivity]. cbn [world emit set_world]. apply moved_insert.
Qed.

Lemma afterRead_tailing total (f : File) (e : Env OS) n pos data :
  tailing (file f) n pos data (world e) ->
  exists e0,
    afterRead total f e =
      (take chunkLen (drop pos data),
       match take chunkLen (drop pos data) with [] => Some EOF | _ => None end,
       set_lock true f, e0) /\
    tailing (file f) n (pos + length (take chunkLen (drop pos data))) data (world e0) /\
    sentLines (trace e0) = sentLines (trace e) /\
    passed (file f) e e0.
Proof.
  intros T. unfold afterRead. cbn [sys_deadline sys_read memSys mem_deadline snd].
  destruct (mem_read_tailing _ _ _ _ _ T) as (w' & -> & T' & M).
  cbn [fst snd]. eexists. split; [reflexivity|]. split; [exact T'|]. split.
  - cbn [trace emit set_world]. rewrite sentLines_app. cbn. rewrite app_nil_r.
    reflexivity.
  - split; [exact M|reflexivity].
Qed.


(** A pass reads everything behind the offset, chunk by chunk, and stops at
    the end of the file. *)
Lemma ReadLoop_tailing (fuel : nat) :
  forall (m : nat) (total : Z) (f : File) (e : Env OS) (n pos : nat) (data : list byte),
  regular f = true -> partialLock f = false ->
  tailing (file f) n pos data (world e) ->
  (pos <= length data)%nat ->
  Forall (fun c => Valid c = true) (chunksOf m (drop pos data)) ->
  (length (drop pos data) <= m)%nat ->
  (length (drop pos data) < fuel)%nat ->
  exists f' e',
    ReadLoop fuel total f e = Some (EOF, f', e') /\
    (Name f' = Name f /\ lines f' = lines f /\ file f' = file f /\
     regular f' = true /\ partialLock f' = false /\ lock f' = false /\
     Pathname f' = Pathname f) /\
    partial f' = (splitLines (partial f) (drop pos data)).2 /\
    sentLines (trace e') =
      sentLines (trace e) ++
      map (mkLogLine (Name f)) (splitLines (partial f) (drop pos data)).1 /\
    tailing (file f) n (length data) data (world e') /\
    passed (file f) e e'.
Proof.
  induction fuel as [|k IH]; intros m total f e n pos data Hreg Hl T Hpos Hv Hm Hfuel;
    [lia|].
  rewrite ReadLoop_step.
  destruct (afterRead_tailing total f e n pos data T) as (e0 & -> & T0 & Hs0 & P0).
  destruct (drop pos data) as [|c rest'] eqn:Hrest.
  - (* nothing left: end of file *)
    assert (pos = length data) as ->.
    { apply (f_equal length) in Hrest. rewrite length_drop in Hrest. cbn in Hrest. lia. }
    rewrite take_nil in *. cbn [length] in *.
    rewrite Nat.add_0_r in T0. unfold afterCheck. cbn [regular set_lock length].
    rewrite Hreg, andb_true_r, Z.add_0_r.
    assert (exists e1,
      (if total =? 0 then checkForTruncate (set_lock true f) e0
       else ((false, None), set_lock true f, e0)) = ((false, None), set_lock true f, e1) /\
      tailing (file f) n (length data) data (world e1) /\
      sentLines (trace e1) = sentLines (trace e) /\
      passed (file f) e e1) as (e1 & -> & T1 & Hs1 & P1).
    { destruct (total =? 0).
      - destruct (checkForTruncate_tailing (set_lock true f) e0 n (length data) data T0)
          as (e1 & E1 & T1 & Hs1 & P1); [lia|].
        exists e1. rewrite E1. split; [reflexivity|]. split; [exact T1|].
        split; [congruence|]. eapply passed_trans; [exact P0|exact P1].
      - exists e0. split; [reflexivity|]. split; [exact T0|]. split; [exact Hs0|exact P0]. }
    cbn [decodeRunes fst snd splitLines map]. rewrite app_nil_r.
    eexists _, e1. split; [reflexivity|].
    split; [destruct (0 <? total); destruct f; cbn in *; repeat split; auto|].
    split; [destruct (0 <? total); destruct f; reflexivity|].
    split; [exact Hs1|]. split; [exact T1|exact P1].
  - (* a chunk *)
    destruct m as [|m']; [cbn in Hm; lia|].
    cbn [chunksOf] in Hv.
    assert (Hcut : c :: rest' = take chunkLen (c :: rest') ++ drop chunkLen (c :: rest'))
      by (symmetry; apply take_drop).
    assert (Hdrop : drop (pos + length (take chunkLen (c :: rest'))) data
                    = drop chunkLen (c :: rest')).
    { rewrite <- drop_drop, Hrest. apply drop_take_length. }
    assert (Hlen : (length (drop chunkLen (c :: rest')) <= length rest')%nat).
    { rewrite length_drop. cbn [length]. pose proof chunkLen_pos. lia. }
    assert (Hpos2 : (pos + length (take chunkLen (c :: rest')) <= length data)%nat).
    { apply (f_equal length) in Hrest. rewrite length_drop in Hrest.
      rewrite length_take. cbn [length] in *. lia. }
    assert (Hb : take chunkLen (c :: rest') <> [])
      by (rewrite take_chunk_cons; discriminate).
    revert Hv Hcut Hdrop Hlen Hpos2 Hb T0.
    generalize (drop chunkLen (c :: rest')) as rest2.
    generalize (take chunkLen (c :: rest')) as b.
    intros b rest2 Hv Hcut Hdrop Hlen Hpos2 Hb T0.
    destruct b as [|c' b']; [contradiction|].
    set (b := c' :: b') in *. clearbody b.
    unfold afterCheck.
    apply Forall_cons in Hv as [Hvb Hvrest]. unfold Valid in Hvb.
    rewrite (decodeRunes_valid (length b) b (set_lock true f) e0 (le_n _) Hvb Hl).
    cbn [fst snd].
    set (f2 := set_lock false _). set (e2 := sendAll _ _ _ _).
    assert (T2 : tailing (file f2) n (pos + length b) data (world e2)).
    { unfold e2. rewrite sendAll_world. exact T0. }
    assert (P2 : passed (file f) e e2).
    { eapply passed_trans; [exact P0|]. unfold e2. split.
      - rewrite sendAll_world. apply moved_refl.
      - apply sendAll_logTruncs. }
    destruct (IH m' (total + Z.of_nat (length b)) f2 e2 n (pos + length b)%nat data)
      as (f' & e' & -> & (A1 & A2 & A3 & A4 & A5 & A6 & A7) & Hp & Hs & T' & P');
      [destruct f; exact Hreg | destruct f; exact Hl | exact T2 | exact Hpos2
      | rewrite Hdrop; exact Hvrest
      | rewrite Hdrop; cbn [length] in Hm; lia
      | rewrite Hdrop; cbn [length] in Hfuel; lia |].
    exists f', e'. split; [reflexivity|].
    rewrite Hdrop in Hp, Hs. rewrite Hcut. rewrite splitLines_app. cbn [fst snd].
    split; [destruct f; cbn in *; repeat split; auto|].
    split; [destruct f; exact Hp|].
    split.
    { rewrite Hs. unfold e2. rewrite sendAll_sent, Hs0, map_app, <- app_assoc.
      destruct f; reflexivity. }
    split; [destruct f; exact T'|].
    eapply passed_trans; [exact P2|]. destruct f; exact P'.
Qed.


Lemma tailing_append d n pos data p w :
  tailing d n pos data w -> tailing d n pos (data ++ p) (append n p w).
Proof.
  intros (B & D & nd & N & R & E). split; [exact B|]. split; [exact D|].
  exists (mkNode (n_dev nd) (n_ino nd) (n_mode nd) (n_data nd ++ p)).
  cbn [nodes append set_nodes]. rewrite list_lookup_alter_eq, N. cbn.
  repeat split; [exact R | rewrite E; reflexivity].
Qed.

Lemma Close_flush {W} {S : Sys W} (f : File) (e : Env W) :
  sentLines (trace (Close f e).2) =
    sentLines (trace e) ++
    match partial f with [] => [] | _ => [mkLogLine (Name f) (partial f)] end /\
  partial (Close f e).1.2 = [].
Proof.
  unfold Close. destruct (partial f) as [|c p] eqn:Hp.
  - change (0 <? Z.of_nat (@length byte [])) with false. cbv iota.
    unfold file_Close. destruct (sys_close (file f) (world e)) as [r w].
    cbn [fst snd trace emit set_world]. rewrite sentLines_app, Hp. cbn.
    rewrite app_nil_r. auto.
  - replace (0 <? Z.of_nat (length (c :: p))) with true
      by (symmetry; apply Z.ltb_lt; cbn [length]; lia).
    cbn [sendLine]. unfold file_Close.
    destruct (sys_close _ _) as [r w].
    cbn [fst snd trace emit set_world lineCount_Add partial set_partial set_partialLock].
    rewrite !sentLines_app. cbn. rewrite Hp, app_nil_r. auto.
Qed.

(** Piece after piece: each pass reads exactly the piece just appended. *)
Lemma tailPieces_tailing (fuel n : nat) (ps : list (list byte)) :
  forall (f : File) (e : Env OS) (data : list byte),
  regular f = true -> partialLock f = false ->
  tailing (file f) n (length data) data (world e) ->
  Forall (fun p => Forall (fun c => Valid c = true) (readChunks p)) ps ->
  Forall (fun p => (length p < fuel)%nat) ps ->
  exists f' e',
    tailPieces fuel n ps f e = Some (f', e') /\
    (Name f' = Name f /\ lines f' = lines f /\ file f' = file f /\
     regular f' = true /\ partialLock f' = false) /\
    partial f' = (splitLines (partial f) (concat ps)).2 /\
    sentLines (trace e') =
      sentLines (trace e) ++
      map (mkLogLine (Name f)) (splitLines (partial f) (concat ps)).1 /\
    tailing (file f) n (length (data ++ concat ps)) (data ++ concat ps) (world e').
Proof.
  induction ps as [|p ps IH]; intros f e data Hreg Hl T Hv Hfuel.
  - exists f, e. cbn [tailPieces concat splitLines map fst snd].
    rewrite !app_nil_r. repeat split; auto; apply T.
  - apply Forall_cons in Hv as [Hvp Hvps]. apply Forall_cons in Hfuel as [Hfp Hfps].
    cbn [tailPieces]. unfold Read.
    pose proof (tailing_append _ _ _ _ p _ T) as Ta.
    assert (Hd : drop (length data) (data ++ p) = p) by apply drop_app_length.
    destruct (ReadLoop_tailing fuel (length p) 0 f
                (set_world (append n p (world e)) e) n (length data) (data ++ p))
      as (f1 & e1 & -> & (A1 & A2 & A3 & A4 & A5 & A6 & A7) & Hp & Hs & T1 & _);
      [exact Hreg | exact Hl | exact Ta | rewrite length_app; lia
      | rewrite Hd; exact Hvp | rewrite Hd; lia | rewrite Hd; exact Hfp |].
    rewrite Hd in Hp, Hs. rewrite <- A3 in T1.
    destruct (IH f1 e1 (data ++ p) A4 A5 T1 Hvps Hfps)
      as (f' & e' & -> & (B1 & B2 & B3 & B4 & B5) & Hp' & Hs' & T').
    exists f', e'. split; [reflexivity|].
    cbn [concat]. rewrite splitLines_app. cbn [fst snd].
    rewrite <- !app_assoc in T'.
    split; [repeat split; congruence|].
    split; [rewrite Hp', Hp; reflexivity|].
    split; [|rewrite <- A3; exact T'].
    rewrite Hs', Hs, Hp, A1, map_app, <- app_assoc. reflexivity.
Qed.


(** X6.  A read pass over a healthy regular file whose unread bytes come
    in well-formed chunks: [Read] returns [io.EOF] with the descriptor at
    the end of the file; the lines it has sent, each followed by a
    newline, and then the buffer it leaves, are the buffer it found
    followed by the unread bytes. *)
Theorem X6_Read_reads_to_end_of_file
    (fuel : nat) (f : File) (e : Env OS) (n pos : nat) (data : list byte) :
  regular f = true -> partialLock f = false ->
  tailing (file f) n pos data (world e) ->
  (pos <= length data)%nat ->
  Forall (fun c => Valid c = true) (readChunks (drop pos data)) ->
  (length data - pos < fuel)%nat ->
  exists (f' : File) (e' : Env OS) (ls : list (list byte)) (rem : list byte),
    Read fuel f e = Some (EOF, f', e') /\
    joinLines ls ++ rem = partial f ++ drop pos data /\
    (Forall (fun c => c <> Byte.x0a) (partial f) ->
     Forall (Forall (fun c => c <> Byte.x0a)) ls /\ Forall (fun c => c <> Byte.x0a) rem) /\
    sentLines (trace e') = sentLines (trace e) ++ map (mkLogLine (Name f)) ls /\
    partial f' = rem /\
    tailing (file f') n (length data) data (world e').
Proof.
  intros Hreg Hl T Hpos Hv Hfuel. unfold Read.
  destruct (ReadLoop_tailing fuel (length (drop pos data)) 0 f e n pos data)
    as (f' & e' & -> & (A1 & A2 & A3 & A4 & A5 & A6 & A7) & Hp & Hs & T' & _);
    [exact Hreg | exact Hl | exact T | exact Hpos | exact Hv | lia
    | rewrite length_drop; lia |].
  exists f', e', (splitLines (partial f) (drop pos data)).1,
         (splitLines (partial f) (drop pos data)).2.
  split; [reflexivity|]. split; [apply splitLines_join|].
  split; [apply splitLines_clean|]. split; [exact Hs|]. split; [exact Hp|].
  rewrite A3. exact T'.
Qed.

(** X12.  Tailing end to end.  Pieces are appended to the file one after
    the other, a read pass after each; as long as every chunk read is
    well-formed UTF-8, every pass returns, and the lines sent, each
    followed by a newline, and then the buffer left, make up the buffer
    found at the start followed by all the pieces, whatever the cut into
    pieces.  [Close] then sends what is left in the buffer as one last
    line, if there is anything, and empties it. *)
Theorem X12_tail_rebuilds_the_appended_bytes
    (fuel n : nat) (ps : list (list byte)) (f : File) (e : Env OS) (data : list byte) :
  regular f = true -> partialLock f = false ->
  tailing (file f) n (length data) data (world e) ->
  Forall (fun p => Forall (fun c => Valid c = true) (readChunks p)) ps ->
  Forall (fun p => (length p < fuel)%nat) ps ->
  exists (f' : File) (e' : Env OS) (ls : list (list byte)) (rem : list byte),
    tailPieces fuel n ps f e = Some (f', e') /\
    joinLines ls ++ rem = partial f ++ concat ps /\
    (Forall (fun c => c <> Byte.x0a) (partial f) ->
     Forall (Forall (fun c => c <> Byte.x0a)) ls /\ Forall (fun c => c <> Byte.x0a) rem) /\
    sentLines (trace e') = sentLines (trace e) ++ map (mkLogLine (Name f)) ls /\
    partial f' = rem /\
    sentLines (trace (Close f' e').2)
      = sentLines (trace e') ++
        match rem with [] => [] | _ => [mkLogLine (Name f) rem] end /\
    partial (Close f' e').1.2 = [].
Proof.
  intros Hreg Hl T Hv Hfuel.
  destruct (tailPieces_tailing fuel n ps f e data Hreg Hl T Hv Hfuel)
    as (f' & e' & E & (A1 & A2 & A3 & A4 & A5) & Hp & Hs & T').
  exists f', e', (splitLines (partial f) (concat ps)).1,
         (splitLines (partial f) (concat ps)).2.
  split; [exact E|]. split; [apply splitLines_join|].
  split; [apply splitLines_clean|]. split; [exact Hs|]. split; [exact Hp|].
  destruct (Close_flush f' e') as [C1 C2]. rewrite C1, Hp, A1. auto.
Qed.











(** ** Runs *)

Import Examples.

Ltac chunks_valid :=
  match goal with
  | |- Forall _ (readChunks ?l) =>
      let x := eval vm_compute in (readChunks l) in
      change (readChunks l) with x;
      repeat (first [apply Forall_nil_2 | apply Forall_cons_2; [vm_compute; reflexivity|]])
  end.

Ltac tailing_here :=
  split; [reflexivity|]; split; [reflexivity|]; eexists; repeat split.


(** [a.log], read to offset 4, then a line and a half appended. *)
Lemma X6_witness :
  exists f' e',
    Read 10 opened.1 (appended (bytes "new" ++ [Byte.x0a] ++ bytes "par")) = Some (EOF, f', e') /\
    sentLines (trace e') = [mkLogLine "a.log" (bytes "new")] /\
    partial f' = bytes "par".
Proof.
  set (bs := bytes "new" ++ [Byte.x0a] ++ bytes "par").
  destruct (X6_Read_reads_to_end_of_file 10 opened.1 (appended bs) 0 4
              ((bytes "old" ++ [Byte.x0a]) ++ bs))
    as (f' & e' & ls & rem & HR & _).
  - reflexivity.
  - reflexivity.
  - tailing_here.
  - vm_compute. lia.
  - chunks_valid.
  - vm_compute. lia.
  - exists f', e'. split; [exact HR|].
    vm_compute in HR. injection HR as <- <-. repeat split.
Defined.


(** [hel] is appended and read, then [lo], a newline and [world]: the line
    [hello] is sent, and [world] by [Close]. *)
Lemma X12_witness :
  exists f' e',
    tailPieces 10 0 [bytes "hel"; bytes "lo" ++ [Byte.x0a] ++ bytes "world"] opened.1 opened.2
      = Some (f', e') /\
    sentLines (trace e') = [mkLogLine "a.log" (bytes "hello")] /\
    partial f' = bytes "world" /\
    sentLines (trace (Close f' e').2)
      = [mkLogLine "a.log" (bytes "hello"); mkLogLine "a.log" (bytes "world")].
Proof.
  destruct (X12_tail_rebuilds_the_appended_bytes 10 0
              [bytes "hel"; bytes "lo" ++ [Byte.x0a] ++ bytes "world"]
              opened.1 opened.2 (bytes "old" ++ [Byte.x0a]))
    as (f' & e' & ls & rem & HT & _).
  - reflexivity.
  - reflexivity.
  - tailing_here.
  - repeat (first [apply Forall_nil_2 | apply Forall_cons_2; [chunks_valid|]]).
  - repeat (first [apply Forall_nil_2 | apply Forall_cons_2; [vm_compute; lia|]]).
  - exists f', e'. split; [exact HT|].
    vm_compute in HT. injection HT as <- <-. repeat split.
Defined.



End ReadSpec.

(** * The watcher: subscriptions and the registry *)

Module WatcherRegistry.
Import Watcher Examples WatcherSpec.

Section Facts.

Variable Abs : string -> option string.
Variable Dir : string -> string.
Variable inotifyAdd : string -> option error.

Lemma index_lookup (l : list nat) (h : Z) (c : nat) :
  index l h = Some c <-> 0 <= h /\ l !! Z.to_nat h = Some c.
Proof.
  unfold index. destruct (Z.ltb_spec h 0); split.
  - discriminate.
  - intros [? _]. lia.
  - auto with zarith.
  - intros [_ ?]. assumption.
Qed.

(** X14.  [Events] hands out the handles 0, 1, 2, ... in order, each with a
    channel that did not exist before and holds nothing; the new handle
    indexes the new channel, the earlier handles keep theirs, and neither
    the registry nor what the other channels hold changes.  It returns
    only when no read lock on the subscriptions is outstanding. *)
Theorem X14_Events_issues_next_handle (w : LogWatcher) :
  (eventsMu w = 0%nat ->
   exists ch w',
     Events w = Some (Z.of_nat (length (events w)), ch, w') /\
     index (events w') (Z.of_nat (length (events w))) = Some ch /\
     chans w !! ch = None /\ chans w' !! ch = Some [] /\
     (forall h c, index (events w) h = Some c -> index (events w') h = Some c) /\
     (forall c q, chans w !! c = Some q -> chans w' !! c = Some q) /\
     watched w' = watched w /\ watcher w' = watcher w) /\
  (eventsMu w <> 0%nat -> Events w = None).
Proof.
  unfold Events. split.
  - intros ->. eexists _, _. split; [reflexivity|].
    cbn [events chans watched watcher set_events set_chans].
    split.
    { apply index_lookup. split; [lia|]. rewrite Nat2Z.id.
      rewrite lookup_app_r by lia. rewrite Nat.sub_diag. reflexivity. }
    split; [apply lookup_ge_None_2; lia|].
    split.
    { rewrite lookup_app_r by lia. rewrite Nat.sub_diag. reflexivity. }
    split.
    { intros h c H. apply index_lookup in H as [Hh H]. apply index_lookup.
      split; [exact Hh|]. apply lookup_app_l_Some. exact H. }
    split; [|auto].
    intros c q H. apply lookup_app_l_Some. exact H.
  - destruct (eventsMu w); [contradiction|reflexivity].
Qed.

(** X20.  [Add] returns from its handle check holding the read lock it took:
    after an [Add] refused for its handle, with the registry as it was, a
    subscriber calling [Events] waits for the write lock for ever, where
    before the call it would have been served. *)
Theorem X20_Add_refused_handle_blocks_Events (path : string) (handle : Z) (w : LogWatcher) :
  Z.of_nat (length (events w)) < handle ->
  eventsMu w = 0%nat ->
  (Add Abs inotifyAdd path handle w).1 = Ret (Some (Errorf "no such event handle")) /\
  watched (Add Abs inotifyAdd path handle w).2 = watched w /\
  Events w <> None /\
  Events (Add Abs inotifyAdd path handle w).2 = None.
Proof.
  intros Hh Hmu. rewrite Add_handle_too_large by exact Hh. cbn [fst snd].
  split; [reflexivity|]. split; [destruct w; reflexivity|].
  unfold Events. rewrite Hmu. split; [discriminate|]. reflexivity.
Qed.

(** X18.  A first [Add] of a path under an issued handle, where the native
    watch is granted, refused for lack of permission, or skipped because
    the path is [/dev]: it returns nil, registers the resolved path with
    the handle's channel and nothing else, releases the lock it took, and
    from then on the path is watched and its events arrive on that
    channel. *)
Theorem X18_Add_registers_resolved_path
    (path absPath : string) (handle : Z) (k : EventKind) (w : LogWatcher) :
  0 <= handle < Z.of_nat (length (events w)) ->
  Abs path = Some absPath ->
  watched w !! absPath = None ->
  absPath = "/dev" \/
    (exists n, watcher w = Some n /\
       (inotifyAdd absPath = None \/
        exists err, inotifyAdd absPath = Some err /\ IsPermission err = true)) ->
  exists c w',
    Add Abs inotifyAdd path handle w = (Ret None, w') /\
    index (events w) handle = Some c /\
    watched w' = <[absPath := c]> (watched w) /\
    events w' = events w /\ chans w' = chans w /\ eventsMu w' = eventsMu w /\
    IsWatching Abs path w' = true /\
    sendEvent Dir (mkEvent k absPath) w' = send c (mkEvent k absPath) w'.
Proof.
  intros Hh Habs Hfresh Hnat.
  destruct (events w !! Z.to_nat handle) as [c|] eqn:Hc.
  2:{ apply lookup_ge_None_1 in Hc. lia. }
  assert (Hi : forall w0 : LogWatcher, events w0 = events w ->
                 index (events w0) handle = Some c).
  { intros w0 ->. apply index_lookup. split; [lia|exact Hc]. }
  assert (Done : forall w0 : LogWatcher,
    events w0 = events w -> chans w0 = chans w -> eventsMu w0 = eventsMu w ->
    watched w0 = watched w ->
    index (events w) handle = Some c /\
    watched (set_watched (<[absPath := c]> (watched w0)) w0)
      = <[absPath := c]> (watched w) /\
    events (set_watched (<[absPath := c]> (watched w0)) w0) = events w /\
    chans (set_watched (<[absPath := c]> (watched w0)) w0) = chans w /\
    eventsMu (set_watched (<[absPath := c]> (watched w0)) w0) = eventsMu w /\
    IsWatching Abs path (set_watched (<[absPath := c]> (watched w0)) w0) = true /\
    sendEvent Dir (mkEvent k absPath) (set_watched (<[absPath := c]> (watched w0)) w0)
      = send c (mkEvent k absPath) (set_watched (<[absPath := c]> (watched w0)) w0)).
  { intros w0 E1 E2 E3 E4.
    split; [apply Hi; reflexivity|].
    split; [destruct w0; cbn in *; congruence|].
    split; [destruct w0; exact E1|]. split; [destruct w0; exact E2|].
    split; [destruct w0; exact E3|].
    assert (L : forall m (w1 : LogWatcher), watched (set_watched m w1) = m)
      by (intros m []; reflexivity).
    split.
    - unfold IsWatching. rewrite Habs, L, lookup_insert_eq. reflexivity.
    - unfold sendEvent. cbn [Pathname]. rewrite L, lookup_insert_eq. reflexivity. }
  assert (E : exists w0 : LogWatcher,
    (events w0 = events w /\ chans w0 = chans w /\ eventsMu w0 = eventsMu w /\
     watched w0 = watched w) /\
    Add Abs inotifyAdd path handle w
    = (Ret None, set_watched (<[absPath := c]> (watched w0)) w0)).
  { rewrite Add_check_passes by lia.
    unfold IsWatching. rewrite Habs, Hfresh. cbv zeta.
    destruct Hnat as [-> | (n & Hn & Hk)].
    - rewrite bool_decide_eq_true_2 by reflexivity. rewrite Hi by reflexivity.
      exists w. auto.
    - destruct (bool_decide (absPath = "/dev")).
      + rewrite Hi by reflexivity. exists w. auto.
      + rewrite Hn. destruct Hk as [-> | (err & -> & ->)].
        * rewrite Hi by (destruct w; reflexivity).
          eexists. split; [|reflexivity]. destruct w; auto.
        * rewrite Hi by reflexivity. exists w. auto. }
  destruct E as (w0 & (E1 & E2 & E3 & E4) & ->).
  exists c. eexists. split; [reflexivity|]. apply Done; assumption.
Qed.

(** X19.  What [Add] returns as an error leaves the watcher as it was: a path
    that cannot be resolved, and a native watch refused for another reason
    than permission, whose error comes back wrapped.  The path is not
    registered. *)
Theorem X19_Add_error_changes_nothing (path : string) (handle : Z) (w : LogWatcher) :
  handle <= Z.of_nat (length (events w)) ->
  (Abs path = None ->
   Add Abs inotifyAdd path handle w
   = (Ret (Some (Wrapf (ErrOther "getwd") "Failed to lookup absolutepath")), w)) /\
  (forall absPath n err,
     Abs path = Some absPath -> watched w !! absPath = None ->
     absPath <> "/dev" -> watcher w = Some n ->
     inotifyAdd absPath = Some err -> IsPermission err = false ->
     Add Abs inotifyAdd path handle w
     = (Ret (Some (Wrapf err "Failed to create a new watch")), w) /\
     IsWatching Abs path (Add Abs inotifyAdd path handle w).2 = false).
Proof.
  intros Hh. split.
  - intros Habs. rewrite Add_check_passes by exact Hh.
    unfold IsWatching. rewrite Habs. reflexivity.
  - intros absPath n err Habs Hfresh Hdev Hn He Hp.
    assert (E : Add Abs inotifyAdd path handle w
                = (Ret (Some (Wrapf err "Failed to create a new watch")), w)).
    { rewrite Add_check_passes by exact Hh.
      unfold IsWatching. rewrite Habs, Hfresh. cbv zeta.
      rewrite bool_decide_eq_false_2 by exact Hdev. rewrite Hn, He, Hp. reflexivity. }
    rewrite E. split; [reflexivity|]. cbn [snd].
    unfold IsWatching. rewrite Habs, Hfresh. reflexivity.
Qed.

Lemma Remove_watched (path : string) (w : LogWatcher) :
  watched (Remove path w).2 = delete path (watched w) /\
  events (Remove path w).2 = events w /\ chans (Remove path w).2 = chans w.
Proof.
  unfold Remove.
  destruct (watcher (set_watched (delete path (watched w)) w)) as [n|].
  - destruct (nativeRemove path n) as [err n']. destruct w; auto.
  - destruct w; auto.
Qed.

(** X21.  [Remove] takes the key it is given out of the registry and leaves
    every other registration in place; a path added under its resolved
    name and then removed leaves the registry exactly as it was before the
    [Add].  With the native backend off [Remove] returns nil, also for a
    path that was never added. *)
Theorem X21_Remove_undoes_Add_of_resolved_path
    (absPath : string) (handle : Z) (w : LogWatcher) :
  (forall w' : LogWatcher,
     Add Abs inotifyAdd absPath handle w = (Ret None, w') ->
     Abs absPath = Some absPath ->
     watched w !! absPath = None ->
     watched (Remove absPath w').2 = watched w /\
     IsWatching Abs absPath (Remove absPath w').2 = false) /\
  (forall other, other <> absPath ->
     watched (Remove absPath w).2 !! other = watched w !! other) /\
  (watcher w = None -> (Remove absPath w).1 = None).
Proof.
  split; [|split].
  - intros w' HA Habs Hfresh.
    destruct (Remove_watched absPath w') as (R & _). rewrite R.
    assert (Hw : watched w' = <[absPath := default 0%nat (watched w' !! absPath)]> (watched w)).
    { destruct (Z.lt_ge_cases (Z.of_nat (length (events w))) handle) as [Hlt|Hge].
      { rewrite Add_handle_too_large in HA by exact Hlt. discriminate. }
      rewrite Add_check_passes in HA by lia.
      unfold IsWatching in HA. rewrite Habs, Hfresh in HA. cbv zeta in HA.
      assert (St : forall w0 : LogWatcher, watched w0 = watched w ->
        match index (events w0) handle with
        | None => (@Panic (option error) "index out of range", RLock w0)
        | Some c => (Ret None, set_watched (<[absPath := c]> (watched w0)) w0)
        end = (Ret None, w') ->
        watched w' = <[absPath := default 0%nat (watched w' !! absPath)]> (watched w)).
      { intros w0 E. destruct (index (events w0) handle) as [c|]; [|discriminate].
        intros H. injection H as <-.
        replace (watched (set_watched (<[absPath:=c]> (watched w0)) w0))
          with (<[absPath := c]> (watched w)) by (destruct w0; cbn in *; congruence).
        rewrite lookup_insert_eq. reflexivity. }
      destruct (bool_decide (absPath = "/dev")); [apply (St w); [reflexivity|exact HA]|].
      destruct (watcher w) as [n|]; [|discriminate].
      destruct (inotifyAdd absPath) as [err|].
      - destruct (IsPermission err); [|discriminate]. apply (St w); [reflexivity|exact HA].
      - eapply St; [|exact HA]. destruct w; reflexivity. }
    split.
    + rewrite Hw. rewrite delete_insert_eq. apply delete_id. exact Hfresh.
    + unfold IsWatching. rewrite Habs, R, lookup_delete_eq. reflexivity.
  - intros other Hne. destruct (Remove_watched absPath w) as (R & _).
    rewrite R. apply lookup_delete_ne. congruence.
  - intros Hn. unfold Remove.
    replace (watcher (set_watched (delete absPath (watched w)) w)) with (watcher w)
      by (destruct w; reflexivity).
    rewrite Hn. reflexivity.
Qed.

End Facts.

(** X13.  [NewLogWatcher] never fails: an [fsnotify] that cannot start is
    only logged and leaves the native backend off.  The watcher starts
    with no subscription, no watched path and no lock held.  With the
    native backend off an interval of zero becomes 250ms, so that for
    every interval that is not negative the watcher has a native backend
    or a ticker; a negative interval with the backend off leaves it with
    neither. *)
Theorem X13_NewLogWatcher_sources
    (fsnotifyNew : option error) (pollInterval : Z) (enableFsnotify : bool) :
  let w := NewLogWatcher fsnotifyNew pollInterval enableFsnotify in
  events w = [] /\ watched w = ∅ /\ chans w = [] /\ eventsMu w = 0%nat /\
  (watcher w <> None <-> enableFsnotify = true /\ fsnotifyNew = None) /\
  (watcher w = None -> pollInterval = 0 -> pollTicker w = Some (250 * Millisecond)) /\
  (0 < pollInterval -> pollTicker w = Some pollInterval) /\
  (0 <= pollInterval -> watcher w <> None \/ pollTicker w <> None) /\
  (pollInterval < 0 -> pollTicker w = None).
Proof.
  intros w. subst w. unfold NewLogWatcher.
  destruct enableFsnotify, fsnotifyNew as [err|];
    cbn [events watched chans eventsMu watcher pollTicker];
    destruct (Z.eqb_spec pollInterval 0) as [E0|E0];
    try (rewrite E0; change (0 <? 0) with false;
         change (0 <? Millisecond * 250) with true);
    destruct (Z.ltb_spec 0 pollInterval) as [Hp|Hp];
    repeat split; intros; subst;
    try reflexivity; try discriminate; try lia; try contradiction;
    try (left; discriminate); try (right; discriminate);
    try (exfalso; intuition congruence).
Qed.

(** ** Runs *)

Import Examples.

(** The third subscription to a watcher with two. *)
Lemma X14_witness :
  eventsMu native2 = 0%nat /\
  exists ch w',
    Events native2 = Some (2, ch, w') /\ index (events w') 2 = Some ch /\
    chans w' !! ch = Some [].
Proof.
  assert (H : eventsMu native2 = 0%nat) by reflexivity.
  split; [exact H|].
  destruct (X14_Events_issues_next_handle native2) as [A _].
  destruct (A H) as (ch & w' & E & I & _ & C & _).
  exists ch, w'. split; [exact E|]. split; [exact I|exact C].
Defined.

(** Handle 1 on a watcher without subscription. *)
Lemma X20_witness :
  (Z.of_nat (length (events native0)) < 1 /\ eventsMu native0 = 0%nat) /\
  (Add absLog grant "/tmp/a.log" 1 native0).1 = Ret (Some (Errorf "no such event handle")) /\
  watched (Add absLog grant "/tmp/a.log" 1 native0).2 = watched native0 /\
  Events native0 <> None /\
  Events (Add absLog grant "/tmp/a.log" 1 native0).2 = None.
Proof.
  assert (H : Z.of_nat (length (events native0)) < 1 /\ eventsMu native0 = 0%nat)
    by (split; [vm_compute; reflexivity|reflexivity]).
  split; [exact H|]. destruct H as [H1 H2].
  exact (X20_Add_refused_handle_blocks_Events absLog grant "/tmp/a.log" 1 native0 H1 H2).
Defined.

(** [app.log] added from [/var/log] under handle 0. *)
Lemma X18_witness :
  exists c w',
    Add absLog grant "app.log" 0 native2 = (Ret None, w') /\
    index (events native2) 0 = Some c /\
    watched w' = <["/var/log/app.log" := c]> (watched native2) /\
    events w' = events native2 /\ chans w' = chans native2 /\
    eventsMu w' = eventsMu native2 /\
    IsWatching absLog "app.log" w' = true /\
    sendEvent dirOf (mkEvent Update "/var/log/app.log") w'
      = send c (mkEvent Update "/var/log/app.log") w'.
Proof.
  apply (X18_Add_registers_resolved_path absLog dirOf grant
           "app.log" "/var/log/app.log" 0 Update native2).
  - vm_compute. split; [discriminate|reflexivity].
  - reflexivity.
  - vm_compute. reflexivity.
  - right. exists (mkNative []). split; [reflexivity|]. left. reflexivity.
Defined.

(** The kernel refuses the watch for another reason than permission. *)
Lemma X19_witness :
  0 <= Z.of_nat (length (events native2)) /\
  Add absLog refuse "app.log" 0 native2
  = (Ret (Some (Wrapf (ErrOther "no space left on device") "Failed to create a new watch")),
     native2) /\
  IsWatching absLog "app.log" (Add absLog refuse "app.log" 0 native2).2 = false.
Proof.
  split; [lia|].
  destruct (X19_Add_error_changes_nothing absLog refuse "app.log" 0 native2) as [_ B].
  - vm_compute. discriminate.
  - apply (B "/var/log/app.log" (mkNative []) (ErrOther "no space left on device")).
    + reflexivity.
    + vm_compute. reflexivity.
    + discriminate.
    + reflexivity.
    + reflexivity.
    + reflexivity.
Defined.

(** [/var/log/app.log] added and removed again. *)
Lemma X21_witness :
  watched (Remove "/var/log/app.log"
             (Add absLog grant "/var/log/app.log" 0 native2).2).2 = watched native2 /\
  IsWatching absLog "/var/log/app.log"
    (Remove "/var/log/app.log" (Add absLog grant "/var/log/app.log" 0 native2).2).2 = false.
Proof.
  destruct (X21_Remove_undoes_Add_of_resolved_path absLog grant "/var/log/app.log" 0 native2)
    as [A _].
  apply A.
  - vm_compute. reflexivity.
  - reflexivity.
  - vm_compute. reflexivity.
Defined.

End WatcherRegistry.

(** * The watcher's loops *)

Module WatcherLoopsSpec.
Import Watcher WatcherLoops.

Lemma has_testbit (op : Z) (k : Z) :
  0 <= k -> has op (2 ^ k) = Z.testbit op k.
Proof.
  intros Hk. unfold has.
  destruct (Z.testbit op k) eqn:T.
  - apply Z.eqb_eq. apply Z.bits_inj'. intros n Hn.
    rewrite Z.land_spec. destruct (Z.eq_dec n k) as [->|Hne].
    + rewrite T, Z.pow2_bits_true by lia. reflexivity.
    + rewrite Z.pow2_bits_false by lia. apply andb_false_r.
  - apply Z.eqb_neq. intros E.
    assert (Z.testbit (Z.land op (2 ^ k)) k = true) as H
      by (rewrite E; apply Z.pow2_bits_true; lia).
    rewrite Z.land_spec, T in H. discriminate.
Qed.


Lemma kindOf_none (op : Z) : kindOf op = None <-> Z.land op 31 = 0.
Proof.
  unfold kindOf. split.
  - intros H. apply Z.bits_inj'. intros n Hn.
    rewrite Z.land_spec, Z.bits_0.
    destruct (Z.testbit op 0) eqn:T0; [discriminate|].
    destruct (Z.testbit op 1) eqn:T1; [discriminate|].
    destruct (Z.testbit op 4) eqn:T4; [discriminate|].
    destruct (Z.testbit op 2) eqn:T2; [discriminate|].
    destruct (Z.testbit op 3) eqn:T3; [discriminate|].
    destruct (Z.eq_dec n 0) as [->|]; [rewrite T0; reflexivity|].
    destruct (Z.eq_dec n 1) as [->|]; [rewrite T1; reflexivity|].
    destruct (Z.eq_dec n 2) as [->|]; [rewrite T2; reflexivity|].
    destruct (Z.eq_dec n 3) as [->|]; [rewrite T3; reflexivity|].
    destruct (Z.eq_dec n 4) as [->|]; [rewrite T4; reflexivity|].
    change 31 with (Z.ones 5). rewrite Z.ones_spec_high by lia. apply andb_false_r.
  - intros H.
    assert (B : forall k, 0 <= k < 5 -> Z.testbit op k = false).
    { intros k Hk. assert (E : Z.testbit (Z.land op 31) k = false)
        by (rewrite H; apply Z.bits_0).
      rewrite Z.land_spec in E. change 31 with (Z.ones 5) in E.
      rewrite Z.ones_spec_low in E by lia. rewrite andb_true_r in E. exact E. }
    rewrite !B by lia. reflexivity.
Qed.

Section Facts.

Variable Dir : string -> string.

Lemma handleEvent_kind (e : FsEvent) (cnt : gmap string Z) (w : LogWatcher) :
  handleEvent Dir e cnt w =
    match kindOf (fsOp e) with
    | Some k => Ret (Tailer.bump (fsName e) cnt, sendEvent Dir (mkEvent k (fsName e)) w)
    | None => Panic "unknown op type"
    end.
Proof.
  unfold handleEvent, kindOf, fsCreate, fsWrite, fsRemove, fsRename, fsChmod.
  rewrite (has_testbit _ 0), (has_testbit _ 1), (has_testbit _ 2),
          (has_testbit _ 3), (has_testbit _ 4) by lia.
  destruct (Z.testbit (fsOp e) 0); [reflexivity|].
  destruct (Z.testbit (fsOp e) 1), (Z.testbit (fsOp e) 4); try reflexivity.
  destruct (Z.testbit (fsOp e) 2), (Z.testbit (fsOp e) 3); reflexivity.
Qed.

(** X15.  [runEvents] turns a native event into one watcher event for the
    same name: [Create] when the create bit is set; failing that [Update]
    when the write or the chmod bit is set; failing that [Delete] when the
    remove or the rename bit is set.  The event is counted under its name
    before it is looked at.  It panics exactly on the operations that have
    none of the five bits. *)
Theorem X15_handleEvent_dispatch (e : FsEvent) (cnt : gmap string Z) (w : LogWatcher) :
  (Z.testbit (fsOp e) 0 = true ->
   handleEvent Dir e cnt w
   = Ret (Tailer.bump (fsName e) cnt, sendEvent Dir (mkEvent Create (fsName e)) w)) /\
  (Z.testbit (fsOp e) 0 = false ->
   Z.testbit (fsOp e) 1 = true \/ Z.testbit (fsOp e) 4 = true ->
   handleEvent Dir e cnt w
   = Ret (Tailer.bump (fsName e) cnt, sendEvent Dir (mkEvent Update (fsName e)) w)) /\
  (Z.testbit (fsOp e) 0 = false ->
   Z.testbit (fsOp e) 1 = false -> Z.testbit (fsOp e) 4 = false ->
   Z.testbit (fsOp e) 2 = true \/ Z.testbit (fsOp e) 3 = true ->
   handleEvent Dir e cnt w
   = Ret (Tailer.bump (fsName e) cnt, sendEvent Dir (mkEvent Delete (fsName e)) w)) /\
  (handleEvent Dir e cnt w = Panic "unknown op type" <-> Z.land (fsOp e) 31 = 0).
Proof.
  rewrite handleEvent_kind. pose proof (kindOf_none (fsOp e)) as K. unfold kindOf in *.
  split; [intros ->; reflexivity|].
  split; [intros -> [-> | ->]; [|rewrite orb_true_r]; reflexivity|].
  split; [intros -> -> -> [-> | ->]; [|rewrite orb_true_r]; reflexivity|].
  rewrite <- K.
  destruct (Z.testbit (fsOp e) 0); [split; discriminate|].
  destruct (Z.testbit (fsOp e) 1 || Z.testbit (fsOp e) 4); [split; discriminate|].
  destruct (Z.testbit (fsOp e) 2 || Z.testbit (fsOp e) 3); [split; discriminate|].
  split; reflexivity.
Qed.

Lemma sendEvent_registry (e : Event) (w : LogWatcher) :
  watched (sendEvent Dir e w) = watched w /\ events (sendEvent Dir e w) = events w /\
  watcher (sendEvent Dir e w) = watcher w.
Proof.
  unfold sendEvent.
  destruct (watched w !! Pathname e) as [c|]; [destruct w; auto|].
  destruct (watched w !! Dir (Pathname e)) as [c|]; [destruct w; auto|]. auto.
Qed.

Lemma bump_lookup (k n : string) (m : gmap string Z) :
  default 0 (Tailer.bump k m !! n) =
  default 0 (m !! n) + (if bool_decide (k = n) then 1 else 0).
Proof.
  unfold Tailer.bump. destruct (bool_decide_reflect (k = n)) as [->|Hne].
  - rewrite lookup_insert_eq. reflexivity.
  - rewrite lookup_insert_ne by exact Hne. lia.
Qed.

(** X16.  As long as every native event carries one of the five known bits,
    [runEvents] runs through them all without panic; it leaves the
    registry, the subscriptions and the native watcher as they were, and
    has counted every event under its name.  The first event with none of
    the bits panics the loop: the events behind it are never handled. *)
Theorem X16_runEvents_counts_and_keeps_registry
    (es : list FsEvent) (cnt : gmap string Z) (w : LogWatcher) :
  (Forall (fun e => Z.land (fsOp e) 31 <> 0) es ->
   exists cnt' w',
     runEvents Dir es cnt w = Ret (cnt', w') /\
     watched w' = watched w /\ events w' = events w /\ watcher w' = watcher w /\
     forall n, default 0 (cnt' !! n) =
               default 0 (cnt !! n) +
               Z.of_nat (length (filter (fun e => fsName e = n) es))) /\
  (forall es1 e es2,
     es = es1 ++ e :: es2 ->
     Forall (fun e => Z.land (fsOp e) 31 <> 0) es1 ->
     Z.land (fsOp e) 31 = 0 ->
     runEvents Dir es cnt w = Panic "unknown op type").
Proof.
  split.
  - revert cnt w. induction es as [|e es IH]; intros cnt w H.
    + exists cnt, w. cbn. repeat split; auto. intros n. lia.
    + apply Forall_cons in H as [He Hes]. cbn [runEvents].
      rewrite handleEvent_kind. pose proof (kindOf_none (fsOp e)) as K.
      destruct (kindOf (fsOp e)) as [k|]; [|exfalso; apply He, K; reflexivity].
      destruct (IH (Tailer.bump (fsName e) cnt)
                   (sendEvent Dir (mkEvent k (fsName e)) w) Hes)
        as (cnt' & w' & -> & A & B & C & D).
      destruct (sendEvent_registry (mkEvent k (fsName e)) w) as (A' & B' & C').
      exists cnt', w'. split; [reflexivity|].
      split; [congruence|]. split; [congruence|]. split; [congruence|].
      intros n. rewrite D, bump_lookup, filter_cons.
      destruct (decide (fsName e = n)) as [E|E].
      * rewrite bool_decide_eq_true_2 by exact E. cbn [length]. lia.
      * rewrite bool_decide_eq_false_2 by exact E. lia.
  - intros es1 e es2 -> H1 H0. revert cnt w.
    induction es1 as [|e1 es1 IH]; intros cnt w.
    + cbn [app runEvents]. rewrite handleEvent_kind. pose proof (kindOf_none (fsOp e)) as K.
      apply K in H0. rewrite H0. reflexivity.
    + apply Forall_cons in H1 as [He Hes]. cbn [app runEvents].
      rewrite handleEvent_kind. pose proof (kindOf_none (fsOp e1)) as K.
      destruct (kindOf (fsOp e1)) as [k|]; [|exfalso; apply He, K; reflexivity].
      apply IH. exact Hes.
Qed.

End Facts.

(** What one tick does to a channel. *)
Lemma tick_chans (order : list (string * nat)) (w : LogWatcher) (c : nat) :
  chans (tick order w) !! c =
    (fun q => q ++ map (fun nc => mkEvent Update nc.1)
                       (filter (fun nc => nc.2 = c) order)) <$> chans w !! c.
Proof.
  revert w. induction order as [|[n c'] order IH]; intros w.
  - cbn. destruct (chans w !! c); cbn; [rewrite app_nil_r|]; reflexivity.
  - unfold tick in *. cbn [foldl]. rewrite IH. unfold send, set_chans. cbn [chans fst snd].
    rewrite filter_cons. cbn [snd]. destruct (decide (c' = c)) as [->|Hne].
    + rewrite list_lookup_alter_eq. destruct (chans w !! c); cbn; [|reflexivity].
      rewrite <- app_assoc. reflexivity.
    + rewrite list_lookup_alter_ne by exact Hne. reflexivity.
Qed.

Lemma tick_registry (order : list (string * nat)) (w : LogWatcher) :
  watched (tick order w) = watched w /\ events (tick order w) = events w.
Proof.
  revert w. induction order as [|[n c'] order IH]; intros w; [auto|].
  unfold tick in *. cbn [foldl fst snd]. destruct (IH (send c' (mkEvent Update n) w)) as [A B].
  rewrite A, B. destruct w; auto.
Qed.

(** X17.  One tick of the poller, whatever order the map is walked in: every
    channel receives, behind what it held, exactly one [Update] for each
    path registered to it, and nothing else; the registry is unchanged. *)
Theorem X17_tick_updates_every_watched_path
    (order : list (string * nat)) (w : LogWatcher) (c : nat) (q : list Event) :
  order ≡ₚ map_to_list (watched w) ->
  chans w !! c = Some q ->
  exists evs,
    chans (tick order w) !! c = Some (q ++ evs) /\
    NoDup evs /\
    (forall ev, ev ∈ evs <->
       exists n, ev = mkEvent Update n /\ watched w !! n = Some c) /\
    watched (tick order w) = watched w.
Proof.
  intros Hp Hq.
  exists (map (fun nc => mkEvent Update nc.1) (filter (fun nc => nc.2 = c) order)).
  split; [rewrite tick_chans, Hq; reflexivity|].
  assert (Hnd : NoDup (map fst order)).
  { rewrite Hp. apply NoDup_fst_map_to_list. }
  split; [|split; [|apply tick_registry]].
  - assert (Hsub : NoDup (map fst (filter (fun nc => nc.2 = c) order))).
    { clear Hp Hq. induction order as [|[n c'] order IH]; [constructor|].
      cbn [map fst] in Hnd. apply NoDup_cons in Hnd as [Hn Hnd].
      rewrite filter_cons. destruct (decide ((n, c').2 = c)); [|auto].
      cbn [map fst]. apply NoDup_cons. split; [|auto].
      intros Hin. apply Hn. apply list_elem_of_fmap in Hin as ([n' c''] & -> & Hin).
      apply list_elem_of_filter in Hin as [_ Hin].
      apply list_elem_of_fmap. exists (n', c''). auto. }
    revert Hsub. generalize (filter (fun nc => nc.2 = c) order).
    intros l. induction l as [|[n c'] l IH]; intros H; [constructor|].
    cbn [map fst] in *. apply NoDup_cons in H as [Hn H]. apply NoDup_cons.
    split; [|auto]. intros Hin. apply Hn.
    apply list_elem_of_fmap in Hin as ([n' c''] & E & Hin). injection E as ->.
    apply list_elem_of_fmap. exists (n', c''). auto.
  - intros ev. split.
    + intros Hin. apply list_elem_of_fmap in Hin as ([n c'] & -> & Hin).
      apply list_elem_of_filter in Hin as [Hc Hin]. cbn in Hc. subst c'.
      exists n. split; [reflexivity|]. apply elem_of_map_to_list. rewrite <- Hp. exact Hin.
    + intros (n & -> & Hn). apply list_elem_of_fmap. exists (n, c). split; [reflexivity|].
      apply list_elem_of_filter. split; [reflexivity|].
      rewrite Hp. apply elem_of_map_to_list. exact Hn.
Qed.

(** ** Runs *)

Import Examples.

(** A creation that is also a write is a creation. *)
Lemma X15_witness :
  Z.testbit 3 0 = true /\
  handleEvent dirOf (mkFsEvent "/var/log/new.log" 3) ∅ watchingDir
  = Ret (Tailer.bump "/var/log/new.log" ∅,
         sendEvent dirOf (mkEvent Create "/var/log/new.log") watchingDir).
Proof.
  split; [reflexivity|].
  destruct (X15_handleEvent_dispatch dirOf (mkFsEvent "/var/log/new.log" 3) ∅ watchingDir)
    as [A _].
  apply A. reflexivity.
Defined.

(** A write to [app.log], and the creation of a file in [/var/log]. *)
Lemma X16_witness :
  exists cnt' w',
    runEvents dirOf [mkFsEvent "/var/log/app.log" 2; mkFsEvent "/var/log/new.log" 1]
              ∅ watchingDir = Ret (cnt', w') /\
    watched w' = watched watchingDir /\
    default 0 (cnt' !! "/var/log/app.log") = 1 /\
    default 0 (cnt' !! "/var/log/new.log") = 1.
Proof.
  destruct (X16_runEvents_counts_and_keeps_registry dirOf
              [mkFsEvent "/var/log/app.log" 2; mkFsEvent "/var/log/new.log" 1]
              ∅ watchingDir) as [A _].
  destruct A as (cnt' & w' & E & Hw & _ & _ & D).
  - repeat constructor; vm_compute; discriminate.
  - exists cnt', w'. split; [exact E|]. split; [exact Hw|].
    rewrite !D. split; vm_compute; reflexivity.
Defined.

(** A tick with [app.log] and [/var/log] watched. *)
Lemma X17_witness :
  exists evs,
    chans (tick (map_to_list (watched watchingDir)) watchingDir) !! 0%nat = Some ([] ++ evs) /\
    NoDup evs /\
    (forall ev, ev ∈ evs <->
       exists n, ev = mkEvent Update n /\ watched watchingDir !! n = Some 0%nat).
Proof.
  destruct (X17_tick_updates_every_watched_path
              (map_to_list (watched watchingDir)) watchingDir 0%nat [])
    as (evs & A & B & C & _).
  - reflexivity.
  - reflexivity.
  - exists evs. auto.
Defined.

End WatcherLoopsSpec.
